(** * socket-nn: the array-over-socket client scripts

    A shallow embedding of [src/test.py] and [src/examples/client.py].
    Both scripts encode a numpy array with [np.save], send it over a TCP
    stream socket, read the reply until the peer closes the stream and
    decode it with [np.load]; their [main] functions assert what a server
    listening on 127.0.0.1:8080 is expected to answer.

    Layout of the development:
    - [Py]:     the Python values the scripts touch (bytes, exceptions,
                [io.BytesIO], [repr] of ints);
    - [Npy]:    the [.npy] array-serialization format written by
                [np.save] and read back by [np.load];
    - [F8]:     IEEE binary64, the element type of the drivers' arrays;
    - [Numpy]:  the numpy functions the scripts call;
    - [Net]:    the operating system's sockets and the remote peer, as an
                explicit world threaded through a small monad of state,
                exceptions and non-termination;
    - [TestPy], [ClientPy]: the two scripts, function by function;
    - the vocabulary in which the properties are stated;
    - lemmas: the format reads back what it writes, the receive loop
      seen from the stream, the scripts' functions run step by step;
    - the properties of the scripts, C1 to C10, and further properties
      of the same functions, X1 to X10. *)

From Stdlib Require Import ZArith NArith List Lia SpecFloat.
From Stdlib.Strings Require Import String Ascii Byte.
From stdpp Require Import base option list gmap.

#[local] Open Scope list_scope.
#[local] Open Scope nat_scope.

(* ===================================================================== *)
(** * Python values *)
(* ===================================================================== *)

Module Py.

(** [bytes] objects. *)
Abbreviation bytes := (list byte).

(** The exception classes that can reach the scripts. *)
Inductive exn :=
| OSError (errno : Z)
| ValueError
| MemoryError
| EOFError
| TypeError
| AttributeError
| AssertionError.

(** The outcome of evaluating an expression: a value or a raised
    exception. *)
Inductive res (A : Type) :=
| Ret (a : A)
| Raise (e : exn).
Arguments Ret {A} a.
Arguments Raise {A} e.

Definition res_bind {A B} (r : res A) (k : A -> res B) : res B :=
  match r with
  | Ret a => k a
  | Raise e => Raise e
  end.

(** [not z] for a [bytes] object [z]: true exactly for [b'']. *)
Definition bytes_not (z : bytes) : bool :=
  match z with
  | [] => true
  | _ :: _ => false
  end.

(** [io.BytesIO]: a growable buffer and a stream position. *)
Record BytesIO := mkBytesIO { bio_buf : bytes; bio_pos : nat }.

(** [io.BytesIO()] *)
Definition BytesIO_new : BytesIO := mkBytesIO [] 0.

(** [f.write(z)]: overwrite at the position, extending the buffer (and
    zero-filling a gap left by a seek past the end); an empty write does
    nothing. *)
Definition bio_write (f : BytesIO) (z : bytes) : BytesIO :=
  match z with
  | [] => f
  | _ :: _ =>
      let p := bio_pos f in
      let b := bio_buf f in
      mkBytesIO (take p b ++ replicate (p - length b) x00 ++ z
                   ++ drop (p + length z) b)
                (p + length z)
  end.

(** [f.seek(n)] *)
Definition bio_seek (f : BytesIO) (n : nat) : BytesIO :=
  mkBytesIO (bio_buf f) n.

(** [f.read()]: everything from the position to the end. *)
Definition bio_read (f : BytesIO) : bytes * BytesIO :=
  (drop (bio_pos f) (bio_buf f),
   mkBytesIO (bio_buf f) (Nat.max (bio_pos f) (length (bio_buf f)))).

(** [str.encode('latin1')] of an ASCII literal. *)
Definition latin1 (s : string) : bytes := list_byte_of_string s.

(** [repr(n)] of a non-negative [int], as latin1 bytes. *)
Definition digit_byte (d : N) : byte :=
  match Byte.of_N (48 + d) with
  | Some b => b
  | None => x30
  end.

Fixpoint repr_digits (fuel : nat) (n : N) (acc : bytes) : bytes :=
  match fuel with
  | O => acc
  | S fuel' =>
      let acc' := digit_byte (n mod 10) :: acc in
      if (n <? 10)%N then acc' else repr_digits fuel' (n / 10) acc'
  end.

Definition repr_int (n : N) : bytes :=
  repr_digits (S (N.to_nat (N.log2 n))) n [].

(** The value of a decimal digit character, if it is one. *)
Definition digit_val (b : byte) : option N :=
  let c := Byte.to_N b in
  if ((48 <=? c) && (c <=? 57))%N then Some (c - 48)%N else None.

(** [struct.pack('<H', n)] and [struct.pack('<I', n)]. *)
Definition byte_of_N (n : N) : byte :=
  match Byte.of_N (n mod 256) with
  | Some b => b
  | None => x00
  end.

Fixpoint pack_le (width : nat) (n : N) : bytes :=
  match width with
  | O => []
  | S w => byte_of_N n :: pack_le w (n / 256)
  end.

(** [struct.unpack] of a little-endian unsigned field. *)
Fixpoint unpack_le (bs : bytes) : N :=
  match bs with
  | [] => 0
  | b :: bs' => (Byte.to_N b + 256 * unpack_le bs')%N
  end.

(** [z == y] on [bytes]. *)
Fixpoint bytes_eqb (z y : bytes) : bool :=
  match z, y with
  | [], [] => true
  | c :: z', d :: y' => Byte.eqb c d && bytes_eqb z' y'
  | _, _ => false
  end.

(** [z.startswith(p)] *)
Fixpoint startswith (z p : bytes) {struct p} : bool :=
  match p with
  | [] => true
  | c :: p' =>
      match z with
      | [] => false
      | d :: z' => Byte.eqb c d && startswith z' p'
      end
  end.

End Py.
Export Py.

(* ===================================================================== *)
(** * The [.npy] array-serialization format *)
(* ===================================================================== *)

(** [np.save] and [np.load] belong to numpy, not to this repository.  The
    module follows numpy's [lib/format.py] as of numpy 1.24 (format
    version 1.0 with the fallback to 2.0 and 3.0, 64-byte header
    alignment, spare room for the growth axis) for arrays of the numeric
    dtypes. *)
Module Npy.

Inductive byteorder := little | big.

(** The numeric dtypes: booleans, signed and unsigned integers, floats
    and complex numbers.  One-byte dtypes have no byte order. *)
Inductive dtype :=
| bool_ | int8 | uint8
| int16 (o : byteorder) | int32 (o : byteorder) | int64 (o : byteorder)
| uint16 (o : byteorder) | uint32 (o : byteorder) | uint64 (o : byteorder)
| float16 (o : byteorder) | float32 (o : byteorder)
| float64 (o : byteorder) | longdouble (o : byteorder)
| complex64 (o : byteorder) | complex128 (o : byteorder)
| clongdouble (o : byteorder).

Definition order_char (o : byteorder) : string :=
  match o with little => "<" | big => ">" end.

(** [dtype.str], which [dtype_to_descr] writes for a plain dtype. *)
Definition dtype_str (d : dtype) : string :=
  match d with
  | bool_ => "|b1" | int8 => "|i1" | uint8 => "|u1"
  | int16 o => order_char o ++ "i2"
  | int32 o => order_char o ++ "i4"
  | int64 o => order_char o ++ "i8"
  | uint16 o => order_char o ++ "u2"
  | uint32 o => order_char o ++ "u4"
  | uint64 o => order_char o ++ "u8"
  | float16 o => order_char o ++ "f2"
  | float32 o => order_char o ++ "f4"
  | float64 o => order_char o ++ "f8"
  | longdouble o => order_char o ++ "f16"
  | complex64 o => order_char o ++ "c8"
  | complex128 o => order_char o ++ "c16"
  | clongdouble o => order_char o ++ "c32"
  end.

(** [dtype.itemsize] *)
Definition itemsize (d : dtype) : N :=
  match d with
  | bool_ | int8 | uint8 => 1
  | int16 _ | uint16 _ | float16 _ => 2
  | int32 _ | uint32 _ | float32 _ => 4
  | int64 _ | uint64 _ | float64 _ | complex64 _ => 8
  | longdouble _ | complex128 _ => 16
  | clongdouble _ => 32
  end.

Definition all_dtypes : list dtype :=
  [bool_; int8; uint8]
  ++ flat_map (fun o =>
       [int16 o; int32 o; int64 o; uint16 o; uint32 o; uint64 o;
        float16 o; float32 o; float64 o; longdouble o;
        complex64 o; complex128 o; clongdouble o]) [little; big].

(** [descr_to_dtype] on the strings [dtype_str] produces. *)
Definition descr_to_dtype (s : bytes) : option dtype :=
  List.find (fun d => bytes_eqb (latin1 (dtype_str d)) s) all_dtypes.

(** A numeric array: element type, memory order, shape and the raw
    element bytes in memory order.  [fortran_order] is the flag
    [header_data_from_array_1_0] stores: set for an array that is
    F-contiguous and not C-contiguous. *)
Record ndarray := mk_ndarray {
  arr_dtype : dtype;
  arr_fortran : bool;
  arr_shape : list N;
  arr_data : bytes
}.

(** The number of elements, [multiply.reduce(shape)]. *)
Definition count (shape : list N) : N := fold_right N.mul 1%N shape.

(** An array with at most one axis longer than 1, or with an empty
    axis, is both C- and F-contiguous. *)
Definition c_contiguous_too (shape : list N) : bool :=
  existsb (N.eqb 0) shape
  || (length (List.filter (fun d => negb (d =? 1)%N) shape) <=? 1).

Definition NPY_MAXDIMS : nat := 64.

(** What numpy can allocate: at most [NPY_MAXDIMS] axes, and the byte
    size over the non-empty axes fits a signed 64-bit [intp]. *)
Definition allocatable (d : dtype) (shape : list N) : bool :=
  (length shape <=? NPY_MAXDIMS)
  && (itemsize d * count (List.filter (fun n => negb (n =? 0)%N) shape)
      <? 2 ^ 63)%N.

Definition valid_header (d : dtype) (fo : bool) (shape : list N) : bool :=
  allocatable d shape && (negb fo || negb (c_contiguous_too shape)).

(** The arrays that exist at run time. *)
Definition wf_array (A : ndarray) : bool :=
  valid_header (arr_dtype A) (arr_fortran A) (arr_shape A)
  && (N.of_nat (length (arr_data A))
      =? itemsize (arr_dtype A) * count (arr_shape A))%N.

(** ** Writing *)

Definition MAGIC_PREFIX : bytes := x93 :: latin1 "NUMPY".
Definition MAGIC_LEN : nat := 8.
Definition ARRAY_ALIGN : nat := 64.
Definition GROWTH_AXIS_MAX_DIGITS : nat := 21.

Definition magic (major minor : byte) : bytes :=
  MAGIC_PREFIX ++ [major; minor].

(** [repr] of a [bool] and of a tuple of ints. *)
Definition repr_bool (b : bool) : bytes :=
  latin1 (if b then "True" else "False").

Fixpoint repr_items (l : list N) : bytes :=
  match l with
  | [] => []
  | n :: l' => latin1 ", " ++ repr_int n ++ repr_items l'
  end.

Definition repr_tuple (l : list N) : bytes :=
  match l with
  | [] => latin1 "()"
  | [n] => latin1 "(" ++ repr_int n ++ latin1 ",)"
  | n :: l' => latin1 "(" ++ repr_int n ++ repr_items l' ++ latin1 ")"
  end.

(** The dictionary literal of [_write_array_header], keys sorted. *)
Definition header_dict (d : dtype) (fo : bool) (shape : list N) : bytes :=
  latin1 "{'descr': '" ++ latin1 (dtype_str d)
  ++ latin1 "', 'fortran_order': " ++ repr_bool fo
  ++ latin1 ", 'shape': " ++ repr_tuple shape ++ latin1 ", }".

(** The spare room left for the growth axis. *)
Definition growth_padding (fo : bool) (shape : list N) : bytes :=
  match shape with
  | [] => []
  | n :: _ =>
      let axis := if fo then List.last shape n else n in
      replicate (GROWTH_AXIS_MAX_DIGITS - length (repr_int axis)) x20
  end.

(** [_wrap_header(header, version)]; [width] is the size of the length
    field, 2 bytes for version 1.0 and 4 for 2.0 and 3.0. *)
Definition _wrap_header (header : bytes) (major : byte) (width : nat)
  : res bytes :=
  let hlen := length header + 1 in
  let padlen := ARRAY_ALIGN - ((MAGIC_LEN + width + hlen) mod ARRAY_ALIGN) in
  if (N.of_nat (hlen + padlen) <? 2 ^ (8 * N.of_nat width))%N then
    Ret (magic major x00 ++ pack_le width (N.of_nat (hlen + padlen))
           ++ header ++ replicate padlen x20 ++ [x0a])
  else Raise ValueError.

Definition _wrap_header_guess_version (header : bytes) : res bytes :=
  match _wrap_header header x01 2 with
  | Ret h => Ret h
  | Raise _ =>
      match _wrap_header header x02 4 with
      | Ret h => Ret h
      | Raise _ => _wrap_header header x03 4
      end
  end.

(** The bytes [_write_array_header] writes. *)
Definition array_header (d : dtype) (fo : bool) (shape : list N)
  : res bytes :=
  _wrap_header_guess_version (header_dict d fo shape ++ growth_padding fo shape).

(** [np.save(f, A)]: the header, then the raw elements. *)
Definition np_save (f : BytesIO) (A : ndarray) : res BytesIO :=
  res_bind (array_header (arr_dtype A) (arr_fortran A) (arr_shape A))
    (fun h => Ret (bio_write (bio_write f h) (arr_data A))).

(** ** Reading *)

(** Consume a literal. *)
Definition expect (p z : bytes) : option bytes :=
  if startswith z p then Some (drop (length p) z) else None.

(** The characters up to the next single quote, and what follows it. *)
Fixpoint until_quote (z : bytes) : option (bytes * bytes) :=
  match z with
  | [] => None
  | c :: z' =>
      if Byte.eqb c x27 then Some ([], z')
      else match until_quote z' with
           | Some (a, r) => Some (c :: a, r)
           | None => None
           end
  end.

Definition parse_bool (z : bytes) : option (bool * bytes) :=
  match expect (latin1 "True") z with
  | Some r => Some (true, r)
  | None =>
      match expect (latin1 "False") z with
      | Some r => Some (false, r)
      | None => None
      end
  end.

(** The ints of a tuple display, after its opening parenthesis. *)
Fixpoint parse_items (cur : option N) (acc : list N) (z : bytes)
  : option (list N * bytes) :=
  match z with
  | [] => None
  | c :: z' =>
      match digit_val c with
      | Some v => parse_items (Some (10 * default 0 cur + v)%N) acc z'
      | None =>
          let acc' := match cur with Some n => n :: acc | None => acc end in
          if Byte.eqb c x29 then Some (rev acc', z')
          else if Byte.eqb c x2c || Byte.eqb c x20
               then parse_items None acc' z'
               else None
      end
  end.

Definition parse_tuple (z : bytes) : option (list N * bytes) :=
  match z with
  | x28 :: z' => parse_items None [] z'
  | _ => None
  end.

(** The three entries of a version 1.0 header, read at the places
    where [_write_array_header] puts them. *)
Definition read_entries (buf : bytes) : option (dtype * bool * list N) :=
  z ← expect (magic x01 x00) buf;
  z ← expect (latin1 "{'descr': '") (drop 2 z);
  '(s, z) ← until_quote z;
  d ← descr_to_dtype s;
  z ← expect (latin1 ", 'fortran_order': ") z;
  '(fo, z) ← parse_bool z;
  z ← expect (latin1 ", 'shape': ") z;
  '(shape, _) ← parse_tuple z;
  Some (d, fo, shape).

(** [np.load] on a buffer that starts with a header exactly as numpy
    writes it for an array it can hold: the array made of the bytes
    that follow.  numpy allocates the announced array before it reads
    the elements ([numpy.ndarray(count, dtype)] in [read_array]), so
    when fewer bytes than [count * itemsize] follow the outcome depends
    on the machine: [MemoryError] where [room] says there is no room for
    that many bytes, and the [ValueError] of the short read where there
    is.  An array whose elements are all in the buffer is taken to fit:
    memory for the data the scripts hold is assumed throughout.  [None]
    on every other buffer: those are left to the rest of numpy. *)
Definition load_written (room : N -> bool) (buf : bytes)
  : option (res ndarray) :=
  '(d, fo, shape) ← read_entries buf;
  if valid_header d fo shape then
    match array_header d fo shape with
    | Ret h =>
        if startswith buf h then
          let need := (itemsize d * count shape)%N in
          let body := drop (length h) buf in
          if (N.of_nat (length body) <? need)%N then
            Some (Raise (if room need then ValueError else MemoryError))
          else Some (Ret (mk_ndarray d fo shape (take (N.to_nat need) body)))
        else None
    | Raise _ => None
    end
  else None.

End Npy.
Export Npy.

(* ===================================================================== *)
(** * IEEE binary64 *)
(* ===================================================================== *)

(** The element type of every array the drivers build.  Values are
    [spec_float]s at precision 53; the operations are the correctly
    rounded ones of the standard library. *)
Module F8.

Definition prec : Z := 53.
Definition emax : Z := 1024.

(** The value of a 64-bit pattern. *)
Definition of_bits (x : N) : spec_float :=
  let s := N.testbit x 63 in
  let e := ((x / 2 ^ 52) mod 2048)%N in
  let m := (x mod 2 ^ 52)%N in
  if (e =? 0)%N then
    match m with
    | N0 => S754_zero s
    | Npos p => S754_finite s p (-1074)
    end
  else if (e =? 2047)%N then
    if (m =? 0)%N then S754_infinity s else S754_nan
  else
    match (2 ^ 52 + m)%N with
    | N0 => S754_nan
    | Npos p => S754_finite s p (Z.of_N e - 1075)
    end.

(** The pattern of a value that is not a NaN. *)
Definition to_bits (x : spec_float) : N :=
  let sign (s : bool) : N := (if s then 2 ^ 63 else 0)%N in
  match x with
  | S754_zero s => sign s
  | S754_infinity s => sign s + 2047 * 2 ^ 52
  | S754_nan => 2047 * 2 ^ 52 + 2 ^ 51
  | S754_finite s m e =>
      if (Npos m <? 2 ^ 52)%N then sign s + Npos m
      else sign s + Z.to_N (e + 1075) * 2 ^ 52 + (Npos m - 2 ^ 52)
  end%N.

Definition is_nan (x : spec_float) : bool :=
  match x with S754_nan => true | _ => false end.

Definition isfinite (x : spec_float) : bool :=
  match x with S754_zero _ | S754_finite _ _ _ => true | _ => false end.

(** [float(z)] for a Python [int]. *)
Definition of_int (z : Z) : spec_float := binary_normalize prec emax z 0 false.

Definition sub : spec_float -> spec_float -> spec_float := SFsub prec emax.
Definition add : spec_float -> spec_float -> spec_float := SFadd prec emax.
Definition mul : spec_float -> spec_float -> spec_float := SFmul prec emax.

Definition zero : spec_float := S754_zero false.
Definition one : spec_float := of_bits 0x3ff0000000000000.

(** The default tolerances of [np.isclose]: the doubles nearest to
    [1e-05] and [1e-08]. *)
Definition rtol : spec_float := of_bits 0x3ee4f8b588e368f1.
Definition atol : spec_float := of_bits 0x3e45798ee2308c3a.

(** One element of [np.isclose(x, y)]:
    [abs(x - y) <= atol + rtol * abs(y)] for a finite [y], or [x == y]. *)
Definition isclose (x y : spec_float) : bool :=
  (SFleb (SFabs (sub x y)) (add atol (mul rtol (SFabs y))) && isfinite y)
  || SFeqb x y.

(** Little-endian storage of the elements. *)
Definition to_bytes (x : spec_float) : bytes := pack_le 8 (to_bits x).

Fixpoint elements (data : bytes) : list spec_float :=
  match data with
  | b0 :: b1 :: b2 :: b3 :: b4 :: b5 :: b6 :: b7 :: rest =>
      of_bits (unpack_le [b0; b1; b2; b3; b4; b5; b6; b7]) :: elements rest
  | _ => []
  end.

(** A C-contiguous little-endian float64 array of the given elements. *)
Definition array (shape : list N) (xs : list spec_float) : ndarray :=
  mk_ndarray (float64 little) false shape (concat (map to_bytes xs)).

End F8.

(* ===================================================================== *)
(** * numpy *)
(* ===================================================================== *)

Module Numpy.

(** The Python values the scripts pass to and get from numpy: arrays,
    [int] and [float] literals, and any other object ([Obj]), such as the
    lazy archive [np.load] returns for a zip file. *)
Inductive pyval (Obj : Type) :=
| PyArr (A : ndarray)
| PyInt (z : Z)
| PyFloat (x : spec_float)
| PyObj (o : Obj).
Arguments PyArr {Obj} A.
Arguments PyInt {Obj} z.
Arguments PyFloat {Obj} x.
Arguments PyObj {Obj} o.

(** The rest of numpy.  The functions below compute what numpy does on
    the fragment the scripts exercise themselves (arrays written by
    [np.save], C-contiguous little-endian float64 arithmetic); what
    numpy does outside that fragment (other dtypes, broadcasting,
    pickles, archives, hand-written headers, NaN payloads) is left
    open: every property holds for each way of filling it in.  So is the
    memory of the machine: [allocates n] says whether an array of [n]
    bytes that a header announces can be allocated. *)
Class Rest (Obj : Type) := {
  allocates : N -> bool;
  save_other : pyval Obj -> res bytes;
  load_other : bytes -> res (pyval Obj);
  subtract_other : pyval Obj -> pyval Obj -> res (pyval Obj);
  allclose_other : pyval Obj -> pyval Obj -> res bool;
  shape_eq_other : Obj -> list N -> res bool
}.

Section WithRest.
Context {Obj : Type} {numpy : Rest Obj}.

(** [np.save(f, A)] *)
Definition save (f : BytesIO) (A : pyval Obj) : res BytesIO :=
  match A with
  | PyArr a => Npy.np_save f a
  | _ => res_bind (save_other A) (fun z => Ret (bio_write f z))
  end.

(** [np.load(f)]: reads from the stream position; an exhausted
    stream is an [EOFError]. *)
Definition load (f : BytesIO) : res (pyval Obj) :=
  match drop (bio_pos f) (bio_buf f) with
  | [] => Raise EOFError
  | z =>
      match load_written allocates z with
      | Some r => res_bind r (fun a => Ret (PyArr a))
      | None => load_other z
      end
  end.

(** [np.eye(n)] and [np.ones(shape)], float64. *)
Definition eye (n : nat) : ndarray :=
  F8.array [N.of_nat n; N.of_nat n]
    (flat_map (fun i => map (fun j => if Nat.eqb i j then F8.one else F8.zero)
                          (seq 0 n)) (seq 0 n)).

Definition ones (shape : list N) : ndarray :=
  F8.array shape (replicate (N.to_nat (count shape)) F8.one).

(** The operands of the modelled arithmetic: a float scalar, or the
    elements of a float64 array of one axis or more. *)
Inductive operand :=
| Scalar (x : spec_float)
| Grid (shape : list N) (xs : list spec_float).

Definition shape_eqb (s t : list N) : bool :=
  if decide (s = t) then true else false.

Definition view (v : pyval Obj) : option operand :=
  match v with
  | PyArr a =>
      match arr_dtype a, arr_fortran a, arr_shape a with
      | float64 little, false, _ :: _ =>
          if wf_array a then Some (Grid (arr_shape a) (F8.elements (arr_data a)))
          else None
      | _, _, _ => None
      end
  | PyInt z => if (Z.abs z <=? 2 ^ 53)%Z then Some (Scalar (F8.of_int z)) else None
  | PyFloat x => Some (Scalar x)
  | PyObj _ => None
  end.

(** A binary ufunc on equal shapes or against a scalar. *)
Definition elementwise {B} (f : spec_float -> spec_float -> B)
    (a b : option operand) : option (list N * list B) :=
  match a, b with
  | Some (Grid s xs), Some (Grid t ys) =>
      if shape_eqb s t then Some (s, zip_with f xs ys) else None
  | Some (Grid s xs), Some (Scalar y) => Some (s, map (fun x => f x y) xs)
  | Some (Scalar x), Some (Grid t ys) => Some (t, map (f x) ys)
  | _, _ => None
  end.

(** [a - b] *)
Definition subtract (a b : pyval Obj) : res (pyval Obj) :=
  match elementwise F8.sub (view a) (view b) with
  | Some (s, zs) =>
      if existsb F8.is_nan zs then subtract_other a b
      else Ret (PyArr (F8.array s zs))
  | None => subtract_other a b
  end.

(** [np.allclose(a, b)] *)
Definition allclose (a b : pyval Obj) : res bool :=
  match elementwise F8.isclose (view a) (view b) with
  | Some (_, cs) => Ret (forallb id cs)
  | None => allclose_other a b
  end.

(** [y.shape == t] for a tuple [t] of ints. *)
Definition shape_eq (y : pyval Obj) (t : list N) : res bool :=
  match y with
  | PyArr a => Ret (shape_eqb (arr_shape a) t)
  | PyInt _ | PyFloat _ => Raise AttributeError
  | PyObj o => shape_eq_other o t
  end.

End WithRest.

End Numpy.

Export Numpy.

(* ===================================================================== *)
(** * Sockets and the world around the scripts *)
(* ===================================================================== *)

Module Net.

(** An [AF_INET] address: host and port. *)
Definition address : Type := string * Z.

(** What the network hands to a socket that waits for input: a
    non-empty segment of the stream, the end of the stream (the peer
    closed or shut down its side), a failure, or nothing, ever. *)
Inductive arrival :=
| Data (b : byte) (bs : bytes)
| Eof
| Reset (e : exn)
| Silence.

(** What becomes of a blocking [sendall]. *)
Inductive delivery :=
| Delivered
| Failed (e : exn)
| Stalled.

(** The remote end of one connection: whether it accepts, how it takes
    a buffer, and the segments it sends, which may depend on everything
    it has received. *)
Record Peer := mkPeer {
  peer_connect : option exn;
  peer_sendall : bytes -> delivery;
  peer_arrival : bytes -> nat -> arrival
}.

(** The socket object's state: the peer once connected, the bytes sent
    so far, the bytes received by the kernel and not yet read, and the
    number of segments received. *)
Record Sock := mkSock {
  sk_peer : option Peer;
  sk_sent : bytes;
  sk_pending : bytes;
  sk_arrived : nat
}.

(** What the scripts do to the outside, in order. *)
Inductive event :=
| EvSocket (s : nat)
| EvConnect (s : nat) (a : address)
| EvSendall (s : nat) (z : bytes)
| EvRecv (s : nat) (bufsize : nat) (z : bytes)
| EvClose (s : nat).

(** The world: what the environment will do (whether the [k]-th socket
    can be created, who answers it at an address, the normal deviates
    the generator will draw) and the state so far. *)
Record World := mkWorld {
  env_socket : nat -> option exn;
  env_peer : nat -> address -> Peer;
  env_randn : nat -> N;
  w_drawn : nat;
  w_next : nat;
  w_socks : gmap nat Sock;
  w_trace : list event
}.

Definition set_socks (w : World) (m : gmap nat Sock) : World :=
  mkWorld (env_socket w) (env_peer w) (env_randn w) (w_drawn w) (w_next w)
          m (w_trace w).

Definition log (w : World) (e : event) : World :=
  mkWorld (env_socket w) (env_peer w) (env_randn w) (w_drawn w) (w_next w)
          (w_socks w) (w_trace w ++ [e]).

(** Computations: they read and change the world and end with a value
    or an exception, or do not come back ([None]). *)
Definition M (A : Type) : Type := World -> option (res A * World).

Definition ret {A} (a : A) : M A := fun w => Some (Ret a, w).
Definition raise {A} (e : exn) : M A := fun w => Some (Raise e, w).
Definition hang {A} : M A := fun _ => None.

Definition bind {A B} (m : M A) (k : A -> M B) : M B := fun w =>
  match m w with
  | None => None
  | Some (Ret a, w') => k a w'
  | Some (Raise e, w') => Some (Raise e, w')
  end.

(** An expression without effects. *)
Definition pure {A} (r : res A) : M A := fun w => Some (r, w).

(** [try: body finally: cleanup]; the clean-up runs on a value and on
    an exception alike. *)
Definition finally {A} (body : M A) (cleanup : M unit) : M A := fun w =>
  match body w with
  | None => None
  | Some (r, w') =>
      match cleanup w' with
      | None => None
      | Some (Ret _, w'') => Some (r, w'')
      | Some (Raise e, w'') => Some (Raise e, w'')
      end
  end.

(** [assert c] *)
Definition assert (c : bool) : M unit :=
  if c then ret tt else raise AssertionError.

Definition EBADF : Z := 9.
Definition EPIPE : Z := 32.
Definition EISCONN : Z := 106.
Definition ENOTCONN : Z := 107.

(** [socket.socket(socket.AF_INET, socket.SOCK_STREAM)] *)
Definition socket_socket : M nat := fun w =>
  let s := w_next w in
  let w1 := mkWorld (env_socket w) (env_peer w) (env_randn w) (w_drawn w)
                    (S s) (w_socks w) (w_trace w) in
  match env_socket w s with
  | Some e => Some (Raise e, w1)
  | None =>
      Some (Ret s, log (set_socks w1 (<[s := mkSock None [] [] 0]> (w_socks w1)))
                       (EvSocket s))
  end.

(** [s.connect(addr)] *)
Definition connect (s : nat) (addr : address) : M unit := fun w =>
  match w_socks w !! s with
  | None => Some (Raise (OSError EBADF), w)
  | Some sk =>
      match sk_peer sk with
      | Some _ => Some (Raise (OSError EISCONN), w)
      | None =>
          let w1 := log w (EvConnect s addr) in
          let p := env_peer w s addr in
          match peer_connect p with
          | Some e => Some (Raise e, w1)
          | None =>
              Some (Ret tt,
                    set_socks w1 (<[s := mkSock (Some p) (sk_sent sk)
                                          (sk_pending sk) (sk_arrived sk)]>
                                    (w_socks w1)))
          end
      end
  end.

(** [s.sendall(z)]: returns once the whole buffer is handed over. *)
Definition sendall (s : nat) (z : bytes) : M unit := fun w =>
  match w_socks w !! s with
  | None => Some (Raise (OSError EBADF), w)
  | Some sk =>
      match sk_peer sk with
      | None => Some (Raise (OSError EPIPE), w)
      | Some p =>
          let w1 := log w (EvSendall s z) in
          match peer_sendall p z with
          | Failed e => Some (Raise e, w1)
          | Stalled => None
          | Delivered =>
              Some (Ret tt,
                    set_socks w1 (<[s := mkSock (Some p) (sk_sent sk ++ z)
                                          (sk_pending sk) (sk_arrived sk)]>
                                    (w_socks w1)))
          end
      end
  end.

(** [s.recv(bufsize)]: blocks until something has arrived, then returns
    at most [bufsize] bytes of it and leaves the remainder for the next
    call; returns [b''] at the end of the stream. *)
Definition recv (s : nat) (bufsize : nat) : M bytes := fun w =>
  match w_socks w !! s with
  | None => Some (Raise (OSError EBADF), w)
  | Some sk =>
      match sk_peer sk with
      | None => Some (Raise (OSError ENOTCONN), w)
      | Some p =>
          let deliver (avail : bytes) (arrived : nat) :=
            let z := take bufsize avail in
            Some (Ret z,
                  log (set_socks w (<[s := mkSock (Some p) (sk_sent sk)
                                             (drop bufsize avail) arrived]>
                                      (w_socks w)))
                      (EvRecv s bufsize z)) in
          match sk_pending sk with
          | _ :: _ => deliver (sk_pending sk) (sk_arrived sk)
          | [] =>
              match peer_arrival p (sk_sent sk) (sk_arrived sk) with
              | Data b bs => deliver (b :: bs) (S (sk_arrived sk))
              | Eof => Some (Ret [], log w (EvRecv s bufsize []))
              | Reset e => Some (Raise e, w)
              | Silence => None
              end
          end
      end
  end.

(** [s.close()], as [socket.__exit__] calls it: nothing on a socket
    that is closed already. *)
Definition close (s : nat) : M unit := fun w =>
  match w_socks w !! s with
  | None => Some (Ret tt, w)
  | Some _ => Some (Ret tt, log (set_socks w (delete s (w_socks w))) (EvClose s))
  end.

(** [with socket.socket(...) as s: body] *)
Definition with_socket {A} (body : nat -> M A) : M A :=
  bind socket_socket (fun s => finally (body s) (close s)).

(** [np.random.randn(d0, d1, ...)]: a float64 array of the next
    [d0 * d1 * ...] deviates of the generator. *)
Definition randn (shape : list N) : M ndarray := fun w =>
  let n := N.to_nat (count shape) in
  let xs := map (fun k => pack_le 8 (env_randn w k)) (seq (w_drawn w) n) in
  Some (Ret (mk_ndarray (float64 little) false shape (concat xs)),
        mkWorld (env_socket w) (env_peer w) (env_randn w) (w_drawn w + n)
                (w_next w) (w_socks w) (w_trace w)).

End Net.
Export Net.

Declare Scope py_scope.
Delimit Scope py_scope with py.
Notation "x <- m ;; k" := (Net.bind m (fun x => k))
  (at level 100, m at next level, right associativity) : py_scope.
Notation "m ;; k" := (Net.bind m (fun _ => k))
  (at level 100, right associativity) : py_scope.

(* ===================================================================== *)
(** * src/test.py *)
(* ===================================================================== *)

Module TestPy.
Section Script.
Context {Obj : Type} {numpy : Rest Obj}.
#[local] Open Scope py_scope.

(** [def send_array(s, A)], lines 6-11. *)
Definition send_array (s : nat) (A : pyval Obj) : M unit :=
  let f := BytesIO_new in
  f <- pure (save f A) ;;
  let f := bio_seek f 0 in
  sendall s (fst (bio_read f)).

(** The [while True] loop of [recv_array], lines 17-21; [fuel] bounds
    the number of iterations. *)
Fixpoint recv_loop (fuel : nat) (s : nat) (f : BytesIO) : M BytesIO :=
  match fuel with
  | O => hang
  | S fuel' =>
      z <- recv s 1024 ;;
      if bytes_not z then ret f
      else recv_loop fuel' s (bio_write f z)
  end.

(** [def recv_array(s)], lines 14-24. *)
Definition recv_array (fuel : nat) (s : nat) : M (pyval Obj) :=
  let f := BytesIO_new in
  f <- recv_loop fuel s f ;;
  let f := bio_seek f 0 in
  x <- pure (load f) ;;
  ret x.

(** [def exchange(addr, A)], lines 27-32. *)
Definition exchange (fuel : nat) (addr : address) (A : pyval Obj)
  : M (pyval Obj) :=
  result <- with_socket (fun s =>
    connect s addr ;;
    send_array s A ;;
    result <- recv_array fuel s ;;
    ret result) ;;
  ret result.

(** [def main()], lines 35-49. *)
Definition main (fuel : nat) : M unit :=
  let address : address := ("127.0.0.1"%string, 8080%Z) in
  let x := PyArr (eye 2) in
  y <- exchange fuel address x ;;
  d <- pure (subtract y x) ;;
  c <- pure (allclose d (PyArr (ones [2; 2]%N))) ;;
  assert c ;;
  z <- pure (subtract (PyInt 1) (PyArr (eye 2))) ;;
  w <- exchange fuel address z ;;
  d <- pure (subtract w z) ;;
  c <- pure (allclose d (PyArr (ones [2; 2]%N))) ;;
  assert c ;;
  z <- randn [2; 2]%N ;;
  let z := PyArr z in
  w <- exchange fuel address z ;;
  d <- pure (subtract w z) ;;
  c <- pure (allclose d (PyArr (ones [2; 2]%N))) ;;
  assert c.

End Script.
End TestPy.

(* ===================================================================== *)
(** * src/examples/client.py *)
(* ===================================================================== *)

Module ClientPy.
Section Script.
Context {Obj : Type} {numpy : Rest Obj}.
#[local] Open Scope py_scope.

(** [def send_array(s, A)], lines 7-12. *)
Definition send_array (s : nat) (A : pyval Obj) : M unit :=
  let f := BytesIO_new in
  f <- pure (save f A) ;;
  let f := bio_seek f 0 in
  sendall s (fst (bio_read f)).

(** The [while True] loop of [recv_array], lines 18-22. *)
Fixpoint recv_loop (fuel : nat) (s : nat) (f : BytesIO) : M BytesIO :=
  match fuel with
  | O => hang
  | S fuel' =>
      z <- recv s 1024 ;;
      if bytes_not z then ret f
      else recv_loop fuel' s (bio_write f z)
  end.

(** [def recv_array(s)], lines 15-25. *)
Definition recv_array (fuel : nat) (s : nat) : M (pyval Obj) :=
  let f := BytesIO_new in
  f <- recv_loop fuel s f ;;
  let f := bio_seek f 0 in
  x <- pure (load f) ;;
  ret x.

(** [def exchange(addr, A)], lines 28-33. *)
Definition exchange (fuel : nat) (addr : address) (A : pyval Obj)
  : M (pyval Obj) :=
  result <- with_socket (fun s =>
    connect s addr ;;
    send_array s A ;;
    result <- recv_array fuel s ;;
    ret result) ;;
  ret result.

(** [def main()], lines 36-43. *)
Definition main (fuel : nat) : M unit :=
  let address : address := ("127.0.0.1"%string, 8080%Z) in
  x <- randn [1; 32]%N ;;
  let x := PyArr x in
  y <- exchange fuel address x ;;
  c <- pure (shape_eq y [1; 10]%N) ;;
  assert c ;;
  c <- pure (allclose y (PyFloat F8.zero)) ;;
  assert c.

End Script.
End ClientPy.

(* ===================================================================== *)
(** * Vocabulary of the specification *)
(* ===================================================================== *)

(** ** Traces and worlds *)

(** The events between two worlds of one run. *)
Definition since (w w' : World) : list event :=
  drop (length (w_trace w)) (w_trace w').

(** The chunks [recv] returned on socket [s] in a piece of trace. *)
Fixpoint received (s : nat) (t : list event) : list bytes :=
  match t with
  | [] => []
  | EvRecv s' _ z :: t' =>
      if Nat.eqb s s' then z :: received s t' else received s t'
  | _ :: t' => received s t'
  end.

(** An event that uses socket [s]: a connect, a send or a receive. *)
Definition uses (s : nat) (ev : event) : bool :=
  match ev with
  | EvConnect s' _ | EvSendall s' _ | EvRecv s' _ _ => Nat.eqb s s'
  | EvSocket _ | EvClose _ => false
  end.

(** The world after socket [s] moved to state [sk] and the events [evs]
    happened. *)
Definition upd (w : World) (s : nat) (sk : Sock) (evs : list event) : World :=
  mkWorld (env_socket w) (env_peer w) (env_randn w) (w_drawn w) (w_next w)
          (<[s := sk]> (w_socks w)) (w_trace w ++ evs).

(** The world after a socket could not be created: only the count of
    attempts moved. *)
Definition refused (w : World) : World :=
  mkWorld (env_socket w) (env_peer w) (env_randn w) (w_drawn w)
          (S (w_next w)) (w_socks w) (w_trace w).

(** The world after one [with] block on a new socket: the socket was
    created, [evs] happened on it, and it was closed. *)
Definition finish (w : World) (evs : list event) : World :=
  mkWorld (env_socket w) (env_peer w) (env_randn w) (w_drawn w)
          (S (w_next w)) (delete (w_next w) (w_socks w))
          (w_trace w ++ EvSocket (w_next w) :: evs ++ [EvClose (w_next w)]).

(** ** Streams *)

(** The payload of an arrival, and of [n] arrivals from the [k]-th on. *)
Definition payload (a : arrival) : bytes :=
  match a with
  | Data b bs => b :: bs
  | _ => []
  end.

Definition is_data (a : arrival) : bool :=
  match a with
  | Data _ _ => true
  | _ => false
  end.

Fixpoint stream (arrives : nat -> arrival) (k n : nat) : bytes :=
  match n with
  | O => []
  | S n' => payload (arrives k) ++ stream arrives (S k) n'
  end.

(** The peer sends [n] more segments and then closes the stream. *)
Definition closes_after (arrives : nat -> arrival) (k n : nat) : Prop :=
  (forall i, i < n -> is_data (arrives (k + i)) = true)
  /\ arrives (k + n) = Eof.

(** The stream comes to an end: after finitely many segments the peer
    closes it or the connection fails. *)
Definition stream_ends (arrives : nat -> arrival) : Prop :=
  exists n,
    (forall i, i < n -> is_data (arrives i) = true)
    /\ (arrives n = Eof \/ exists e, arrives n = Reset e).

(** A peer that accepts, takes every request and sends it back. *)
Definition echoes (p : Peer) : Prop :=
  peer_connect p = None
  /\ forall sent,
       peer_sendall p sent = Delivered
       /\ exists n, closes_after (peer_arrival p sent) 0 n
                    /\ stream (peer_arrival p sent) 0 n = sent.

(** What a loop of [recv(bufsize)] calls reads from a connection whose
    peer is [p], to which [sent] went out, with [pend] waiting and [k]
    segments taken: the non-empty chunks in order, how the loop ends
    ([None]: a [recv] returned [b'']; [Some e]: a [recv] raised [e]), and
    the connection's state then.  [None] when [fuel] calls do not reach
    the end. *)
Fixpoint drain (bufsize fuel : nat) (p : Peer) (sent pend : bytes) (k : nat)
  : option (list bytes * option exn * bytes * nat) :=
  match fuel with
  | O => None
  | S fuel' =>
      let more (avail : bytes) (k' : nat) :=
        match drain bufsize fuel' p sent (drop bufsize avail) k' with
        | Some (chunks, e, pend', k'') =>
            Some (take bufsize avail :: chunks, e, pend', k'')
        | None => None
        end in
      match pend with
      | _ :: _ => more pend k
      | [] =>
          match peer_arrival p sent k with
          | Data b bs => more (b :: bs) (S k)
          | Eof => Some ([], None, [], k)
          | Reset e => Some ([], Some e, [], k)
          | Silence => None
          end
      end
  end.

(** The trace of [n] connections, one after the other: each is the
    creation of a socket, uses of that socket, and its closing, before
    the next one is created. *)
Inductive sessions : nat -> list event -> Prop :=
| sessions_nil : sessions 0 []
| sessions_cons s evs n t :
    Forall (fun ev => uses s ev = true) evs ->
    sessions n t ->
    sessions (S n) (EvSocket s :: evs ++ EvClose s :: t).

(** From [w] to [w'], [n] connections were made one after the other and
    [d] random deviates were drawn; no socket was left open. *)
Definition after_sessions (n d : nat) (w w' : World) : Prop :=
  (exists t, w_trace w' = w_trace w ++ t /\ sessions n t)
  /\ (forall s sk, w_socks w' !! s = Some sk -> w_socks w !! s = Some sk)
  /\ w_drawn w' = w_drawn w + d.

(** ** Decimal digits *)

Definition is_digit (c : byte) : Prop := is_Some (digit_val c).

(** The value read from a run of digits, continuing from [cur]. *)
Fixpoint eat (cur : option N) (ds : bytes) : option N :=
  match ds with
  | [] => cur
  | c :: ds' =>
      match digit_val c with
      | Some v => eat (Some (10 * default 0 cur + v)%N) ds'
      | None => cur
      end
  end.

(** ** The drivers *)

(** The address both drivers use. *)
Definition loopback : address := ("127.0.0.1"%string, 8080%Z).

(** The array [np.random.randn] returns in world [w], and the world
    after the draw. *)
Definition drawn (shape : list N) (w : World) : ndarray :=
  mk_ndarray (float64 little) false shape
    (concat (map (fun k => pack_le 8 (env_randn w k))
                 (seq (w_drawn w) (N.to_nat (count shape))))).

Definition after_draw (shape : list N) (w : World) : World :=
  mkWorld (env_socket w) (env_peer w) (env_randn w)
          (w_drawn w + N.to_nat (count shape)) (w_next w) (w_socks w) (w_trace w).

(** The complement of the identity matrix. *)
Definition coeye2 : ndarray :=
  F8.array [2; 2]%N [F8.zero; F8.one; F8.one; F8.zero].

(** What an [assert c] makes of the outcome of evaluating [c]. *)
Definition asserted (c : res bool) : res unit :=
  match c with
  | Ret true => Ret tt
  | Ret false => Raise AssertionError
  | Raise e => Raise e
  end.

Section DriverTerms.
Context {Obj : Type} {numpy : Rest Obj}.

(** [np.allclose(w - z, np.ones((2, 2)))], the condition [src/test.py]
    asserts of a response [w] to an input [z]. *)
Definition plus_ones (w z : pyval Obj) : res bool :=
  res_bind (subtract w z) (fun d => allclose d (PyArr (ones [2; 2]%N))).

(** [y.shape == (1, 10)] and then [np.allclose(y, 0.)], the conditions
    [src/examples/client.py] asserts one after the other. *)
Definition row_of_zeros (y : pyval Obj) : res unit :=
  res_bind (asserted (shape_eq y [1; 10]%N))
           (fun _ => asserted (allclose y (PyFloat F8.zero))).

(** One exchange of [src/test.py] with the assertion that follows it. *)
Definition test_round (fuel : nat) (z : pyval Obj) : M unit := fun w =>
  match TestPy.exchange fuel loopback z w with
  | None => None
  | Some (Raise e, w1) => Some (Raise e, w1)
  | Some (Ret y, w1) => Some (asserted (plus_ones y z), w1)
  end.

End DriverTerms.

(** ** Worlds to run the scripts in *)

(** numpy cut down to the modelled fragment: whatever lies outside it
    raises. *)
#[global] Instance fragment_only : Rest Empty_set := {|
  allocates _ := true;
  save_other _ := Raise TypeError;
  load_other _ := Raise ValueError;
  subtract_other _ _ := Raise TypeError;
  allclose_other _ _ := Raise TypeError;
  shape_eq_other _ _ := Raise AttributeError
|}.

(** The same fragment on a machine that has no room for an array a
    header announces. *)
Definition cramped : Rest Empty_set := {|
  allocates _ := false;
  save_other _ := Raise TypeError;
  load_other _ := Raise ValueError;
  subtract_other _ _ := Raise TypeError;
  allclose_other _ _ := Raise TypeError;
  shape_eq_other _ _ := Raise AttributeError
|}.

(** The [k]-th segment of a reply sent [size] bytes at a time, and the
    end of the stream after the last one. *)
Definition segment (size : nat) (reply : bytes) (k : nat) : arrival :=
  match take size (drop (size * k) reply) with
  | [] => Eof
  | b :: bs => Data b bs
  end.

(** A server that accepts, takes the request and answers [reply sent] in
    segments of [size] bytes. *)
Definition server (reply : bytes -> bytes) (size : nat) : Peer :=
  mkPeer None (fun _ => Delivered) (fun sent k => segment size (reply sent) k).

(** A server that sends one segment and then resets the connection. *)
Definition resetting (first : bytes) : Peer :=
  mkPeer None (fun _ => Delivered)
         (fun _ k => match k with
                     | O => segment (length first) first 0
                     | S _ => Reset (OSError 104)
                     end).

(** A server that sends the request back in one segment and closes. *)
Definition echo : Peer :=
  mkPeer None (fun _ => Delivered)
         (fun sent k => match k, sent with
                        | O, b :: bs => Data b bs
                        | _, _ => Eof
                        end).

(** A server that accepts and then never sends anything. *)
Definition silent : Peer :=
  mkPeer None (fun _ => Delivered) (fun _ _ => Silence).

(** A server that refuses the connection. *)
Definition refusing : Peer :=
  mkPeer (Some (OSError 111)) (fun _ => Delivered) (fun _ _ => Eof).

(** A fresh world whose every address is served by [p]. *)
Definition world_of (p : Peer) : World :=
  mkWorld (fun _ => None) (fun _ _ => p)
          (fun k => (0x3fb999999999999a + 0x10000000000000 * N.of_nat k)%N)
          0 0 ∅ [].

(** A world in which socket [0] is already connected to [p]. *)
Definition connected_to (p : Peer) : World :=
  mkWorld (fun _ => None) (fun _ _ => p) (fun _ => 0%N) 0 1
          {[ 0 := mkSock (Some p) [] [] 0 ]} [].

(** A world in which no socket can be created. *)
Definition world_without_sockets : World :=
  mkWorld (fun _ => Some (OSError 24)) (fun _ _ => silent) (fun _ => 0%N)
          0 0 ∅ [].

(** The [.npy] encoding of an array, [b''] if it has none. *)
Definition encoding (a : ndarray) : bytes :=
  match np_save BytesIO_new a with
  | Ret f => bio_buf f
  | Raise _ => []
  end.

(** The reply of a server that adds one to every element of a float64
    array. *)
Definition plus_one (sent : bytes) : bytes :=
  match load_written (fun _ => true) sent with
  | Some (Ret a) =>
      encoding (F8.array (arr_shape a)
                  (map (fun x => F8.add x F8.one) (F8.elements (arr_data a))))
  | _ => []
  end.

(** The reply of a server that answers a row of ten zeros. *)
Definition ten_zeros (sent : bytes) : bytes :=
  encoding (F8.array [1; 10]%N (replicate 10 F8.zero)).

(* ===================================================================== *)
(** * Facts about bytes, [repr] and [io.BytesIO] *)
(* ===================================================================== *)

Section BytesFacts.

Lemma byte_eqb_refl (c : byte) : Byte.eqb c c = true.
Proof. apply Byte.byte_dec_lb. reflexivity. Qed.

Lemma byte_eqb_eq (c d : byte) : Byte.eqb c d = true <-> c = d.
Proof.
  split; [apply Byte.byte_dec_bl | intros ->; apply byte_eqb_refl].
Qed.

Lemma startswith_app (p z : bytes) : startswith (p ++ z) p = true.
Proof.
  induction p as [|c p IH]; simpl; [reflexivity|].
  rewrite byte_eqb_refl. exact IH.
Qed.

Lemma bytes_eqb_refl (z : bytes) : bytes_eqb z z = true.
Proof.
  induction z as [|c z IH]; simpl; [reflexivity|].
  rewrite byte_eqb_refl. exact IH.
Qed.

Lemma bytes_not_nil (z : bytes) : bytes_not z = true <-> z = [].
Proof. destruct z; simpl; split; congruence. Qed.

(** Writing at the end of a buffer appends. *)
Lemma bio_write_end (b z : bytes) :
  bio_write (mkBytesIO b (length b)) z = mkBytesIO (b ++ z) (length (b ++ z)).
Proof.
  destruct z as [|c z]; [by rewrite app_nil_r|].
  unfold bio_write; cbn [bio_pos bio_buf].
  rewrite take_ge, Nat.sub_diag, drop_ge by lia.
  cbn [replicate app]. rewrite app_nil_r, length_app. reflexivity.
Qed.

Lemma bio_write_new (z : bytes) :
  bio_write BytesIO_new z = mkBytesIO z (length z).
Proof. apply (bio_write_end [] z). Qed.

(** ** Decimal digits *)

Lemma digit_val_digit_byte (d : N) :
  (d < 10)%N -> digit_val (digit_byte d) = Some d.
Proof.
  intros H.
  assert (Hd : In d [0; 1; 2; 3; 4; 5; 6; 7; 8; 9]%N).
  { simpl. lia. }
  simpl in Hd.
  repeat (destruct Hd as [<-|Hd]; [reflexivity|]). destruct Hd.
Qed.

Lemma eat_app (cur : option N) (xs ys : bytes) :
  Forall is_digit xs -> eat cur (xs ++ ys) = eat (eat cur xs) ys.
Proof.
  intros H. revert cur.
  induction H as [|c xs [v Hv] _ IH]; intros cur; simpl; [reflexivity|].
  rewrite Hv. apply IH.
Qed.

Lemma repr_digits_app (fuel : nat) (n : N) (acc : bytes) :
  repr_digits fuel n acc = repr_digits fuel n [] ++ acc.
Proof.
  revert n acc. induction fuel as [|fuel IH]; intros n acc; simpl.
  - reflexivity.
  - destruct (n <? 10)%N; [reflexivity|].
    rewrite (IH _ (_ :: acc)), (IH _ [_]), <- app_assoc. reflexivity.
Qed.

Lemma repr_digits_length (fuel : nat) (n : N) :
  length (repr_digits fuel n []) <= fuel.
Proof.
  revert n. induction fuel as [|fuel IH]; intros n; simpl; [lia|].
  destruct (n <? 10)%N; simpl; [lia|].
  rewrite repr_digits_app, length_app. specialize (IH (n / 10)%N).
  simpl. lia.
Qed.

Lemma repr_digits_spec (fuel : nat) (n : N) (cur : option N) :
  (n < 2 ^ N.of_nat fuel)%N -> 1 <= fuel -> default 0%N cur = 0%N ->
  Forall is_digit (repr_digits fuel n [])
  /\ eat cur (repr_digits fuel n []) = Some n.
Proof.
  revert n. induction fuel as [|fuel IH]; intros n Hn Hf Hc; [lia|].
  simpl. destruct (N.ltb_spec n 10) as [Hlt|Hge].
  - pose proof (digit_val_digit_byte (n mod 10)) as Hd.
    rewrite N.mod_small in Hd by lia. specialize (Hd Hlt).
    split.
    + constructor; [|constructor]. rewrite N.mod_small by lia.
      unfold is_digit. rewrite Hd. eauto.
    + simpl. rewrite N.mod_small by lia. rewrite Hd, Hc. reflexivity.
  - assert (Hdiv : (n / 10 < 2 ^ N.of_nat fuel)%N).
    { apply N.Div0.div_lt_upper_bound.
      rewrite Nat2N.inj_succ, N.pow_succ_r' in Hn. lia. }
    assert (Hq : (1 <= n / 10)%N).
    { apply N.div_le_lower_bound; lia. }
    assert (Hfuel : 1 <= fuel).
    { destruct fuel; [simpl in Hdiv; lia | lia]. }
    destruct (IH (n / 10)%N Hdiv Hfuel Hc) as [Hall Heat].
    pose proof (digit_val_digit_byte (n mod 10)) as Hd.
    specialize (Hd (N.mod_upper_bound n 10 ltac:(lia))).
    rewrite repr_digits_app. split.
    + apply Forall_app. split; [exact Hall|].
      constructor; [|constructor]. unfold is_digit. rewrite Hd. eauto.
    + rewrite eat_app by exact Hall. rewrite Heat. simpl. rewrite Hd.
      f_equal. simpl. pose proof (N.div_mod n 10). lia.
Qed.

Lemma repr_int_spec (n : N) :
  Forall is_digit (repr_int n) /\ eat None (repr_int n) = Some n.
Proof.
  unfold repr_int. apply repr_digits_spec; [|lia|reflexivity].
  rewrite Nat2N.inj_succ, N2Nat.id.
  destruct n as [|p]; [reflexivity|].
  apply N.log2_spec. lia.
Qed.

Lemma repr_int_length (n : N) :
  length (repr_int n) <= S (N.to_nat (N.log2 n)).
Proof. apply repr_digits_length. Qed.

(** ** Little-endian fields *)

Lemma byte_of_N_to_N (n : N) : Byte.to_N (byte_of_N n) = (n mod 256)%N.
Proof.
  unfold byte_of_N.
  destruct (Byte.of_N (n mod 256)) as [b|] eqn:E.
  - by apply Byte.to_of_N.
  - apply Byte.of_N_None_iff in E.
    pose proof (N.mod_upper_bound n 256). lia.
Qed.

Lemma unpack_pack_le (width : nat) (n : N) :
  (n < 2 ^ (8 * N.of_nat width))%N -> unpack_le (pack_le width n) = n.
Proof.
  revert n. induction width as [|width IH]; intros n Hn; simpl.
  - simpl in Hn. lia.
  - rewrite byte_of_N_to_N, IH.
    + pose proof (N.div_mod n 256). lia.
    + apply N.Div0.div_lt_upper_bound.
      replace (8 * N.of_nat (S width))%N with (8 + 8 * N.of_nat width)%N in Hn
        by lia.
      rewrite N.pow_add_r in Hn. exact Hn.
Qed.

Lemma pack_le_length (width : nat) (n : N) : length (pack_le width n) = width.
Proof. revert n. induction width; intros; simpl; auto. Qed.

End BytesFacts.

(* ===================================================================== *)
(** * The format reads back what it writes *)
(* ===================================================================== *)

Section FormatFacts.

Lemma expect_app (p z : bytes) : expect p (p ++ z) = Some z.
Proof.
  unfold expect. rewrite startswith_app, drop_app_length. reflexivity.
Qed.

Lemma descr_roundtrip (d : dtype) :
  descr_to_dtype (latin1 (dtype_str d)) = Some d.
Proof. destruct d as [| | |[]|[]|[]|[]|[]|[]|[]|[]|[]|[]|[]|[]|[]]; reflexivity. Qed.

Lemma until_quote_descr (d : dtype) (z : bytes) :
  until_quote (latin1 (dtype_str d) ++ x27 :: z) = Some (latin1 (dtype_str d), z).
Proof. destruct d as [| | |[]|[]|[]|[]|[]|[]|[]|[]|[]|[]|[]|[]|[]]; reflexivity. Qed.

Lemma parse_bool_repr (b : bool) (z : bytes) :
  parse_bool (repr_bool b ++ z) = Some (b, z).
Proof. destruct b; reflexivity. Qed.

Lemma parse_items_digits (cur : option N) (acc : list N) (ds z : bytes) :
  Forall is_digit ds ->
  parse_items cur acc (ds ++ z) = parse_items (eat cur ds) acc z.
Proof.
  intros H. revert cur.
  induction H as [|c ds [v Hv] _ IH]; intros cur; simpl; [reflexivity|].
  rewrite Hv. apply IH.
Qed.

Lemma parse_items_int (acc : list N) (n : N) (z : bytes) :
  parse_items None acc (repr_int n ++ z) = parse_items (Some n) acc z.
Proof.
  destruct (repr_int_spec n) as [Hall Heat].
  rewrite parse_items_digits by exact Hall. rewrite Heat. reflexivity.
Qed.

Lemma parse_items_comma (n : N) (acc : list N) (z : bytes) :
  parse_items (Some n) acc (latin1 ", " ++ z) = parse_items None (n :: acc) z.
Proof. reflexivity. Qed.

Lemma parse_items_repr (n : N) (acc l : list N) (z : bytes) :
  parse_items (Some n) acc (repr_items l ++ x29 :: z)
  = Some (rev acc ++ n :: l, z).
Proof.
  revert n acc. induction l as [|m l IH]; intros n acc.
  - reflexivity.
  - cbn [repr_items]. rewrite <- !app_assoc.
    rewrite parse_items_comma, parse_items_int, IH.
    cbn [rev]. rewrite <- app_assoc. reflexivity.
Qed.

Lemma parse_tuple_repr (l : list N) (z : bytes) :
  parse_tuple (repr_tuple l ++ z) = Some (l, z).
Proof.
  destruct l as [|n [|m l]].
  - reflexivity.
  - cbn [repr_tuple]. rewrite <- !app_assoc.
    change (latin1 "(" ++ ?t) with (x28 :: t). cbn [parse_tuple].
    rewrite parse_items_int. reflexivity.
  - cbn [repr_tuple]. rewrite <- !app_assoc.
    change (latin1 "(" ++ ?t) with (x28 :: t). cbn [parse_tuple].
    rewrite parse_items_int.
    change (latin1 ")" ++ z) with (x29 :: z).
    rewrite (parse_items_repr n [] (m :: l) z). reflexivity.
Qed.

(** The entries are read back from any buffer that starts with a
    version 1.0 header. *)
Lemma read_entries_header (d : dtype) (fo : bool) (shape : list N)
    (len tail : bytes) :
  length len = 2 ->
  read_entries (magic x01 x00 ++ len ++ header_dict d fo shape ++ tail)
  = Some (d, fo, shape).
Proof.
  intros Hlen. unfold read_entries.
  rewrite expect_app. cbn [mbind option_bind].
  destruct len as [|l0 [|l1 [|]]]; try discriminate Hlen.
  cbn [app drop]. rewrite drop_0. unfold header_dict. rewrite <- !app_assoc.
  rewrite expect_app. cbn [mbind option_bind].
  change (latin1 "', 'fortran_order': " ++ ?t)
    with (x27 :: latin1 ", 'fortran_order': " ++ t).
  rewrite until_quote_descr. cbn [mbind option_bind].
  rewrite descr_roundtrip. cbn [mbind option_bind].
  rewrite expect_app. cbn [mbind option_bind].
  rewrite parse_bool_repr. cbn [mbind option_bind].
  rewrite expect_app. cbn [mbind option_bind].
  rewrite parse_tuple_repr. reflexivity.
Qed.

(** ** The header of an array numpy can hold fits version 1.0 *)

Lemma count_cons (n : N) (l : list N) : count (n :: l) = (n * count l)%N.
Proof. reflexivity. Qed.

Lemma count_nonzero_ge (shape : list N) (n : N) :
  In n shape -> (n <= count (List.filter (fun n => negb (n =? 0)%N) shape))%N
                /\ (1 <= count (List.filter (fun n => negb (n =? 0)%N) shape))%N.
Proof.
  assert (Hpos : forall l, (1 <= count (List.filter (fun n => negb (n =? 0)%N) l))%N).
  { intros l. induction l as [|k l IH]; [cbn; lia|].
    cbn [List.filter]. destruct (N.eqb_spec k 0); cbn [negb]; [exact IH|].
    rewrite count_cons. nia. }
  induction shape as [|m shape IH]; intros Hin; [destruct Hin|].
  split; [|apply Hpos].
  cbn [List.filter]. destruct (N.eqb_spec m 0) as [->|Hm]; cbn [negb].
  - destruct Hin as [<-|Hin]; [lia | apply IH, Hin].
  - rewrite count_cons. specialize (Hpos shape).
    destruct Hin as [<-|Hin]; [nia | destruct (IH Hin); nia].
Qed.

Lemma itemsize_pos (d : dtype) : (1 <= itemsize d)%N.
Proof. destruct d; cbn; lia. Qed.

Lemma allocatable_dims (d : dtype) (shape : list N) :
  allocatable d shape = true ->
  length shape <= 64 /\ Forall (fun n => (n < 2 ^ 63)%N) shape.
Proof.
  unfold allocatable. rewrite andb_true_iff, Nat.leb_le, N.ltb_lt.
  intros [Hlen Hsize]. split; [exact Hlen|].
  apply List.Forall_forall. intros n Hin.
  destruct (count_nonzero_ge shape n Hin) as [Hn _].
  pose proof (itemsize_pos d). nia.
Qed.

Lemma repr_int_short (n : N) : (n < 2 ^ 63)%N -> length (repr_int n) <= 64.
Proof.
  intros Hn. pose proof (repr_int_length n) as H.
  destruct (N.eq_dec n 0%N) as [->|Hz]; [vm_compute; lia|].
  assert (N.log2 n < 63)%N by (apply N.log2_lt_pow2; lia).
  lia.
Qed.

Lemma repr_items_short (l : list N) :
  Forall (fun n => (n < 2 ^ 63)%N) l -> length (repr_items l) <= 66 * length l.
Proof.
  induction 1 as [|n l Hn _ IH]; [cbn; lia|].
  cbn [repr_items]. rewrite !length_app.
  pose proof (repr_int_short n Hn). cbn [length latin1 list_byte_of_string].
  change (length (latin1 ", ")) with 2. lia.
Qed.

Lemma repr_tuple_short (l : list N) :
  Forall (fun n => (n < 2 ^ 63)%N) l -> length (repr_tuple l) <= 3 + 66 * length l.
Proof.
  intros H. destruct H as [|n l Hn Hl]; [cbn; lia|].
  pose proof (repr_int_short n Hn). pose proof (repr_items_short l Hl).
  destruct l as [|m l]; cbn [repr_tuple]; rewrite !length_app;
    change (length (latin1 "(")) with 1; change (length (latin1 ",)")) with 2;
    change (length (latin1 ")")) with 1; cbn [length] in *; lia.
Qed.

Lemma header_text_short (d : dtype) (fo : bool) (shape : list N) :
  allocatable d shape = true ->
  length (header_dict d fo shape ++ growth_padding fo shape) <= 4400.
Proof.
  intros H. destruct (allocatable_dims d shape H) as [Hlen Hdims].
  pose proof (repr_tuple_short shape Hdims) as Ht.
  assert (Hd : length (latin1 (dtype_str d)) <= 4).
  { destruct d as [| | |[]|[]|[]|[]|[]|[]|[]|[]|[]|[]|[]|[]|[]];
      vm_compute; lia. }
  assert (Hb : length (repr_bool fo) <= 5) by (destruct fo; vm_compute; lia).
  assert (Hg : length (growth_padding fo shape) <= 21).
  { unfold growth_padding. destruct shape; [cbn; lia|].
    rewrite length_replicate. unfold GROWTH_AXIS_MAX_DIGITS. lia. }
  unfold header_dict. rewrite !length_app.
  change (length (latin1 "{'descr': '")) with 11.
  change (length (latin1 "', 'fortran_order': ")) with 20.
  change (length (latin1 ", 'shape': ")) with 11.
  change (length (latin1 ", }")) with 3. lia.
Qed.

Lemma array_header_valid (d : dtype) (fo : bool) (shape : list N) :
  allocatable d shape = true ->
  exists len tail,
    length len = 2
    /\ array_header d fo shape
        = Ret (magic x01 x00 ++ len ++ header_dict d fo shape ++ tail).
Proof.
  intros H. pose proof (header_text_short d fo shape H) as Hshort.
  unfold array_header, _wrap_header_guess_version, _wrap_header.
  set (text := header_dict d fo shape ++ growth_padding fo shape) in *.
  set (padlen := ARRAY_ALIGN - (MAGIC_LEN + 2 + (length text + 1)) mod ARRAY_ALIGN).
  assert (Hpad : padlen <= 64) by (unfold padlen, ARRAY_ALIGN; lia).
  destruct (N.ltb_spec (N.of_nat (length text + 1 + padlen)) (2 ^ (8 * N.of_nat 2)))
    as [_|Hbig].
  - eexists (pack_le 2 _), _. split; [apply pack_le_length|].
    unfold text at 2. rewrite <- !app_assoc. reflexivity.
  - exfalso. change (2 ^ (8 * N.of_nat 2))%N with 65536%N in Hbig. lia.
Qed.

(** [np.load] of what [np.save] wrote for an array numpy can hold. *)
Lemma load_written_roundtrip (room : N -> bool) (A : ndarray) (h : bytes) :
  wf_array A = true ->
  array_header (arr_dtype A) (arr_fortran A) (arr_shape A) = Ret h ->
  load_written room (h ++ arr_data A) = Some (Ret A).
Proof.
  destruct A as [d fo shape data]. cbn [arr_dtype arr_fortran arr_shape arr_data].
  unfold wf_array. cbn [arr_dtype arr_fortran arr_shape arr_data].
  rewrite andb_true_iff, N.eqb_eq. intros [Hvalid Hdata] Hh.
  assert (Halloc : allocatable d shape = true).
  { unfold valid_header in Hvalid. apply andb_true_iff in Hvalid. tauto. }
  destruct (array_header_valid d fo shape Halloc) as (len & tail & Hlen & Hh').
  assert (Eh : h = magic x01 x00 ++ len ++ header_dict d fo shape ++ tail)
    by congruence.
  unfold load_written.
  rewrite Eh at 1. rewrite <- !app_assoc, read_entries_header by exact Hlen.
  cbn [mbind option_bind]. rewrite Hvalid, Hh.
  rewrite startswith_app, drop_app_length.
  destruct (N.ltb_spec (N.of_nat (length data)) (itemsize d * count shape))
    as [Hlt|_]; [lia|].
  rewrite <- Hdata, Nat2N.id, firstn_all. reflexivity.
Qed.

Lemma np_save_new (A : ndarray) (h : bytes) :
  array_header (arr_dtype A) (arr_fortran A) (arr_shape A) = Ret h ->
  np_save BytesIO_new A
  = Ret (mkBytesIO (h ++ arr_data A) (length (h ++ arr_data A))).
Proof.
  intros Hh. unfold np_save. rewrite Hh. cbn [res_bind].
  rewrite bio_write_new, bio_write_end. reflexivity.
Qed.

End FormatFacts.

(* ===================================================================== *)
(** * The receive loop, seen from the stream *)
(* ===================================================================== *)

Lemma take_nonempty (n : nat) (avail : bytes) :
  0 < n -> avail <> [] -> take n avail <> [].
Proof.
  intros Hn Ha. destruct avail as [|b avail]; [congruence|].
  destruct n as [|n]; [lia | discriminate].
Qed.

Section DrainFacts.
Variables (bufsize : nat) (p : Peer) (sent : bytes).
Hypothesis bufsize_pos : 0 < bufsize.

Lemma take_bufsize_nonempty (avail : bytes) :
  avail <> [] -> take bufsize avail <> [].
Proof. apply take_nonempty, bufsize_pos. Qed.

Lemma drain_chunks_nonempty (fuel : nat) pend k chunks oe pend' k' :
  drain bufsize fuel p sent pend k = Some (chunks, oe, pend', k') ->
  Forall (fun z => z <> []) chunks.
Proof.
  revert pend k chunks. induction fuel as [|fuel IH]; intros pend k chunks H;
    [discriminate|].
  cbn [drain] in H.
  assert (Hmore : forall avail k0,
    avail <> [] ->
    match drain bufsize fuel p sent (drop bufsize avail) k0 with
    | Some (chunks0, e, pend0, k1) => Some (take bufsize avail :: chunks0, e, pend0, k1)
    | None => None
    end = Some (chunks, oe, pend', k') ->
    Forall (fun z => z <> []) chunks).
  { intros avail k0 Hne Hm.
    destruct (drain bufsize fuel p sent (drop bufsize avail) k0)
      as [[[[cs e0] pd] k1]|] eqn:E; [|discriminate].
    injection Hm as <- -> -> ->. constructor.
    - by apply take_bufsize_nonempty.
    - eapply IH, E. }
  destruct pend as [|b pend].
  - destruct (peer_arrival p sent k) as [b bs| |e|] eqn:Ea.
    + eapply Hmore, H. discriminate.
    + injection H as <- _ _ _. constructor.
    + injection H as <- _ _ _. constructor.
    + discriminate.
  - eapply Hmore, H. discriminate.
Qed.

(** The chunks are the stream, cut up: nothing lost, nothing
    reordered; and the loop ends where the stream ends or fails. *)
Lemma drain_stream (fuel : nat) pend k chunks oe pend' k' :
  drain bufsize fuel p sent pend k = Some (chunks, oe, pend', k') ->
  exists n,
    k' = k + n /\ pend' = []
    /\ concat chunks = pend ++ stream (peer_arrival p sent) k n
    /\ (forall i, i < n -> is_data (peer_arrival p sent (k + i)) = true)
    /\ peer_arrival p sent k'
       = match oe with None => Eof | Some e => Reset e end.
Proof.
  revert pend k chunks.
  induction fuel as [|fuel IH]; intros pend k chunks H; [discriminate|].
  cbn [drain] in H. destruct pend as [|b pend].
  - destruct (peer_arrival p sent k) as [b bs| |e|] eqn:Ea.
    + destruct (drain bufsize fuel p sent (drop bufsize (b :: bs)) (S k))
        as [[[[cs e0] pd] k1]|] eqn:E; [|discriminate].
      injection H as <- <- <- <-.
      destruct (IH _ _ _ E) as (n & -> & -> & Hc & Hd & He).
      exists (S n). split; [lia|]. split; [reflexivity|].
      split; [|split].
      * cbn [concat stream app]. rewrite Hc, Ea. cbn [payload].
        rewrite app_assoc, take_drop. reflexivity.
      * intros [|i] Hi; [by rewrite Nat.add_0_r, Ea|].
        replace (k + S i) with (S k + i) by lia. apply Hd. lia.
      * exact He.
    + injection H as <- <- <- <-. exists 0.
      rewrite Nat.add_0_r. repeat split; [lia | exact Ea].
    + injection H as <- <- <- <-. exists 0.
      rewrite Nat.add_0_r. repeat split; [lia | exact Ea].
    + discriminate.
  - destruct (drain bufsize fuel p sent (drop bufsize (b :: pend)) k)
      as [[[[cs e0] pd] k1]|] eqn:E; [|discriminate].
    injection H as <- <- <- <-.
    destruct (IH _ _ _ E) as (n & -> & -> & Hc & Hd & He).
    exists n. repeat split; [|exact Hd|exact He].
    cbn [concat]. rewrite Hc, app_assoc, take_drop. reflexivity.
Qed.

(** More fuel changes nothing once the loop has ended. *)
Lemma drain_mono (fuel fuel' : nat) pend k r :
  drain bufsize fuel p sent pend k = Some r -> fuel <= fuel' ->
  drain bufsize fuel' p sent pend k = Some r.
Proof.
  revert fuel' pend k r.
  induction fuel as [|fuel IH]; intros fuel' pend k r H Hle; [discriminate|].
  destruct fuel' as [|fuel']; [lia|].
  cbn [drain] in *.
  assert (Hmore : forall avail k0,
    match drain bufsize fuel p sent (drop bufsize avail) k0 with
    | Some (chunks0, e, pend0, k1) => Some (take bufsize avail :: chunks0, e, pend0, k1)
    | None => None
    end = Some r ->
    match drain bufsize fuel' p sent (drop bufsize avail) k0 with
    | Some (chunks0, e, pend0, k1) => Some (take bufsize avail :: chunks0, e, pend0, k1)
    | None => None
    end = Some r).
  { intros avail k0 Hm.
    destruct (drain bufsize fuel p sent (drop bufsize avail) k0) as [r0|] eqn:E;
      [|discriminate].
    rewrite (IH fuel' _ _ _ E) by lia. exact Hm. }
  destruct pend as [|b pend]; [|by apply Hmore].
  destruct (peer_arrival p sent k); [by apply Hmore | exact H | exact H | exact H].
Qed.

(** What waits in the kernel is read in finitely many calls. *)
Lemma drain_pending (pend : bytes) k fuel0 chunks oe pend' k' :
  drain bufsize fuel0 p sent [] k = Some (chunks, oe, pend', k') ->
  exists fuel cs,
    drain bufsize fuel p sent pend k = Some (cs ++ chunks, oe, pend', k').
Proof.
  intros H0. remember (length pend) as m eqn:Hm. revert pend Hm.
  induction m as [m IH] using lt_wf_ind. intros pend Hm.
  destruct pend as [|b pend].
  - exists fuel0, []. exact H0.
  - assert (Hshort : length (drop bufsize (b :: pend)) < m).
    { rewrite length_drop. subst m. cbn [length]. lia. }
    destruct (IH _ Hshort _ eq_refl) as (fuel & cs & Hd).
    exists (S fuel), (take bufsize (b :: pend) :: cs).
    cbn [drain]. rewrite Hd. reflexivity.
Qed.

(** A stream that ends is read to its end. *)
Lemma drain_terminates (n : nat) pend k oe :
  (forall i, i < n -> is_data (peer_arrival p sent (k + i)) = true) ->
  peer_arrival p sent (k + n)
  = match oe with None => Eof | Some e => Reset e end ->
  exists fuel chunks,
    drain bufsize fuel p sent pend k = Some (chunks, oe, [], k + n).
Proof.
  revert pend k. induction n as [|n IH]; intros pend k Hdata Hend.
  - rewrite Nat.add_0_r in *.
    assert (H0 : drain bufsize 1 p sent [] k = Some ([], oe, [], k)).
    { cbn [drain]. rewrite Hend. by destruct oe. }
    destruct (drain_pending pend _ _ _ _ _ _ H0) as (fuel & cs & H).
    exists fuel, (cs ++ []). exact H.
  - pose proof (Hdata 0 ltac:(lia)) as H0. rewrite Nat.add_0_r in H0.
    destruct (peer_arrival p sent k) as [b bs| | |] eqn:Ea; try discriminate.
    destruct (IH (drop bufsize (b :: bs)) (S k)) as (fuel & chunks & Hd).
    { intros i Hi. replace (S k + i) with (k + S i) by lia. apply Hdata. lia. }
    { replace (S k + n) with (k + S n) by lia. exact Hend. }
    assert (H1 : drain bufsize (S fuel) p sent [] k
                 = Some (take bufsize (b :: bs) :: chunks, oe, [], k + S n)).
    { replace (k + S n) with (S k + n) by lia.
      cbn [drain]. rewrite Ea, Hd. reflexivity. }
    destruct (drain_pending pend _ _ _ _ _ _ H1) as (fuel' & cs & H).
    exists fuel', (cs ++ take bufsize (b :: bs) :: chunks). exact H.
Qed.

End DrainFacts.

(* ===================================================================== *)
(** * Running the scripts' functions *)
(* ===================================================================== *)

Section WorldFacts.

Lemma upd_upd w s sk1 sk2 evs1 evs2 :
  upd (upd w s sk1 evs1) s sk2 evs2 = upd w s sk2 (evs1 ++ evs2).
Proof.
  unfold upd; cbn [env_socket env_peer env_randn w_drawn w_next w_socks w_trace].
  rewrite insert_insert_eq, <- app_assoc. reflexivity.
Qed.

Lemma upd_id w s sk :
  w_socks w !! s = Some sk -> upd w s sk [] = w.
Proof.
  intros H. destruct w as [es ep er dr nx socks tr]. unfold upd.
  cbn [env_socket env_peer env_randn w_drawn w_next w_socks w_trace] in *.
  rewrite insert_id, app_nil_r by exact H. reflexivity.
Qed.

Lemma upd_log w s sk ev :
  w_socks w !! s = Some sk -> log w ev = upd w s sk [ev].
Proof.
  intros H. unfold upd, log. rewrite insert_id by exact H. reflexivity.
Qed.

Lemma upd_lookup w s sk evs : w_socks (upd w s sk evs) !! s = Some sk.
Proof. unfold upd; cbn [w_socks]. apply lookup_insert_eq. Qed.

Lemma upd_trace w s sk evs : w_trace (upd w s sk evs) = w_trace w ++ evs.
Proof. reflexivity. Qed.

(** [recv] on a connected socket. *)
Lemma recv_connected w s p sent pend k n :
  w_socks w !! s = Some (mkSock (Some p) sent pend k) ->
  recv s n w =
    match pend with
    | _ :: _ =>
        Some (Ret (take n pend),
              upd w s (mkSock (Some p) sent (drop n pend) k)
                  [EvRecv s n (take n pend)])
    | [] =>
        match peer_arrival p sent k with
        | Data b bs =>
            Some (Ret (take n (b :: bs)),
                  upd w s (mkSock (Some p) sent (drop n (b :: bs)) (S k))
                      [EvRecv s n (take n (b :: bs))])
        | Eof => Some (Ret [], upd w s (mkSock (Some p) sent [] k) [EvRecv s n []])
        | Reset e => Some (Raise e, w)
        | Silence => None
        end
    end.
Proof.
  intros H. unfold recv. rewrite H. cbn [sk_peer sk_pending sk_sent sk_arrived].
  destruct pend as [|b pend]; [|reflexivity].
  destruct (peer_arrival p sent k); try reflexivity.
  by rewrite (upd_log _ _ _ _ H).
Qed.

Lemma recv_loop_S fuel s f :
  TestPy.recv_loop (S fuel) s f
  = Net.bind (recv s 1024)
      (fun z => if bytes_not z then ret f
                else TestPy.recv_loop fuel s (bio_write f z)).
Proof. reflexivity. Qed.

(** The loop of [recv_array] on a connected socket is [drain]. *)
Lemma recv_loop_drain fuel s f w p sent pend k :
  w_socks w !! s = Some (mkSock (Some p) sent pend k) ->
  TestPy.recv_loop fuel s f w =
    match drain 1024 fuel p sent pend k with
    | None => None
    | Some (chunks, oe, pend', k') =>
        Some (match oe with
              | None => Ret (fold_left bio_write chunks f)
              | Some e => Raise e
              end,
              upd w s (mkSock (Some p) sent pend' k')
                  (map (EvRecv s 1024) chunks
                     ++ match oe with
                        | None => [EvRecv s 1024 []]
                        | Some _ => []
                        end))
    end.
Proof.
  revert f w pend k. induction fuel as [|fuel IH]; intros f w pend k H;
    [reflexivity|].
  rewrite recv_loop_S. unfold Net.bind at 1.
  rewrite (recv_connected _ _ _ _ _ _ _ H). cbn [drain].
  assert (Hmore : forall avail k0,
    avail <> [] ->
    (if bytes_not (take 1024 avail) then ret f
     else TestPy.recv_loop fuel s (bio_write f (take 1024 avail)))
      (upd w s (mkSock (Some p) sent (drop 1024 avail) k0)
           [EvRecv s 1024 (take 1024 avail)])
    = match
        match drain 1024 fuel p sent (drop 1024 avail) k0 with
        | Some (chunks, e, pend', k'') => Some (take 1024 avail :: chunks, e, pend', k'')
        | None => None
        end
      with
      | None => None
      | Some (chunks, oe, pend', k') =>
          Some (match oe with
                | None => Ret (fold_left bio_write chunks f)
                | Some e => Raise e
                end,
                upd w s (mkSock (Some p) sent pend' k')
                    (map (EvRecv s 1024) chunks
                       ++ match oe with
                          | None => [EvRecv s 1024 []]
                          | Some _ => []
                          end))
      end).
  { intros avail k0 Hne.
    destruct (bytes_not (take 1024 avail)) eqn:Hz.
    { apply bytes_not_nil in Hz. exfalso.
      revert Hz. apply take_nonempty; [lia | exact Hne]. }
    rewrite (IH _ _ _ _ (upd_lookup _ _ _ _)).
    destruct (drain 1024 fuel p sent (drop 1024 avail) k0)
      as [[[[cs e0] pd] k1]|]; [|reflexivity].
    rewrite upd_upd. reflexivity. }
  destruct pend as [|b pend]; [|by apply Hmore].
  destruct (peer_arrival p sent k) as [b bs| |e|].
  - by apply Hmore.
  - reflexivity.
  - cbn [map app]. by rewrite (upd_id _ _ _ H).
  - reflexivity.
Qed.

Lemma fold_bio_write (chunks : list bytes) (b : bytes) :
  fold_left bio_write chunks (mkBytesIO b (length b))
  = mkBytesIO (b ++ concat chunks) (length (b ++ concat chunks)).
Proof.
  revert b. induction chunks as [|z chunks IH]; intros b; cbn [fold_left concat].
  - by rewrite app_nil_r.
  - rewrite bio_write_end, IH, <- app_assoc. reflexivity.
Qed.

Lemma fold_bio_write_new (chunks : list bytes) :
  bio_seek (fold_left bio_write chunks BytesIO_new) 0
  = mkBytesIO (concat chunks) 0.
Proof.
  change BytesIO_new with (mkBytesIO [] (length (@nil byte))).
  rewrite (fold_bio_write chunks []). reflexivity.
Qed.

End WorldFacts.

Section SocketFacts.

Lemma socket_socket_run w :
  socket_socket w =
    match env_socket w (w_next w) with
    | Some e => Some (Raise e, refused w)
    | None =>
        Some (Ret (w_next w),
              upd (refused w) (w_next w) (mkSock None [] [] 0)
                  [EvSocket (w_next w)])
    end.
Proof. reflexivity. Qed.

Lemma connect_unconnected w s addr sent pend k :
  w_socks w !! s = Some (mkSock None sent pend k) ->
  connect s addr w =
    match peer_connect (env_peer w s addr) with
    | Some e =>
        Some (Raise e, upd w s (mkSock None sent pend k) [EvConnect s addr])
    | None =>
        Some (Ret tt,
              upd w s (mkSock (Some (env_peer w s addr)) sent pend k)
                  [EvConnect s addr])
    end.
Proof.
  intros H. unfold connect. rewrite H. cbn [sk_peer sk_sent sk_pending sk_arrived].
  destruct (peer_connect (env_peer w s addr)); [|reflexivity].
  by rewrite (upd_log _ _ _ _ H).
Qed.

Lemma sendall_connected w s z p sent pend k :
  w_socks w !! s = Some (mkSock (Some p) sent pend k) ->
  sendall s z w =
    match peer_sendall p z with
    | Failed e =>
        Some (Raise e, upd w s (mkSock (Some p) sent pend k) [EvSendall s z])
    | Stalled => None
    | Delivered =>
        Some (Ret tt,
              upd w s (mkSock (Some p) (sent ++ z) pend k) [EvSendall s z])
    end.
Proof.
  intros H. unfold sendall. rewrite H. cbn [sk_peer sk_sent sk_pending sk_arrived].
  destruct (peer_sendall p z); try reflexivity.
  by rewrite (upd_log _ _ _ _ H).
Qed.

Lemma close_upd w s sk evs :
  close s (upd w s sk evs) =
    Some (Ret tt,
          mkWorld (env_socket w) (env_peer w) (env_randn w) (w_drawn w)
                  (w_next w) (delete s (w_socks w))
                  (w_trace w ++ evs ++ [EvClose s])).
Proof.
  unfold close. rewrite upd_lookup. unfold upd, log, set_socks.
  cbn [env_socket env_peer env_randn w_drawn w_next w_socks w_trace].
  rewrite delete_insert_eq, <- app_assoc. reflexivity.
Qed.

Lemma close_opened w sk evs :
  close (w_next w) (upd (refused w) (w_next w) sk (EvSocket (w_next w) :: evs))
  = Some (Ret tt, finish w evs).
Proof. rewrite close_upd. reflexivity. Qed.

End SocketFacts.

Section ScriptFacts.
Context {Obj : Type} {numpy : Rest Obj}.

(** [send_array] hands [sendall] the whole encoding. *)
Lemma send_array_run s (A : pyval Obj) :
  TestPy.send_array s A =
    match save BytesIO_new A with
    | Ret f => sendall s (bio_buf f)
    | Raise e => raise e
    end.
Proof.
  unfold TestPy.send_array, Net.bind, pure.
  destruct (save BytesIO_new A) as [f|e]; reflexivity.
Qed.

Lemma pure_bind_ret {A} (r : res A) :
  Net.bind (pure r) (fun x => ret x) = pure r.
Proof. unfold Net.bind, pure, ret. by destruct r. Qed.

Lemma recv_array_connected fuel s w p sent pend k :
  w_socks w !! s = Some (mkSock (Some p) sent pend k) ->
  TestPy.recv_array fuel s w =
    match drain 1024 fuel p sent pend k with
    | None => None
    | Some (chunks, oe, pend', k') =>
        Some (match oe with
              | None => load (mkBytesIO (concat chunks) 0)
              | Some e => Raise e
              end,
              upd w s (mkSock (Some p) sent pend' k')
                  (map (EvRecv s 1024) chunks
                     ++ match oe with
                        | None => [EvRecv s 1024 []]
                        | Some _ => []
                        end))
    end.
Proof.
  intros H. unfold TestPy.recv_array. unfold Net.bind at 1.
  rewrite (recv_loop_drain _ _ _ _ _ _ _ _ H).
  destruct (drain 1024 fuel p sent pend k) as [[[[cs [e|]] pd] k1]|];
    [reflexivity| |reflexivity].
  rewrite fold_bio_write_new, pure_bind_ret. reflexivity.
Qed.

(** Every run of [recv_array]: chunk after chunk, then either the
    empty chunk and the decoding of all of them, or a failing [recv]. *)
Lemma recv_array_inv fuel s w r w' :
  TestPy.recv_array fuel s w = Some (r, w') ->
  exists chunks,
    Forall (fun z => z <> []) chunks
    /\ ((w_trace w' = w_trace w ++ map (EvRecv s 1024) (chunks ++ [[]])
         /\ r = load (mkBytesIO (concat chunks) 0))
        \/ (exists e, r = Raise e
              /\ w_trace w' = w_trace w ++ map (EvRecv s 1024) chunks
              /\ recv s 1024 w' = Some (Raise e, w'))).
Proof.
  intros H.
  destruct (w_socks w !! s) as [[[p|] sent pend k]|] eqn:Hs.
  - rewrite (recv_array_connected _ _ _ _ _ _ _ Hs) in H.
    destruct (drain 1024 fuel p sent pend k) as [[[[cs oe] pd] k1]|] eqn:Hd;
      [|discriminate].
    injection H as <- <-. exists cs.
    split; [eapply drain_chunks_nonempty, Hd; lia|].
    destruct (drain_stream 1024 p sent ltac:(lia) _ _ _ _ _ _ _ Hd)
      as (n & -> & -> & _ & _ & Hend).
    destruct oe as [e|].
    + right. exists e. rewrite upd_trace, app_nil_r.
      repeat split.
      rewrite (recv_connected _ _ _ _ _ _ _ (upd_lookup _ _ _ _)), Hend.
      reflexivity.
    + left. rewrite upd_trace, map_app. split; reflexivity.
  - destruct fuel as [|fuel]; [discriminate|].
    unfold TestPy.recv_array in H. unfold Net.bind at 1 in H.
    rewrite recv_loop_S in H. unfold Net.bind at 1, recv in H.
    rewrite Hs in H. cbn [sk_peer] in H. injection H as <- <-.
    exists []. split; [constructor|]. right. eexists.
    rewrite app_nil_r. repeat split.
    unfold recv. rewrite Hs. reflexivity.
  - destruct fuel as [|fuel]; [discriminate|].
    unfold TestPy.recv_array in H. unfold Net.bind at 1 in H.
    rewrite recv_loop_S in H. unfold Net.bind at 1, recv in H.
    rewrite Hs in H. injection H as <- <-.
    exists []. split; [constructor|]. right. eexists.
    rewrite app_nil_r. repeat split.
    unfold recv. rewrite Hs. reflexivity.
Qed.

(** One call of [exchange], step by step. *)
Lemma exchange_run fuel addr (A : pyval Obj) w :
  TestPy.exchange fuel addr A w =
    let s := w_next w in
    let p := env_peer w s addr in
    match env_socket w s with
    | Some e => Some (Raise e, refused w)
    | None =>
        match peer_connect p with
        | Some e => Some (Raise e, finish w [EvConnect s addr])
        | None =>
            match save BytesIO_new A with
            | Raise e => Some (Raise e, finish w [EvConnect s addr])
            | Ret f =>
                let z := bio_buf f in
                match peer_sendall p z with
                | Failed e =>
                    Some (Raise e, finish w [EvConnect s addr; EvSendall s z])
                | Stalled => None
                | Delivered =>
                    match drain 1024 fuel p z [] 0 with
                    | None => None
                    | Some (chunks, Some e, _, _) =>
                        Some (Raise e,
                              finish w (EvConnect s addr :: EvSendall s z
                                          :: map (EvRecv s 1024) chunks))
                    | Some (chunks, None, _, _) =>
                        Some (load (mkBytesIO (concat chunks) 0),
                              finish w (EvConnect s addr :: EvSendall s z
                                          :: map (EvRecv s 1024) (chunks ++ [[]])))
                    end
                end
            end
        end
    end.
Proof.
  cbv zeta. unfold TestPy.exchange, with_socket.
  unfold Net.bind at 1. unfold Net.bind at 1. rewrite socket_socket_run.
  destruct (env_socket w (w_next w)) as [e|]; [reflexivity|].
  set (s := w_next w). set (p := env_peer w s addr).
  unfold finally. unfold Net.bind at 1.
  rewrite (connect_unconnected _ _ _ _ _ _ (upd_lookup _ _ _ _)).
  change (env_peer (upd (refused w) s (mkSock None [] [] 0) [EvSocket s]) s addr)
    with p.
  destruct (peer_connect p) as [e|].
  { rewrite upd_upd. cbn [app]. unfold s. rewrite close_opened. reflexivity. }
  rewrite upd_upd. cbn [app].
  unfold Net.bind at 1. rewrite send_array_run.
  destruct (save BytesIO_new A) as [f|e].
  2:{ unfold raise. unfold s. rewrite close_opened. reflexivity. }
  rewrite (sendall_connected _ _ _ _ _ _ _ (upd_lookup _ _ _ _)).
  destruct (peer_sendall p (bio_buf f)) as [|e|].
  - rewrite upd_upd. cbn [app].
    unfold Net.bind at 1.
    rewrite (recv_array_connected _ _ _ _ _ _ _ (upd_lookup _ _ _ _)).
    destruct (drain 1024 fuel p (bio_buf f) [] 0) as [[[[cs [e|]] pd] k1]|];
      [| |reflexivity].
    + rewrite upd_upd. cbn [app]. rewrite app_nil_r.
      unfold s. rewrite close_opened. reflexivity.
    + rewrite upd_upd. cbn [app].
      destruct (load (mkBytesIO (concat cs) 0)) as [x|e];
        unfold ret; unfold s; rewrite close_opened, map_app; reflexivity.
  - rewrite upd_upd. cbn [app]. unfold s. rewrite close_opened. reflexivity.
  - reflexivity.
Qed.

End ScriptFacts.

(* ===================================================================== *)
(** * The two scripts share their core *)
(* ===================================================================== *)

Section SameCore.
Context {Obj : Type} {numpy : Rest Obj}.

Lemma client_send_array s (A : pyval Obj) :
  ClientPy.send_array s A = TestPy.send_array s A.
Proof. reflexivity. Qed.

Lemma client_recv_loop fuel s f :
  ClientPy.recv_loop fuel s f = TestPy.recv_loop fuel s f.
Proof. reflexivity. Qed.

Lemma client_recv_array fuel s :
  ClientPy.recv_array (numpy := numpy) fuel s = TestPy.recv_array fuel s.
Proof. reflexivity. Qed.

Lemma client_exchange fuel addr (A : pyval Obj) :
  ClientPy.exchange fuel addr A = TestPy.exchange fuel addr A.
Proof. reflexivity. Qed.

End SameCore.

(* ===================================================================== *)
(** * [recv_array] *)
(* ===================================================================== *)

Lemma received_recv s bufsize (chunks : list bytes) :
  received s (map (EvRecv s bufsize) chunks) = chunks.
Proof.
  induction chunks as [|z chunks IH]; cbn [map received]; [reflexivity|].
  rewrite Nat.eqb_refl, IH. reflexivity.
Qed.

Lemma since_app w w' evs : w_trace w' = w_trace w ++ evs -> since w w' = evs.
Proof. intros H. unfold since. rewrite H. apply drop_app_length. Qed.

Lemma recv_events_not_eof s (chunks : list bytes) :
  Forall (fun z => z <> []) chunks ->
  ~ In (EvRecv s 1024 []) (map (EvRecv s 1024) chunks).
Proof.
  intros Hne Hin. apply in_map_iff in Hin as (z & Hz & Hin).
  injection Hz as ->. rewrite List.Forall_forall in Hne.
  by apply (Hne [] Hin).
Qed.

Lemma concat_with_empty (chunks : list bytes) :
  concat (chunks ++ [[]]) = concat chunks.
Proof. rewrite concat_app. cbn. by rewrite app_nil_r. Qed.

(* ===================================================================== *)
(** * Termination of the receive loop *)
(* ===================================================================== *)

Section LoopEnds.
Context {Obj : Type} {numpy : Rest Obj}.
Variables (s : nat) (w : World) (p : Peer) (sent pend : bytes) (k : nat).
Hypothesis connected : w_socks w !! s = Some (mkSock (Some p) sent pend k).

Lemma recv_loop_returns_iff f :
  (exists fuel f' w', TestPy.recv_loop fuel s f w = Some (Ret f', w'))
  <-> (exists n, closes_after (peer_arrival p sent) k n).
Proof.
  split.
  - intros (fuel & f' & w' & H).
    rewrite (recv_loop_drain _ _ _ _ _ _ _ _ connected) in H.
    destruct (drain 1024 fuel p sent pend k) as [[[[cs oe] pd] k1]|] eqn:Hd;
      [|discriminate].
    destruct (drain_stream 1024 p sent ltac:(lia) _ _ _ _ _ _ _ Hd)
      as (n & -> & _ & _ & Hdata & Hend).
    destruct oe as [e|]; [discriminate|].
    exists n. split; assumption.
  - intros (n & Hdata & Hend).
    destruct (drain_terminates 1024 p sent ltac:(lia) n pend k None Hdata Hend)
      as (fuel & chunks & Hd).
    exists fuel. rewrite (recv_loop_drain _ _ _ _ _ _ _ _ connected), Hd.
    eauto.
Qed.

(** The loop is abandoned with an exception exactly when the connection
    fails before the stream ends. *)
Lemma recv_loop_raises_iff f e :
  (exists fuel w', TestPy.recv_loop fuel s f w = Some (Raise e, w'))
  <-> (exists n, (forall i, i < n -> is_data (peer_arrival p sent (k + i)) = true)
                 /\ peer_arrival p sent (k + n) = Reset e).
Proof.
  split.
  - intros (fuel & w' & H).
    rewrite (recv_loop_drain _ _ _ _ _ _ _ _ connected) in H.
    destruct (drain 1024 fuel p sent pend k) as [[[[cs oe] pd] k1]|] eqn:Hd;
      [|discriminate].
    destruct (drain_stream 1024 p sent ltac:(lia) _ _ _ _ _ _ _ Hd)
      as (n & -> & _ & _ & Hdata & Hend).
    destruct oe as [e'|]; [|discriminate].
    injection H as -> _. exists n. split; assumption.
  - intros (n & Hdata & Hend).
    destruct (drain_terminates 1024 p sent ltac:(lia) n pend k (Some e) Hdata Hend)
      as (fuel & chunks & Hd).
    exists fuel. rewrite (recv_loop_drain _ _ _ _ _ _ _ _ connected), Hd.
    eauto.
Qed.

Lemma recv_array_returns :
  (exists n, closes_after (peer_arrival p sent) k n) ->
  exists fuel r w', TestPy.recv_array fuel s w = Some (r, w').
Proof.
  intros (n & Hdata & Hend).
  destruct (drain_terminates 1024 p sent ltac:(lia) n pend k None Hdata Hend)
    as (fuel & chunks & Hd).
  exists fuel. rewrite (recv_array_connected _ _ _ _ _ _ _ connected), Hd.
  eauto.
Qed.

Lemma recv_never_returns :
  (forall n, peer_arrival p sent (k + n) <> Eof) ->
  (forall n e, peer_arrival p sent (k + n) <> Reset e) ->
  forall fuel f,
    TestPy.recv_loop fuel s f w = None /\ TestPy.recv_array fuel s w = None.
Proof.
  intros Hopen Hup fuel f.
  rewrite (recv_loop_drain _ _ _ _ _ _ _ _ connected).
  rewrite (recv_array_connected _ _ _ _ _ _ _ connected).
  destruct (drain 1024 fuel p sent pend k) as [[[[cs oe] pd] k1]|] eqn:Hd;
    [exfalso | split; reflexivity].
  destruct (drain_stream 1024 p sent ltac:(lia) _ _ _ _ _ _ _ Hd)
    as (n & -> & _ & _ & _ & Hend).
  destruct oe as [e|]; [eapply Hup, Hend | eapply Hopen, Hend].
Qed.

(** On a stream that the peer closes after [n] more segments,
    [recv_array] returns the decoding of all the bytes of the stream, for
    every bound on the iterations from some bound on. *)
Lemma recv_array_total n :
  closes_after (peer_arrival p sent) k n ->
  exists fuel w',
    forall fuel', fuel <= fuel' ->
      TestPy.recv_array fuel' s w
      = Some (load (mkBytesIO (pend ++ stream (peer_arrival p sent) k n) 0), w').
Proof.
  intros [Hdata Hend].
  destruct (drain_terminates 1024 p sent ltac:(lia) n pend k None Hdata Hend)
    as (fuel & chunks & Hd).
  destruct (drain_stream 1024 p sent ltac:(lia) _ _ _ _ _ _ _ Hd)
    as (n' & Hn & _ & Hc & _ & _).
  assert (n' = n) as -> by lia.
  exists fuel. eexists. intros fuel' Hle.
  rewrite (recv_array_connected _ _ _ _ _ _ _ connected).
  rewrite (drain_mono 1024 _ _ ltac:(lia) _ fuel' _ _ _ Hd) by exact Hle.
  rewrite Hc. reflexivity.
Qed.

End LoopEnds.

(* ===================================================================== *)
(** * [exchange] *)
(* ===================================================================== *)

Lemma finish_since w evs :
  since w (finish w evs) = EvSocket (w_next w) :: evs ++ [EvClose (w_next w)].
Proof. apply since_app. reflexivity. Qed.

Lemma uses_recv s (chunks : list bytes) :
  Forall (fun ev => uses s ev = true) (map (EvRecv s 1024) chunks).
Proof.
  apply List.Forall_forall. intros ev Hin.
  apply in_map_iff in Hin as (z & <- & _). cbn. apply Nat.eqb_refl.
Qed.

(** Facts to run [exchange] on the identity matrix against the server
    that adds one. *)
Lemma save_eye2 :
  save (numpy := fragment_only) BytesIO_new (PyArr (eye 2))
  = Ret (mkBytesIO (encoding (eye 2)) 160).
Proof. vm_compute. reflexivity. Qed.

Lemma drain_plus_one_eye2 :
  drain 1024 3 (server plus_one 4096) (encoding (eye 2)) [] 0
  = Some ([plus_one (encoding (eye 2))], None, [], 1).
Proof. vm_compute. reflexivity. Qed.

Lemma load_plus_one_eye2 :
  load (numpy := fragment_only)
       (mkBytesIO (concat [plus_one (encoding (eye 2))]) 0)
  = Ret (PyArr (F8.array [2; 2]%N
                  (map F8.of_bits [0x4000000000000000; 0x3ff0000000000000;
                                   0x3ff0000000000000; 0x4000000000000000]%N))).
Proof. vm_compute. reflexivity. Qed.

Lemma exchange_eye2_plus_one :
  TestPy.exchange (numpy := fragment_only) 3 ("127.0.0.1"%string, 8080%Z)
    (PyArr (eye 2)) (world_of (server plus_one 4096))
  = Some (Ret (PyArr (F8.array [2; 2]%N
                        (map F8.of_bits [0x4000000000000000; 0x3ff0000000000000;
                                         0x3ff0000000000000; 0x4000000000000000]%N))),
          finish (world_of (server plus_one 4096))
            (EvConnect 0 ("127.0.0.1"%string, 8080%Z)
               :: EvSendall 0 (encoding (eye 2))
               :: map (EvRecv 0 1024) ([plus_one (encoding (eye 2))] ++ [[]]))).
Proof.
  rewrite exchange_run. cbv zeta.
  change (env_socket (world_of (server plus_one 4096))
            (w_next (world_of (server plus_one 4096)))) with (@None exn).
  change (env_peer (world_of (server plus_one 4096))
            (w_next (world_of (server plus_one 4096)))
            ("127.0.0.1"%string, 8080%Z)) with (server plus_one 4096).
  change (peer_connect (server plus_one 4096)) with (@None exn).
  rewrite save_eye2. cbn [bio_buf].
  change (peer_sendall (server plus_one 4096) (encoding (eye 2))) with Delivered.
  rewrite drain_plus_one_eye2, load_plus_one_eye2. reflexivity.
Qed.

Lemma refused_released w :
  (forall s sk, w_socks (refused w) !! s = Some sk -> w_socks w !! s = Some sk)
  /\ (w_socks w !! w_next w = None -> w_socks (refused w) = w_socks w)
  /\ since w (refused w) = [].
Proof.
  repeat split; [auto|]. unfold since, refused; cbn [w_trace]. apply drop_all.
Qed.

Lemma finish_released w evs :
  (forall s sk, w_socks (finish w evs) !! s = Some sk -> w_socks w !! s = Some sk)
  /\ (w_socks w !! w_next w = None -> w_socks (finish w evs) = w_socks w)
  /\ w_socks (finish w evs) !! w_next w = None.
Proof.
  unfold finish; cbn [w_socks]. repeat split.
  - intros s sk H. apply lookup_delete_Some in H. tauto.
  - apply delete_id.
  - apply lookup_delete_eq.
Qed.

Lemma exchange_refusing (A : pyval Empty_set) :
  TestPy.exchange (numpy := fragment_only) 3 ("127.0.0.1"%string, 8080%Z) A
    (world_of refusing)
  = Some (Raise (OSError 111),
          finish (world_of refusing) [EvConnect 0 ("127.0.0.1"%string, 8080%Z)]).
Proof. rewrite exchange_run. reflexivity. Qed.

(* ===================================================================== *)
(** * Encode, then decode *)
(* ===================================================================== *)

Section RoundTrip.
Context {Obj : Type} {numpy : Rest Obj}.

(** A run of [recv_array] that saw the end of the stream returns the
    decoding of the bytes received. *)
Lemma recv_array_decodes fuel s w r w' :
  TestPy.recv_array fuel s w = Some (r, w') ->
  In (EvRecv s 1024 []) (since w w') ->
  r = load (mkBytesIO (concat (received s (since w w'))) 0).
Proof.
  intros H Heof.
  destruct (recv_array_inv _ _ _ _ _ H)
    as (chunks & Hne & [[Ht Hr] | (e & Hr & Ht & _)]).
  - rewrite (since_app _ _ _ Ht), received_recv, concat_with_empty. exact Hr.
  - rewrite (since_app _ _ _ Ht) in Heof.
    destruct (recv_events_not_eof _ _ Hne Heof).
Qed.

Lemma load_saved (A : ndarray) (h : bytes) :
  wf_array A = true ->
  array_header (arr_dtype A) (arr_fortran A) (arr_shape A) = Ret h ->
  load (mkBytesIO (h ++ arr_data A) 0) = Ret (PyArr A).
Proof.
  intros Hwf Hh. unfold load. cbn [bio_pos bio_buf]. rewrite drop_0.
  pose proof (load_written_roundtrip allocates A h Hwf Hh) as Hload.
  destruct (h ++ arr_data A) as [|b z] eqn:E.
  - discriminate Hload.
  - rewrite Hload. reflexivity.
Qed.

End RoundTrip.

(* ===================================================================== *)
(** * The drivers *)
(* ===================================================================== *)

Section Drivers.
Context {Obj : Type} {numpy : Rest Obj}.

Lemma randn_run shape w :
  randn shape w = Some (Ret (drawn shape w), after_draw shape w).
Proof. reflexivity. Qed.

Lemma one_minus_eye2 :
  subtract (PyInt 1) (PyArr (eye 2)) = Ret (PyArr (Obj := Obj) coeye2).
Proof. reflexivity. Qed.

Lemma assert_plus_ones (w z : pyval Obj) (k : M unit) (v : World) :
  Net.bind (pure (subtract w z))
    (fun d => Net.bind (pure (allclose d (PyArr (ones [2; 2]%N))))
                (fun c => Net.bind (assert c) (fun _ => k))) v
  = match asserted (plus_ones w z) with
    | Ret _ => k v
    | Raise e => Some (Raise e, v)
    end.
Proof.
  unfold Net.bind, pure, plus_ones, asserted, res_bind, assert.
  destruct (subtract w z) as [d|e]; [|reflexivity].
  destruct (allclose d (PyArr (ones [2; 2]%N))) as [[|]|e]; reflexivity.
Qed.

(** [main] of [src/test.py], exchange by exchange. *)
Lemma test_main_run fuel w :
  TestPy.main fuel w =
    match TestPy.exchange fuel loopback (PyArr (eye 2)) w with
    | None => None
    | Some (Raise e, w1) => Some (Raise e, w1)
    | Some (Ret y1, w1) =>
        match asserted (plus_ones y1 (PyArr (eye 2))) with
        | Raise e => Some (Raise e, w1)
        | Ret _ =>
            match TestPy.exchange fuel loopback (PyArr coeye2) w1 with
            | None => None
            | Some (Raise e, w2) => Some (Raise e, w2)
            | Some (Ret y2, w2) =>
                match asserted (plus_ones y2 (PyArr coeye2)) with
                | Raise e => Some (Raise e, w2)
                | Ret _ =>
                    match TestPy.exchange fuel loopback
                            (PyArr (drawn [2; 2]%N w2)) (after_draw [2; 2]%N w2) with
                    | None => None
                    | Some (Raise e, w3) => Some (Raise e, w3)
                    | Some (Ret y3, w3) =>
                        Some (asserted (plus_ones y3 (PyArr (drawn [2; 2]%N w2))), w3)
                    end
                end
            end
        end
    end.
Proof.
  unfold TestPy.main. unfold Net.bind at 1. fold loopback.
  destruct (TestPy.exchange fuel loopback (PyArr (eye 2)) w)
    as [[[y1|e] w1]|]; [|reflexivity|reflexivity].
  rewrite assert_plus_ones.
  destruct (asserted (plus_ones y1 (PyArr (eye 2)))) as [[]|e]; [|reflexivity].
  unfold Net.bind at 1, pure at 1. rewrite one_minus_eye2.
  unfold Net.bind at 1.
  destruct (TestPy.exchange fuel loopback (PyArr coeye2) w1)
    as [[[y2|e] w2]|]; [|reflexivity|reflexivity].
  rewrite assert_plus_ones.
  destruct (asserted (plus_ones y2 (PyArr coeye2))) as [[]|e]; [|reflexivity].
  unfold Net.bind at 1. rewrite randn_run. unfold Net.bind at 1.
  destruct (TestPy.exchange fuel loopback (PyArr (drawn [2; 2]%N w2))
              (after_draw [2; 2]%N w2)) as [[[y3|e] w3]|];
    [|reflexivity|reflexivity].
  unfold Net.bind, pure, plus_ones, asserted, res_bind, assert, ret, raise.
  destruct (subtract y3 (PyArr (drawn [2; 2]%N w2))) as [d|e]; [|reflexivity].
  destruct (allclose d (PyArr (ones [2; 2]%N))) as [[|]|e]; reflexivity.
Qed.

(** [main] of [src/examples/client.py]. *)
Lemma client_main_run fuel w :
  ClientPy.main fuel w =
    match ClientPy.exchange fuel loopback
            (PyArr (drawn [1; 32]%N w)) (after_draw [1; 32]%N w) with
    | None => None
    | Some (Raise e, w1) => Some (Raise e, w1)
    | Some (Ret y, w1) => Some (row_of_zeros y, w1)
    end.
Proof.
  unfold ClientPy.main. unfold Net.bind at 1. rewrite randn_run.
  fold loopback. unfold Net.bind at 1.
  destruct (ClientPy.exchange fuel loopback (PyArr (drawn [1; 32]%N w))
              (after_draw [1; 32]%N w)) as [[[y|e] w1]|];
    [|reflexivity|reflexivity].
  unfold Net.bind, pure, row_of_zeros, asserted, res_bind, assert, ret, raise.
  destruct (shape_eq y [1; 10]%N) as [[|]|e]; try reflexivity.
  destruct (allclose y (PyFloat F8.zero)) as [[|]|e]; reflexivity.
Qed.

End Drivers.

Lemma asserted_ok (c : res bool) : asserted c = Ret tt <-> c = Ret true.
Proof. destruct c as [[|]|e]; cbn; split; congruence. Qed.

Lemma drawn_row_wf w : wf_array (drawn [1; 32]%N w) = true.
Proof. reflexivity. Qed.

Lemma forallb_id_map {A} (f g : A -> bool) (xs : list A) :
  (forall x, f x = g x) -> forallb id (map f xs) = forallb g xs.
Proof.
  intros Hfg. induction xs as [|x xs IH]; cbn; [reflexivity|].
  by rewrite IH, Hfg.
Qed.

Lemma isclose_zero (x : spec_float) :
  F8.isclose x F8.zero
  = SFleb (SFabs (F8.sub x F8.zero)) F8.atol || SFeqb x F8.zero.
Proof.
  unfold F8.isclose.
  change (F8.add F8.atol (F8.mul F8.rtol (SFabs F8.zero))) with F8.atol.
  change (F8.isfinite F8.zero) with true. rewrite andb_true_r. reflexivity.
Qed.

(* ===================================================================== *)
(** * Failures *)
(* ===================================================================== *)

Section Failures.
Context {Obj : Type} {numpy : Rest Obj}.

Lemma test_main_rounds fuel w :
  TestPy.main fuel w =
    match test_round fuel (PyArr (eye 2)) w with
    | Some (Ret _, w1) =>
        match test_round fuel (PyArr coeye2) w1 with
        | Some (Ret _, w2) =>
            test_round fuel (PyArr (drawn [2; 2]%N w2)) (after_draw [2; 2]%N w2)
        | other => other
        end
    | other => other
    end.
Proof.
  rewrite test_main_run. unfold test_round.
  destruct (TestPy.exchange fuel loopback (PyArr (eye 2)) w)
    as [[[y1|e] w1]|]; [|reflexivity|reflexivity].
  destruct (asserted (plus_ones y1 (PyArr (eye 2)))) as [[]|e]; [|reflexivity].
  destruct (TestPy.exchange fuel loopback (PyArr coeye2) w1)
    as [[[y2|e] w2]|]; [|reflexivity|reflexivity].
  destruct (asserted (plus_ones y2 (PyArr coeye2))) as [[]|e]; reflexivity.
Qed.

(** A connection that fails after [n] segments makes [exchange] raise. *)
Lemma exchange_reset fuel0 addr (A : pyval Obj) w f n e :
  env_socket w (w_next w) = None ->
  peer_connect (env_peer w (w_next w) addr) = None ->
  save BytesIO_new A = Ret f ->
  peer_sendall (env_peer w (w_next w) addr) (bio_buf f) = Delivered ->
  (forall i, i < n ->
     is_data (peer_arrival (env_peer w (w_next w) addr) (bio_buf f) i) = true) ->
  peer_arrival (env_peer w (w_next w) addr) (bio_buf f) n = Reset e ->
  exists fuel w',
    fuel0 <= fuel /\ TestPy.exchange fuel addr A w = Some (Raise e, w').
Proof.
  intros Hsock Hconn Hsave Hsend Hdata Hend.
  destruct (drain_terminates 1024 (env_peer w (w_next w) addr) (bio_buf f)
              ltac:(lia) n [] 0 (Some e) Hdata Hend) as (fuel & chunks & Hd).
  exists (fuel + fuel0). eexists. split; [lia|].
  rewrite exchange_run. cbv zeta. rewrite Hsock, Hconn, Hsave, Hsend.
  rewrite (drain_mono 1024 _ _ ltac:(lia) _ (fuel + fuel0) _ _ _ Hd) by lia. reflexivity.
Qed.

(** A reply that [np.load] rejects makes [exchange] raise. *)
Lemma exchange_undecodable fuel0 addr (A : pyval Obj) w f n e :
  env_socket w (w_next w) = None ->
  peer_connect (env_peer w (w_next w) addr) = None ->
  save BytesIO_new A = Ret f ->
  peer_sendall (env_peer w (w_next w) addr) (bio_buf f) = Delivered ->
  closes_after (peer_arrival (env_peer w (w_next w) addr) (bio_buf f)) 0 n ->
  load (mkBytesIO
          (stream (peer_arrival (env_peer w (w_next w) addr) (bio_buf f)) 0 n) 0)
  = Raise e ->
  exists fuel w',
    fuel0 <= fuel /\ TestPy.exchange fuel addr A w = Some (Raise e, w').
Proof.
  intros Hsock Hconn Hsave Hsend [Hdata Hend] Hload.
  destruct (drain_terminates 1024 (env_peer w (w_next w) addr) (bio_buf f)
              ltac:(lia) n [] 0 None Hdata Hend) as (fuel & chunks & Hd).
  destruct (drain_stream 1024 _ _ ltac:(lia) _ _ _ _ _ _ _ Hd)
    as (n' & Hn & _ & Hc & _ & _).
  assert (n' = n) as -> by lia. cbn [app] in Hc.
  exists (fuel + fuel0). eexists. split; [lia|].
  rewrite exchange_run. cbv zeta. rewrite Hsock, Hconn, Hsave, Hsend.
  rewrite (drain_mono 1024 _ _ ltac:(lia) _ (fuel + fuel0) _ _ _ Hd) by lia.
  rewrite Hc, Hload. reflexivity.
Qed.

(** When the peer accepts, takes the request and closes its stream after
    [n] segments, [exchange] returns the decoding of the stream. *)
Lemma exchange_total addr (A : pyval Obj) w f n :
  env_socket w (w_next w) = None ->
  peer_connect (env_peer w (w_next w) addr) = None ->
  save BytesIO_new A = Ret f ->
  peer_sendall (env_peer w (w_next w) addr) (bio_buf f) = Delivered ->
  closes_after (peer_arrival (env_peer w (w_next w) addr) (bio_buf f)) 0 n ->
  exists fuel w',
    forall fuel', fuel <= fuel' ->
      TestPy.exchange fuel' addr A w
      = Some (load (mkBytesIO
                      (stream (peer_arrival (env_peer w (w_next w) addr)
                                 (bio_buf f)) 0 n) 0), w').
Proof.
  intros Hsock Hconn Hsave Hsend [Hdata Hend].
  destruct (drain_terminates 1024 (env_peer w (w_next w) addr) (bio_buf f)
              ltac:(lia) n [] 0 None Hdata Hend) as (fuel & chunks & Hd).
  destruct (drain_stream 1024 _ _ ltac:(lia) _ _ _ _ _ _ _ Hd)
    as (n' & Hn & _ & Hc & _ & _).
  assert (n' = n) as -> by lia. cbn [app] in Hc.
  exists fuel. eexists. intros fuel' Hle.
  rewrite exchange_run. cbv zeta. rewrite Hsock, Hconn, Hsave, Hsend.
  rewrite (drain_mono 1024 _ _ ltac:(lia) _ fuel' _ _ _ Hd) by exact Hle.
  rewrite Hc. reflexivity.
Qed.

(** The bound on the iterations is only a bound: a call that comes back
    comes back the same under every larger bound. *)
Lemma exchange_fuel_mono fuel fuel' addr (A : pyval Obj) w x :
  TestPy.exchange fuel addr A w = Some x -> fuel <= fuel' ->
  TestPy.exchange fuel' addr A w = Some x.
Proof.
  intros H Hle. rewrite exchange_run in *. cbv zeta in *.
  destruct (env_socket w (w_next w)); [exact H|].
  destruct (peer_connect (env_peer w (w_next w) addr)); [exact H|].
  destruct (save BytesIO_new A) as [f|]; [|exact H].
  destruct (peer_sendall (env_peer w (w_next w) addr) (bio_buf f));
    [|exact H|exact H].
  destruct (drain 1024 fuel (env_peer w (w_next w) addr) (bio_buf f) [] 0)
    as [r|] eqn:Hd; [|discriminate].
  rewrite (drain_mono 1024 _ _ ltac:(lia) _ fuel' _ _ _ Hd) by exact Hle.
  exact H.
Qed.

Lemma test_round_fuel_mono fuel fuel' (z : pyval Obj) w x :
  test_round fuel z w = Some x -> fuel <= fuel' ->
  test_round fuel' z w = Some x.
Proof.
  unfold test_round. intros H Hle.
  destruct (TestPy.exchange fuel loopback z w) as [r|] eqn:He; [|discriminate].
  rewrite (exchange_fuel_mono _ _ _ _ _ _ He Hle). exact H.
Qed.

Lemma test_main_fuel_mono fuel fuel' w x :
  TestPy.main fuel w = Some x -> fuel <= fuel' -> TestPy.main fuel' w = Some x.
Proof.
  rewrite !test_main_rounds. intros H Hle.
  destruct (test_round fuel (PyArr (eye 2)) w) as [[[[]|e] w1]|] eqn:H1;
    [| |discriminate];
    rewrite (test_round_fuel_mono _ _ _ _ _ H1 Hle); [|exact H].
  destruct (test_round fuel (PyArr coeye2) w1) as [[[[]|e] w2]|] eqn:H2;
    [| |discriminate];
    rewrite (test_round_fuel_mono _ _ _ _ _ H2 Hle); [|exact H].
  apply (test_round_fuel_mono _ _ _ _ _ H Hle).
Qed.

Lemma client_main_fuel_mono fuel fuel' w x :
  ClientPy.main fuel w = Some x -> fuel <= fuel' -> ClientPy.main fuel' w = Some x.
Proof.
  rewrite !client_main_run. intros H Hle.
  destruct (ClientPy.exchange fuel loopback (PyArr (drawn [1; 32]%N w))
              (after_draw [1; 32]%N w)) as [r|] eqn:He; [|discriminate].
  rewrite (exchange_fuel_mono _ _ _ _ _ _ He Hle : ClientPy.exchange _ _ _ _ = _).
  exact H.
Qed.

End Failures.

(* ===================================================================== *)
(** * Over the wire and back *)
(* ===================================================================== *)

(** Against a peer that sends back what it receives, [exchange] returns
    the array it was given. *)
Lemma exchange_echo {Obj : Type} {numpy : Rest Obj} addr (A : ndarray) w :
  wf_array A = true ->
  env_socket w (w_next w) = None ->
  echoes (env_peer w (w_next w) addr) ->
  exists fuel w',
    forall fuel', fuel <= fuel' ->
      TestPy.exchange fuel' addr (PyArr (Obj := Obj) A) w
      = Some (Ret (PyArr A), w').
Proof.
  intros Hwf Hsock [Hconn Hecho].
  assert (Halloc : allocatable (arr_dtype A) (arr_shape A) = true).
  { unfold wf_array, valid_header in Hwf.
    rewrite !andb_true_iff in Hwf. tauto. }
  destruct (array_header_valid _ (arr_fortran A) _ Halloc)
    as (len & tail & _ & Hh).
  pose proof (np_save_new A _ Hh) as Hsave.
  destruct (Hecho (magic x01 x00 ++ len
                     ++ header_dict (arr_dtype A) (arr_fortran A) (arr_shape A)
                     ++ tail ++ arr_data A)) as (Hsend & n & Hclose & Hstream).
  rewrite <- !app_assoc in Hsave.
  destruct (exchange_total (numpy := numpy) addr (PyArr A) w _ n Hsock Hconn
              Hsave Hsend Hclose) as (fuel & w' & Hrun).
  exists fuel, w'. intros fuel' Hle. rewrite (Hrun fuel' Hle).
  cbn [bio_buf]. rewrite Hstream.
  pose proof (load_saved (numpy := numpy) A _ Hwf Hh) as Hload.
  rewrite <- !app_assoc in Hload. rewrite Hload. reflexivity.
Qed.

(* ===================================================================== *)
(** * The properties of the scripts *)
(* ===================================================================== *)

(** C1.  For an array [A] that numpy can hold, of any numeric dtype and
    shape: the buffer [send_array] hands to [sendall] is the [.npy]
    encoding of [A], a header describing dtype and shape followed by the
    raw element bytes; decoding that buffer the way [recv_array] does
    gives [A] back, and so does [recv_array] on every stream that
    delivers exactly these bytes, however they are cut into chunks. *)
Theorem encode_decode_identity :
  forall (Obj : Type) (numpy : Rest Obj)
         (send_array : nat -> pyval Obj -> M unit)
         (recv_array : nat -> nat -> M (pyval Obj)),
    (send_array = TestPy.send_array /\ recv_array = TestPy.recv_array)
    \/ (send_array = ClientPy.send_array /\ recv_array = ClientPy.recv_array) ->
    forall A : ndarray,
      wf_array A = true ->
      exists h : bytes,
        array_header (arr_dtype A) (arr_fortran A) (arr_shape A) = Ret h
        /\ (forall s, send_array s (PyArr A) = sendall s (h ++ arr_data A))
        /\ load (bio_seek (bio_write BytesIO_new (h ++ arr_data A)) 0)
           = Ret (PyArr A)
        /\ (forall fuel s w r w',
               recv_array fuel s w = Some (r, w') ->
               In (EvRecv s 1024 []) (since w w') ->
               concat (received s (since w w')) = h ++ arr_data A ->
               r = Ret (PyArr A)).
Proof.
  intros Obj numpy send_array recv_array Hfun A Hwf.
  assert (send_array = TestPy.send_array /\ recv_array = TestPy.recv_array)
    as [-> ->].
  { destruct Hfun as [[-> ->] | [-> ->]]; split; reflexivity. }
  assert (Halloc : allocatable (arr_dtype A) (arr_shape A) = true).
  { unfold wf_array, valid_header in Hwf.
    rewrite !andb_true_iff in Hwf. tauto. }
  destruct (array_header_valid _ (arr_fortran A) _ Halloc)
    as (len & tail & _ & Hh).
  eexists. split; [exact Hh|].
  pose proof (load_saved A _ Hwf Hh) as Hload.
  split; [|split].
  - intros s. rewrite send_array_run. cbn [save].
    rewrite (np_save_new A _ Hh). reflexivity.
  - rewrite bio_write_new. exact Hload.
  - intros fuel s w r w' Hrun Heof Hbytes.
    rewrite (recv_array_decodes _ _ _ _ _ Hrun Heof), Hbytes. exact Hload.
Qed.

(** The identity matrix of the test driver. *)
Lemma encode_decode_identity_witness :
  exists h : bytes,
    array_header (float64 little) false [2; 2]%N = Ret h
    /\ (forall s, TestPy.send_array (numpy := fragment_only) s (PyArr (eye 2))
                  = sendall s (h ++ arr_data (eye 2)))
    /\ load (bio_seek (bio_write BytesIO_new (h ++ arr_data (eye 2))) 0)
       = Ret (PyArr (eye 2))
    /\ (forall fuel s w r w',
           TestPy.recv_array (numpy := fragment_only) fuel s w = Some (r, w') ->
           In (EvRecv s 1024 []) (since w w') ->
           concat (received s (since w w')) = h ++ arr_data (eye 2) ->
           r = Ret (PyArr (eye 2))).
Proof.
  apply (encode_decode_identity Empty_set fragment_only
           TestPy.send_array TestPy.recv_array
           (or_introl (conj eq_refl eq_refl)) (eye 2)).
  vm_compute. reflexivity.
Defined.

(** The identity matrix, echoed in segments of 100 bytes. *)
Example exchange_echo_eye2 :
  fst <$> TestPy.exchange (numpy := fragment_only) 3 loopback (PyArr (eye 2))
            (world_of (server (fun sent => sent) 100))
  = Some (Ret (PyArr (eye 2))).
Proof. vm_compute. reflexivity. Qed.

(** C2.  A call of [exchange] that returns has done exactly this, in this
    order: created a stream socket, connected it to [addr], sent the whole
    encoding of [A] in one [sendall], received chunks until the empty
    one, and closed the socket; what it returns is the decoding of the
    received bytes, as [np.load] gives it.  And it does return whenever
    the socket can be created, the peer accepts, takes the request and
    closes its stream after finitely many segments: the result is then
    the decoding of the stream. *)
Theorem exchange_sequence :
  forall (Obj : Type) (numpy : Rest Obj)
         (exchange : nat -> address -> pyval Obj -> M (pyval Obj)),
    exchange = TestPy.exchange \/ exchange = ClientPy.exchange ->
    (forall fuel addr A w r w',
        exchange fuel addr A w = Some (Ret r, w') ->
        exists (f : BytesIO) (chunks : list bytes),
          save BytesIO_new A = Ret f
          /\ Forall (fun z => z <> []) chunks
          /\ since w w'
             = [EvSocket (w_next w); EvConnect (w_next w) addr;
                EvSendall (w_next w) (bio_buf f)]
               ++ map (EvRecv (w_next w) 1024) (chunks ++ [[]])
               ++ [EvClose (w_next w)]
          /\ load (mkBytesIO (concat chunks) 0) = Ret r)
    /\ (forall addr A w f n,
           env_socket w (w_next w) = None ->
           peer_connect (env_peer w (w_next w) addr) = None ->
           save BytesIO_new A = Ret f ->
           peer_sendall (env_peer w (w_next w) addr) (bio_buf f) = Delivered ->
           closes_after (peer_arrival (env_peer w (w_next w) addr) (bio_buf f)) 0 n ->
           exists fuel w',
             forall fuel', fuel <= fuel' ->
               exchange fuel' addr A w
               = Some (load (mkBytesIO
                               (stream (peer_arrival (env_peer w (w_next w) addr)
                                          (bio_buf f)) 0 n) 0), w')).
Proof.
  intros Obj numpy exchange Hfun.
  assert (exchange = TestPy.exchange) as ->.
  { destruct Hfun as [-> | ->]; reflexivity. }
  split.
  - intros fuel addr A w r w' H'.
    rewrite exchange_run in H'. cbv zeta in H'.
    destruct (env_socket w (w_next w)); [discriminate|].
    destruct (peer_connect (env_peer w (w_next w) addr)); [discriminate|].
    destruct (save BytesIO_new A) as [f|]; [|discriminate].
    destruct (peer_sendall (env_peer w (w_next w) addr) (bio_buf f));
      try discriminate.
    destruct (drain 1024 fuel (env_peer w (w_next w) addr) (bio_buf f) [] 0)
      as [[[[chunks [e|]] pd] k1]|] eqn:Hd; try discriminate.
    injection H' as Hload <-.
    exists f, chunks. split; [reflexivity|].
    split; [eapply drain_chunks_nonempty, Hd; lia|].
    split; [|exact Hload].
    rewrite finish_since. reflexivity.
  - intros addr A w f n. apply exchange_total.
Qed.

(** The identity matrix against a server that adds one. *)
Lemma exchange_sequence_witness :
  exists r w' (f : BytesIO) (chunks : list bytes),
    TestPy.exchange (numpy := fragment_only) 3 ("127.0.0.1"%string, 8080%Z)
      (PyArr (eye 2)) (world_of (server plus_one 4096)) = Some (Ret r, w')
    /\ save BytesIO_new (PyArr (eye 2)) = Ret f
    /\ Forall (fun z => z <> []) chunks
    /\ since (world_of (server plus_one 4096)) w'
       = [EvSocket 0; EvConnect 0 ("127.0.0.1"%string, 8080%Z);
          EvSendall 0 (bio_buf f)]
         ++ map (EvRecv 0 1024) (chunks ++ [[]]) ++ [EvClose 0]
    /\ load (mkBytesIO (concat chunks) 0) = Ret r.
Proof.
  destruct (proj1 (exchange_sequence Empty_set fragment_only TestPy.exchange
                     (or_introl eq_refl))
              _ _ _ _ _ _ exchange_eye2_plus_one)
    as (f & chunks & Hsave & Hne & Hsince & Hload).
  do 2 eexists. exists f, chunks.
  split; [exact exchange_eye2_plus_one|].
  repeat split; assumption.
Defined.

(** C3.  [recv_array] writes every chunk [recv] returns, in the order of
    arrival, into one in-memory buffer, until a [recv] returns no bytes;
    its result is then the decoding of the whole buffer.  The only other
    way it comes back is with the exception of a [recv] that raised.  And
    it does come back: on a connected socket whose peer closes the stream
    after finitely many segments, [recv_array] returns the decoding of
    all the bytes of the stream, whatever waited in the kernel first. *)
Theorem recv_array_accumulates :
  forall (Obj : Type) (numpy : Rest Obj) (recv_array : nat -> nat -> M (pyval Obj)),
    recv_array = TestPy.recv_array \/ recv_array = ClientPy.recv_array ->
    (forall fuel s w r w',
        recv_array fuel s w = Some (r, w') ->
        exists chunks : list bytes,
          Forall (fun z => z <> []) chunks
          /\ ((since w w' = map (EvRecv s 1024) (chunks ++ [[]])
               /\ r = load (mkBytesIO (concat chunks) 0))
              \/ (exists e, r = Raise e
                    /\ since w w' = map (EvRecv s 1024) chunks
                    /\ recv s 1024 w' = Some (Raise e, w'))))
    /\ (forall s w p sent pend k n,
           w_socks w !! s = Some (mkSock (Some p) sent pend k) ->
           closes_after (peer_arrival p sent) k n ->
           exists fuel w',
             forall fuel', fuel <= fuel' ->
               recv_array fuel' s w
               = Some (load (mkBytesIO
                               (pend ++ stream (peer_arrival p sent) k n) 0), w')).
Proof.
  intros Obj numpy recv_array Hfun.
  assert (recv_array = TestPy.recv_array) as ->.
  { destruct Hfun as [-> | ->]; reflexivity. }
  split.
  - intros fuel s w r w' H.
    destruct (recv_array_inv _ _ _ _ _ H) as (chunks & Hne & Hcases).
    exists chunks. split; [exact Hne|].
    destruct Hcases as [[Ht Hr] | (e & Hr & Ht & Hrecv)].
    + left. split; [by apply since_app | exact Hr].
    + right. exists e. repeat split; [exact Hr | by apply since_app | exact Hrecv].
  - intros s w p sent pend k n Hs Hclose.
    eapply recv_array_total; eassumption.
Qed.

(** On a reply of 2500 bytes that arrive in one segment, [recv_array]
    reads three chunks and the empty one. *)
Lemma recv_array_accumulates_witness :
  exists r w',
    TestPy.recv_array (numpy := fragment_only) 5 0
      (connected_to (server (fun _ => replicate 2500 x2a) 4000)) = Some (r, w')
    /\ exists chunks : list bytes,
        Forall (fun z => z <> []) chunks
        /\ ((since (connected_to (server (fun _ => replicate 2500 x2a) 4000)) w'
             = map (EvRecv 0 1024) (chunks ++ [[]])
             /\ r = load (mkBytesIO (concat chunks) 0))
            \/ (exists e, r = Raise e
                  /\ since (connected_to (server (fun _ => replicate 2500 x2a) 4000)) w'
                     = map (EvRecv 0 1024) chunks
                  /\ recv 0 1024 w' = Some (Raise e, w'))).
Proof.
  set (p := server (fun _ => replicate 2500 x2a) 4000).
  assert (Hd : drain 1024 5 p [] [] 0
               = Some ([replicate 1024 x2a; replicate 1024 x2a; replicate 452 x2a],
                       None, [], 1))
    by (vm_compute; reflexivity).
  assert (Hs : w_socks (connected_to p) !! 0 = Some (mkSock (Some p) [] [] 0))
    by reflexivity.
  pose proof (recv_array_connected (numpy := fragment_only) 5 0 _ _ _ _ _ Hs)
    as Hrun.
  rewrite Hd in Hrun.
  eexists; eexists; split; [exact Hrun|].
  eapply (proj1 (recv_array_accumulates Empty_set fragment_only TestPy.recv_array
                   (or_introl eq_refl))).
  exact Hrun.
Defined.

(** C4.  [main] of [src/test.py] succeeds exactly when each of its three
    exchanges returns and the response [w] to the input [z] passes
    [np.allclose(w - z, np.ones((2, 2)))]; the inputs are the 2x2
    identity matrix, its complement [1 - np.eye(2)], and a 2x2 matrix
    drawn by [np.random.randn]. *)
Theorem test_main_succeeds_iff :
  forall (Obj : Type) (numpy : Rest Obj) fuel w w',
    TestPy.main fuel w = Some (Ret tt, w')
    <-> exists (y1 : pyval Obj) w1 (y2 : pyval Obj) w2 (y3 : pyval Obj),
          TestPy.exchange fuel loopback (PyArr (eye 2)) w = Some (Ret y1, w1)
          /\ plus_ones y1 (PyArr (eye 2)) = Ret true
          /\ subtract (PyInt 1) (PyArr (eye 2)) = Ret (PyArr (Obj := Obj) coeye2)
          /\ TestPy.exchange fuel loopback (PyArr coeye2) w1 = Some (Ret y2, w2)
          /\ plus_ones y2 (PyArr coeye2) = Ret true
          /\ randn [2; 2]%N w2 = Some (Ret (drawn [2; 2]%N w2), after_draw [2; 2]%N w2)
          /\ TestPy.exchange fuel loopback (PyArr (drawn [2; 2]%N w2))
               (after_draw [2; 2]%N w2) = Some (Ret y3, w')
          /\ plus_ones y3 (PyArr (drawn [2; 2]%N w2)) = Ret true.
Proof.
  intros Obj numpy fuel w w'. rewrite test_main_run. split.
  - intros H.
    destruct (TestPy.exchange fuel loopback (PyArr (eye 2)) w)
      as [[[y1|e] w1]|]; try discriminate.
    destruct (asserted (plus_ones y1 (PyArr (eye 2)))) as [[]|e] eqn:H1;
      try discriminate.
    destruct (TestPy.exchange fuel loopback (PyArr coeye2) w1)
      as [[[y2|e] w2]|] eqn:E2; try discriminate.
    destruct (asserted (plus_ones y2 (PyArr coeye2))) as [[]|e] eqn:H2;
      try discriminate.
    destruct (TestPy.exchange fuel loopback (PyArr (drawn [2; 2]%N w2))
                (after_draw [2; 2]%N w2)) as [[[y3|e] w3]|] eqn:H3;
      try discriminate.
    injection H as H <-.
    exists y1, w1, y2, w2, y3.
    rewrite asserted_ok in H1, H2, H.
    repeat split; first [assumption | reflexivity].
  - intros (y1 & w1 & y2 & w2 & y3 & -> & H1 & _ & -> & H2 & _ & -> & H3).
    rewrite H1, H2, H3. reflexivity.
Qed.

(** A response to the identity matrix that is the matrix plus one passes,
    and the matrix itself does not. *)
Example plus_ones_examples :
  plus_ones (numpy := fragment_only)
    (PyArr (F8.array [2; 2]%N
              (map F8.of_bits [0x4000000000000000; 0x3ff0000000000000;
                               0x3ff0000000000000; 0x4000000000000000]%N)))
    (PyArr (eye 2)) = Ret true
  /\ plus_ones (numpy := fragment_only) (PyArr (eye 2)) (PyArr (eye 2)) = Ret false.
Proof. split; vm_compute; reflexivity. Qed.

(** Against a server that adds one to every element, [main] of
    [src/test.py] succeeds; against one that sends the request back, its
    first assertion fails. *)
Example test_main_examples :
  fst <$> TestPy.main (numpy := fragment_only) 3 (world_of (server plus_one 4096))
  = Some (Ret tt)
  /\ fst <$> TestPy.main (numpy := fragment_only) 3
               (world_of (server (fun sent => sent) 4096))
     = Some (Raise AssertionError).
Proof. repeat split; vm_compute; reflexivity. Qed.

(** C5.  [main] of [src/examples/client.py] draws one 1x32 float64
    array, sends it in one exchange, and succeeds exactly when the
    exchange returns a [y] with [y.shape == (1, 10)] and
    [np.allclose(y, 0.)].  For a float64 array [a], [np.allclose(a, 0.)]
    says that every element [x] has [abs(x - 0.) <= 1e-08], with the
    subtraction and the comparison of binary64. *)
Theorem client_main_succeeds_iff :
  forall (Obj : Type) (numpy : Rest Obj) fuel w w',
    (ClientPy.main fuel w = Some (Ret tt, w')
     <-> exists y : pyval Obj,
           ClientPy.exchange fuel loopback (PyArr (drawn [1; 32]%N w))
             (after_draw [1; 32]%N w) = Some (Ret y, w')
           /\ shape_eq y [1; 10]%N = Ret true
           /\ allclose y (PyFloat F8.zero) = Ret true)
    /\ randn [1; 32]%N w = Some (Ret (drawn [1; 32]%N w), after_draw [1; 32]%N w)
    /\ arr_shape (drawn [1; 32]%N w) = [1; 32]%N
    /\ arr_dtype (drawn [1; 32]%N w) = float64 little
    /\ (forall a : ndarray,
           shape_eq (PyArr (Obj := Obj) a) [1; 10]%N = Ret true
           <-> arr_shape a = [1; 10]%N)
    /\ (forall (a : ndarray) shape xs,
           view (PyArr (Obj := Obj) a) = Some (Grid shape xs) ->
           allclose (PyArr a) (PyFloat F8.zero)
           = Ret (forallb (fun x => SFleb (SFabs (F8.sub x F8.zero)) F8.atol
                                    || SFeqb x F8.zero) xs)).
Proof.
  intros Obj numpy fuel w w'. split; [|repeat split].
  - rewrite client_main_run. split.
    + intros H.
      destruct (ClientPy.exchange fuel loopback (PyArr (drawn [1; 32]%N w))
                  (after_draw [1; 32]%N w)) as [[[y|e] w1]|]; try discriminate.
      injection H as H <-. exists y. split; [reflexivity|].
      unfold row_of_zeros in H.
      destruct (shape_eq y [1; 10]%N) as [[|]|e]; try discriminate.
      cbn in H. apply asserted_ok in H. auto.
    + intros (y & -> & Hs & Hz). unfold row_of_zeros. rewrite Hs, Hz. reflexivity.
  - unfold shape_eq, shape_eqb. intros H. injection H as H.
    destruct (decide (arr_shape a = [1; 10]%N)); [assumption | discriminate].
  - intros H. unfold shape_eq, shape_eqb. rewrite decide_True by exact H.
    reflexivity.
  - intros a shape xs Hview. unfold allclose. rewrite Hview.
    cbn [view elementwise]. f_equal.
    apply forallb_id_map. intros x. apply isclose_zero.
Qed.

(** A float64 row of ten zeros is read as ten zeros, and passes. *)
Lemma client_main_succeeds_iff_witness :
  view (Obj := Empty_set) (PyArr (F8.array [1; 10]%N (replicate 10 F8.zero)))
  = Some (Grid [1; 10]%N (replicate 10 F8.zero))
  /\ allclose (numpy := fragment_only)
       (PyArr (F8.array [1; 10]%N (replicate 10 F8.zero))) (PyFloat F8.zero)
     = Ret true.
Proof.
  assert (Hview : view (Obj := Empty_set)
                    (PyArr (F8.array [1; 10]%N (replicate 10 F8.zero)))
                  = Some (Grid [1; 10]%N (replicate 10 F8.zero)))
    by (vm_compute; reflexivity).
  split; [exact Hview|].
  destruct (client_main_succeeds_iff Empty_set fragment_only 0
              (world_of silent) (world_of silent)) as (_ & _ & _ & _ & _ & Hclose).
  rewrite (Hclose _ _ _ Hview). vm_compute. reflexivity.
Defined.

(** Against a server that answers a row of ten zeros, [main] of
    [src/examples/client.py] succeeds; against one that adds one to the
    request, the shape assertion fails. *)
Example client_main_examples :
  fst <$> ClientPy.main (numpy := fragment_only) 3 (world_of (server ten_zeros 4096))
  = Some (Ret tt)
  /\ fst <$> ClientPy.main (numpy := fragment_only) 3 (world_of (server plus_one 4096))
     = Some (Raise AssertionError).
Proof. repeat split; vm_compute; reflexivity. Qed.

(** C6.  Nothing in either script catches an exception.  Inside
    [exchange], a failure to create the socket, a refused connection, an
    array that cannot be encoded, a failing [sendall], a failing [recv]
    and a reply that [np.load] rejects each make [exchange] raise that
    very exception, after closing the socket and without a second
    attempt.  Inside [main], an exception of [exchange], an exception of
    the asserted expression and a false assertion ([AssertionError]) each
    make [main] raise, in the world as the failing step left it: nothing
    is tried afterwards. *)
Theorem failures_propagate :
  forall (Obj : Type) (numpy : Rest Obj),
    (* exchange *)
    (forall exchange : nat -> address -> pyval Obj -> M (pyval Obj),
        exchange = TestPy.exchange \/ exchange = ClientPy.exchange ->
        forall fuel addr A w e,
          (env_socket w (w_next w) = Some e ->
           exchange fuel addr A w = Some (Raise e, refused w))
          /\ (env_socket w (w_next w) = None ->
              (peer_connect (env_peer w (w_next w) addr) = Some e ->
               exchange fuel addr A w
               = Some (Raise e, finish w [EvConnect (w_next w) addr]))
              /\ (peer_connect (env_peer w (w_next w) addr) = None ->
                  (save BytesIO_new A = Raise e ->
                   exchange fuel addr A w
                   = Some (Raise e, finish w [EvConnect (w_next w) addr]))
                  /\ (forall f,
                        save BytesIO_new A = Ret f ->
                        (peer_sendall (env_peer w (w_next w) addr) (bio_buf f)
                         = Failed e ->
                         exchange fuel addr A w
                         = Some (Raise e,
                                 finish w [EvConnect (w_next w) addr;
                                           EvSendall (w_next w) (bio_buf f)]))
                        /\ (peer_sendall (env_peer w (w_next w) addr) (bio_buf f)
                            = Delivered ->
                            forall n,
                              (forall i, i < n ->
                                 is_data (peer_arrival (env_peer w (w_next w) addr)
                                            (bio_buf f) i) = true) ->
                              (peer_arrival (env_peer w (w_next w) addr)
                                 (bio_buf f) n = Reset e ->
                               exists fuel' w',
                                 fuel <= fuel'
                                 /\ exchange fuel' addr A w = Some (Raise e, w'))
                              /\ (peer_arrival (env_peer w (w_next w) addr)
                                    (bio_buf f) n = Eof ->
                                  load (mkBytesIO
                                          (stream (peer_arrival
                                                     (env_peer w (w_next w) addr)
                                                     (bio_buf f)) 0 n) 0)
                                  = Raise e ->
                                  exists fuel' w',
                                    fuel <= fuel'
                                    /\ exchange fuel' addr A w
                                       = Some (Raise e, w')))))))
    (* one exchange of test.py and the assertion after it *)
    /\ (forall fuel (z : pyval Obj) w e w',
           (TestPy.exchange fuel loopback z w = Some (Raise e, w') ->
            test_round fuel z w = Some (Raise e, w'))
           /\ (forall y,
                  TestPy.exchange fuel loopback z w = Some (Ret y, w') ->
                  (subtract y z = Raise e ->
                   test_round fuel z w = Some (Raise e, w'))
                  /\ (forall d,
                         subtract y z = Ret d ->
                         (allclose d (PyArr (ones [2; 2]%N)) = Raise e ->
                          test_round fuel z w = Some (Raise e, w'))
                         /\ (allclose d (PyArr (ones [2; 2]%N)) = Ret false ->
                             test_round fuel z w
                             = Some (Raise AssertionError, w')))))
    (* main of test.py *)
    /\ (forall fuel w e w',
           (test_round fuel (PyArr (eye 2)) w = Some (Raise e, w') ->
            TestPy.main fuel w = Some (Raise e, w'))
           /\ (forall w1,
                  test_round fuel (PyArr (eye 2)) w = Some (Ret tt, w1) ->
                  (test_round fuel (PyArr coeye2) w1 = Some (Raise e, w') ->
                   TestPy.main fuel w = Some (Raise e, w'))
                  /\ (forall w2,
                         test_round fuel (PyArr coeye2) w1 = Some (Ret tt, w2) ->
                         test_round fuel (PyArr (drawn [2; 2]%N w2))
                           (after_draw [2; 2]%N w2) = Some (Raise e, w') ->
                         TestPy.main fuel w = Some (Raise e, w'))))
    (* main of client.py *)
    /\ (forall fuel w e w',
           (ClientPy.exchange fuel loopback (PyArr (drawn [1; 32]%N w))
              (after_draw [1; 32]%N w) = Some (Raise e, w') ->
            ClientPy.main fuel w = Some (Raise e, w'))
           /\ (forall y : pyval Obj,
                  ClientPy.exchange fuel loopback (PyArr (drawn [1; 32]%N w))
                    (after_draw [1; 32]%N w) = Some (Ret y, w') ->
                  (shape_eq y [1; 10]%N = Raise e ->
                   ClientPy.main fuel w = Some (Raise e, w'))
                  /\ (shape_eq y [1; 10]%N = Ret false ->
                      ClientPy.main fuel w = Some (Raise AssertionError, w'))
                  /\ (shape_eq y [1; 10]%N = Ret true ->
                      (allclose y (PyFloat F8.zero) = Raise e ->
                       ClientPy.main fuel w = Some (Raise e, w'))
                      /\ (allclose y (PyFloat F8.zero) = Ret false ->
                          ClientPy.main fuel w
                          = Some (Raise AssertionError, w'))))).
Proof.
  intros Obj numpy. split; [|split; [|split]].
  - intros exchange Hfun fuel addr A w e.
    assert (exchange = TestPy.exchange) as ->.
    { destruct Hfun as [-> | ->]; reflexivity. }
    split.
    { intros Hsock. rewrite exchange_run. cbv zeta. by rewrite Hsock. }
    intros Hsock. split.
    { intros Hconn. rewrite exchange_run. cbv zeta. by rewrite Hsock, Hconn. }
    intros Hconn. split.
    { intros Hsave. rewrite exchange_run. cbv zeta.
      by rewrite Hsock, Hconn, Hsave. }
    intros f Hsave. split.
    { intros Hsend. rewrite exchange_run. cbv zeta.
      by rewrite Hsock, Hconn, Hsave, Hsend. }
    intros Hsend n Hdata. split.
    + intros Hend.
      eapply exchange_reset; eassumption.
    + intros Hend Hload.
      eapply exchange_undecodable; try eassumption. split; assumption.
  - intros fuel z w e w'. unfold test_round. split.
    { by intros ->. }
    intros y ->. unfold plus_ones. split.
    { by intros ->. }
    intros d ->. cbn [res_bind]. split; by intros ->.
  - intros fuel w e w'. rewrite test_main_rounds. split.
    { by intros ->. }
    intros w1 ->. split.
    { by intros ->. }
    intros w2 ->. auto.
  - intros fuel w e w'. rewrite client_main_run. split.
    { by intros ->. }
    intros y ->. unfold row_of_zeros. split; [|split].
    + by intros ->.
    + by intros ->.
    + intros ->. cbn [asserted res_bind]. split; by intros ->.
Qed.

(** A refused connection ends both drivers with the [OSError] of
    [connect], after one attempt. *)
Lemma failures_propagate_witness :
  TestPy.main (numpy := fragment_only) 3 (world_of refusing)
  = Some (Raise (OSError 111),
          finish (world_of refusing) [EvConnect 0 loopback])
  /\ ClientPy.main (numpy := fragment_only) 3 (world_of refusing)
     = Some (Raise (OSError 111),
             finish (after_draw [1; 32]%N (world_of refusing))
                    [EvConnect 0 loopback]).
Proof.
  destruct (failures_propagate Empty_set fragment_only)
    as (Hexchange & Hround & Htest & Hclient).
  split.
  - destruct (Hexchange TestPy.exchange (or_introl eq_refl) 3 loopback
                (PyArr (eye 2)) (world_of refusing) (OSError 111))
      as [_ Hopen].
    destruct (Hopen eq_refl) as [Hrefused _].
    apply (proj1 (Htest 3 (world_of refusing) (OSError 111) _)).
    apply (proj1 (Hround 3 (PyArr (eye 2)) (world_of refusing) (OSError 111) _)).
    exact (Hrefused eq_refl).
  - destruct (Hexchange ClientPy.exchange (or_intror eq_refl) 3 loopback
                (PyArr (drawn [1; 32]%N (world_of refusing)))
                (after_draw [1; 32]%N (world_of refusing)) (OSError 111))
      as [_ Hopen].
    destruct (Hopen eq_refl) as [Hrefused _].
    apply (proj1 (Hclient 3 (world_of refusing) (OSError 111) _)).
    exact (Hrefused eq_refl).
Defined.


(** C7.  However a call of [exchange] comes back, with a value or with an
    exception raised by [connect], [send_array] or [recv_array], the
    socket it created is closed: no socket is open afterwards that was
    not open before, and the events of the call are the creation of the
    socket, uses of that socket, and its closing as the last one.  (When
    the socket cannot even be created, nothing is opened and nothing
    happens.) *)
Theorem exchange_releases_socket :
  forall (Obj : Type) (numpy : Rest Obj)
         (exchange : nat -> address -> pyval Obj -> M (pyval Obj)),
    exchange = TestPy.exchange \/ exchange = ClientPy.exchange ->
    forall fuel addr A w r w',
      exchange fuel addr A w = Some (r, w') ->
      (forall s sk, w_socks w' !! s = Some sk -> w_socks w !! s = Some sk)
      /\ (w_socks w !! w_next w = None -> w_socks w' = w_socks w)
      /\ ((since w w' = []
           /\ exists e, r = Raise e /\ env_socket w (w_next w) = Some e)
          \/ (exists evs,
                 since w w' = EvSocket (w_next w) :: evs ++ [EvClose (w_next w)]
                 /\ Forall (fun ev => uses (w_next w) ev = true) evs
                 /\ w_socks w' !! w_next w = None)).
Proof.
  intros Obj numpy exchange Hfun fuel addr A w r w' H.
  assert (H' : TestPy.exchange fuel addr A w = Some (r, w')).
  { destruct Hfun as [-> | ->]; exact H. }
  clear H Hfun. rewrite exchange_run in H'. cbv zeta in H'.
  assert (Hfin : forall evs,
    Forall (fun ev => uses (w_next w) ev = true) evs ->
    w' = finish w evs ->
    (forall s sk, w_socks w' !! s = Some sk -> w_socks w !! s = Some sk)
    /\ (w_socks w !! w_next w = None -> w_socks w' = w_socks w)
    /\ ((since w w' = []
         /\ exists e, r = Raise e /\ env_socket w (w_next w) = Some e)
        \/ (exists evs,
               since w w' = EvSocket (w_next w) :: evs ++ [EvClose (w_next w)]
               /\ Forall (fun ev => uses (w_next w) ev = true) evs
               /\ w_socks w' !! w_next w = None))).
  { intros evs Huses ->.
    destruct (finish_released w evs) as (Ha & Hb & Hc).
    split; [exact Ha|]. split; [exact Hb|].
    right. exists evs. rewrite finish_since. auto. }
  assert (Hconn : uses (w_next w) (EvConnect (w_next w) addr) = true)
    by apply Nat.eqb_refl.
  assert (Hsend : forall z, uses (w_next w) (EvSendall (w_next w) z) = true)
    by (intros z; apply Nat.eqb_refl).
  destruct (env_socket w (w_next w)) as [e|] eqn:Hsock.
  { injection H' as <- <-.
    destruct (refused_released w) as (Ha & Hb & Hc).
    split; [exact Ha|]. split; [exact Hb|]. left. eauto. }
  destruct (peer_connect (env_peer w (w_next w) addr)).
  { injection H' as <- <-. eapply Hfin; [|reflexivity]. auto. }
  destruct (save BytesIO_new A) as [f|].
  2:{ injection H' as <- <-. eapply Hfin; [|reflexivity]. auto. }
  destruct (peer_sendall (env_peer w (w_next w) addr) (bio_buf f)).
  - destruct (drain 1024 fuel (env_peer w (w_next w) addr) (bio_buf f) [] 0)
      as [[[[chunks [e|]] pd] k1]|]; [| |discriminate].
    + injection H' as <- <-. eapply Hfin; [|reflexivity].
      repeat constructor; auto using uses_recv.
    + injection H' as <- <-. eapply Hfin; [|reflexivity].
      repeat constructor; auto using uses_recv.
  - injection H' as <- <-. eapply Hfin; [|reflexivity]. auto.
  - discriminate.
Qed.

(** A refused connection: [exchange] raises, and the socket is closed. *)
Lemma exchange_releases_socket_witness :
  exists w',
    ClientPy.exchange (numpy := fragment_only) 3 ("127.0.0.1"%string, 8080%Z)
      (PyArr (eye 2)) (world_of refusing) = Some (Raise (OSError 111), w')
    /\ w_socks w' = w_socks (world_of refusing)
    /\ since (world_of refusing) w'
       = [EvSocket 0; EvConnect 0 ("127.0.0.1"%string, 8080%Z); EvClose 0].
Proof.
  destruct (exchange_releases_socket Empty_set fragment_only ClientPy.exchange
              (or_intror eq_refl) 3 ("127.0.0.1"%string, 8080%Z) (PyArr (eye 2))
              (world_of refusing) _ _ (exchange_refusing (PyArr (eye 2))))
    as (_ & Hsame & _).
  eexists. split; [exact (exchange_refusing (PyArr (eye 2)))|].
  split; [apply Hsame; reflexivity | apply finish_since].
Defined.

(** A connection that is reset after the first segment: [exchange]
    raises the error of [recv], and no socket stays open. *)
Example exchange_reset_closes :
  (fun x => (fst x, map_to_list (w_socks (snd x))))
    <$> TestPy.exchange (numpy := fragment_only) 3 loopback (PyArr (eye 2))
          (world_of (resetting [x2a]))
  = Some (Raise (OSError 104), []).
Proof. vm_compute. reflexivity. Qed.

(** C8 (as written) fails: the loop of [recv_array] is also left when a
    [recv] raises.  On a connection that is reset after its first
    segment the loop is over after two calls of [recv], with the error
    of the second, and in no run of it has a [recv] returned an empty
    chunk. *)
Lemma recv_loop_left_without_empty_chunk :
  (exists fuel w',
      TestPy.recv_loop fuel 0 BytesIO_new (connected_to (resetting [x2a]))
      = Some (Raise (OSError 104), w'))
  /\ ~ (exists fuel r w',
           TestPy.recv_loop fuel 0 BytesIO_new (connected_to (resetting [x2a]))
           = Some (r, w')
           /\ In (EvRecv 0 1024 []) (since (connected_to (resetting [x2a])) w')).
Proof.
  assert (Hd : forall fuel,
    drain 1024 fuel (resetting [x2a]) [] [] 0 = None
    \/ drain 1024 fuel (resetting [x2a]) [] [] 0
       = Some ([[x2a]], Some (OSError 104), [], 1)).
  { intros [|[|fuel]]; [left|left|right]; reflexivity. }
  split.
  - exists 2. eexists.
    rewrite (recv_loop_drain 2 0 BytesIO_new (connected_to (resetting [x2a]))
               (resetting [x2a]) [] [] 0 eq_refl).
    reflexivity.
  - intros (fuel & r & w' & H & Hin).
    rewrite (recv_loop_drain fuel 0 BytesIO_new (connected_to (resetting [x2a]))
               (resetting [x2a]) [] [] 0 eq_refl) in H.
    destruct (Hd fuel) as [E|E]; rewrite E in H; [discriminate H|].
    injection H as _ <-.
    rewrite (since_app _ _ _ (upd_trace _ _ _ _)) in Hin.
    destruct Hin as [Hin|[]]. discriminate Hin.
Qed.

(** C8 (amended).  The loop of [recv_array] is left in two ways and no
    other.  On a connected socket it comes to its end, and the decoding
    follows, if and only if after finitely many segments a [recv]
    returns the empty chunk: the peer has closed the stream.  It is left
    with an exception [e] if and only if after finitely many segments a
    [recv] raises [e]; on a socket that is closed or not connected the
    first [recv] does.  When the stream is finite and closed by the
    peer, [recv_array] comes back with the decoding of all its bytes.
    There is no timeout: on a stream that neither ends nor fails, no
    number of iterations makes the loop or [recv_array] come back. *)
Theorem recv_loop_left_at_eof_or_by_exception :
  forall (Obj : Type) (numpy : Rest Obj)
         (recv_loop : nat -> nat -> BytesIO -> M BytesIO)
         (recv_array : nat -> nat -> M (pyval Obj)),
    (recv_loop = TestPy.recv_loop /\ recv_array = TestPy.recv_array)
    \/ (recv_loop = ClientPy.recv_loop /\ recv_array = ClientPy.recv_array) ->
    forall s w,
      (w_socks w !! s = None ->
       forall fuel f,
         recv_loop (S fuel) s f w = Some (Raise (OSError EBADF), w))
      /\ (forall sent pend k,
             w_socks w !! s = Some (mkSock None sent pend k) ->
             forall fuel f,
               recv_loop (S fuel) s f w = Some (Raise (OSError ENOTCONN), w))
      /\ (forall p sent pend k,
             w_socks w !! s = Some (mkSock (Some p) sent pend k) ->
             (forall f,
                 (exists fuel f' w', recv_loop fuel s f w = Some (Ret f', w'))
                 <-> (exists n, closes_after (peer_arrival p sent) k n))
             /\ (forall f e,
                    (exists fuel w', recv_loop fuel s f w = Some (Raise e, w'))
                    <-> (exists n,
                            (forall i, i < n ->
                               is_data (peer_arrival p sent (k + i)) = true)
                            /\ peer_arrival p sent (k + n) = Reset e))
             /\ (forall n,
                    closes_after (peer_arrival p sent) k n ->
                    exists fuel w',
                      forall fuel', fuel <= fuel' ->
                        recv_array fuel' s w
                        = Some (load (mkBytesIO
                                        (pend ++ stream (peer_arrival p sent) k n) 0),
                                w'))
             /\ ((forall n, peer_arrival p sent (k + n) <> Eof) ->
                 (forall n e, peer_arrival p sent (k + n) <> Reset e) ->
                 forall fuel f,
                   recv_loop fuel s f w = None /\ recv_array fuel s w = None)).
Proof.
  intros Obj numpy recv_loop recv_array Hfun s w.
  assert (recv_loop = TestPy.recv_loop /\ recv_array = TestPy.recv_array)
    as [-> ->].
  { destruct Hfun as [[-> ->] | [-> ->]]; split; reflexivity. }
  split; [|split].
  - intros Hs fuel f. rewrite recv_loop_S. unfold Net.bind, recv.
    rewrite Hs. reflexivity.
  - intros sent pend k Hs fuel f. rewrite recv_loop_S. unfold Net.bind, recv.
    rewrite Hs. reflexivity.
  - intros p sent pend k Hs. split; [|split; [|split]].
    + intros f. eapply recv_loop_returns_iff, Hs.
    + intros f e. eapply recv_loop_raises_iff, Hs.
    + intros n. eapply recv_array_total, Hs.
    + eapply recv_never_returns, Hs.
Qed.

(** A peer that sends 2500 bytes and closes: the loop ends, and
    [recv_array] comes back with the decoding of the 2500 bytes. *)
Lemma recv_loop_left_at_eof_or_by_exception_witness :
  (forall f,
      (exists fuel f' w',
          TestPy.recv_loop fuel 0 f
            (connected_to (server (fun _ => replicate 2500 x2a) 4000))
          = Some (Ret f', w'))
      <-> (exists n,
              closes_after
                (peer_arrival (server (fun _ => replicate 2500 x2a) 4000) []) 0 n))
  /\ (exists fuel w',
         forall fuel', fuel <= fuel' ->
           TestPy.recv_array (numpy := fragment_only) fuel' 0
             (connected_to (server (fun _ => replicate 2500 x2a) 4000))
           = Some (load (mkBytesIO
                           ([] ++ stream
                                    (peer_arrival
                                       (server (fun _ => replicate 2500 x2a) 4000) [])
                                    0 1) 0), w')).
Proof.
  destruct (recv_loop_left_at_eof_or_by_exception Empty_set fragment_only
              TestPy.recv_loop TestPy.recv_array
              (or_introl (conj eq_refl eq_refl))
              0 (connected_to (server (fun _ => replicate 2500 x2a) 4000)))
    as (_ & _ & Hconn).
  destruct (Hconn (server (fun _ => replicate 2500 x2a) 4000) [] [] 0 eq_refl)
    as (Hiff & _ & Hret & _).
  split; [exact Hiff|].
  apply Hret. split.
  - intros i Hi. assert (i = 0) as -> by lia. reflexivity.
  - vm_compute. reflexivity.
Defined.

(** A peer that never sends and never closes: [recv_array] hangs. *)
Example recv_array_hangs_on_silence :
  forall fuel,
    TestPy.recv_array (numpy := fragment_only) fuel 0 (connected_to silent) = None.
Proof.
  intros fuel.
  assert (Hopen : forall n, peer_arrival silent [] (0 + n) <> Eof)
    by (intros n; discriminate).
  assert (Hup : forall n e, peer_arrival silent [] (0 + n) <> Reset e)
    by (intros n e; discriminate).
  apply (recv_never_returns 0 (connected_to silent) silent [] [] 0 eq_refl
           Hopen Hup fuel BytesIO_new).
Qed.

(** C9.  [send_array], [recv_array] and [exchange] of [src/test.py] and
    of [src/examples/client.py] are the same functions: on every socket,
    address, array and world they do the same and return the same.  The
    [main] drivers differ: there is a world in which they end
    differently. *)
Theorem shared_core_equivalent :
  forall (Obj : Type) (numpy : Rest Obj),
    (forall s (A : pyval Obj) w,
        TestPy.send_array s A w = ClientPy.send_array s A w)
    /\ (forall fuel s w,
          TestPy.recv_array (numpy := numpy) fuel s w = ClientPy.recv_array fuel s w)
    /\ (forall fuel addr (A : pyval Obj) w,
          TestPy.exchange fuel addr A w = ClientPy.exchange fuel addr A w)
    /\ (exists fuel w,
          TestPy.main (numpy := numpy) fuel w <> ClientPy.main fuel w).
Proof.
  intros Obj numpy. repeat split.
  exists 0, world_without_sockets.
  assert (Ht : option_map (fun x => w_drawn (snd x))
                 (TestPy.main (numpy := numpy) 0 world_without_sockets) = Some 0)
    by reflexivity.
  assert (Hc : option_map (fun x => w_drawn (snd x))
                 (ClientPy.main (numpy := numpy) 0 world_without_sockets) = Some 32)
    by reflexivity.
  intros Heq. rewrite Heq, Hc in Ht. discriminate.
Qed.

(** C10.  What [recv_array] returns depends on the bytes of the stream
    only, not on the chunks they came in: two runs that both saw the end
    of the stream and whose chunks concatenate to the same bytes return
    the same result, an array or the exception of the decoder. *)
Theorem recv_array_chunking_irrelevant :
  forall (Obj : Type) (numpy : Rest Obj) (recv_array : nat -> nat -> M (pyval Obj)),
    recv_array = TestPy.recv_array \/ recv_array = ClientPy.recv_array ->
    forall fuel1 s1 w1 r1 w1' fuel2 s2 w2 r2 w2',
      recv_array fuel1 s1 w1 = Some (r1, w1') ->
      recv_array fuel2 s2 w2 = Some (r2, w2') ->
      In (EvRecv s1 1024 []) (since w1 w1') ->
      In (EvRecv s2 1024 []) (since w2 w2') ->
      concat (received s1 (since w1 w1')) = concat (received s2 (since w2 w2')) ->
      r1 = r2.
Proof.
  intros Obj numpy recv_array Hfun fuel1 s1 w1 r1 w1' fuel2 s2 w2 r2 w2'
    H1 H2 Heof1 Heof2 Hsame.
  assert (Hinv : forall fuel s w r w',
    recv_array fuel s w = Some (r, w') ->
    In (EvRecv s 1024 []) (since w w') ->
    r = load (mkBytesIO (concat (received s (since w w'))) 0)).
  { intros fuel s w r w' H Heof.
    assert (H' : TestPy.recv_array fuel s w = Some (r, w')).
    { destruct Hfun as [-> | ->]; exact H. }
    destruct (recv_array_inv _ _ _ _ _ H')
      as (chunks & Hne & [[Ht Hr] | (e & Hr & Ht & _)]).
    - rewrite (since_app _ _ _ Ht), received_recv, concat_with_empty. exact Hr.
    - rewrite (since_app _ _ _ Ht) in Heof.
      destruct (recv_events_not_eof _ _ Hne Heof). }
  rewrite (Hinv _ _ _ _ _ H1 Heof1), (Hinv _ _ _ _ _ H2 Heof2), Hsame.
  reflexivity.
Qed.

(** The same 2500 bytes, once in a single segment on socket [0] and once
    in segments of 700 bytes: the results are equal. *)
Lemma recv_array_chunking_irrelevant_witness :
  exists r1 w1' r2 w2',
    TestPy.recv_array (numpy := fragment_only) 5 0
      (connected_to (server (fun _ => replicate 2500 x2a) 4000)) = Some (r1, w1')
    /\ TestPy.recv_array (numpy := fragment_only) 9 0
         (connected_to (server (fun _ => replicate 2500 x2a) 700)) = Some (r2, w2')
    /\ length (received 0 (since (connected_to (server (fun _ => replicate 2500 x2a) 4000)) w1')) = 4
    /\ length (received 0 (since (connected_to (server (fun _ => replicate 2500 x2a) 700)) w2')) = 5
    /\ r1 = r2.
Proof.
  set (p1 := server (fun _ => replicate 2500 x2a) 4000).
  set (p2 := server (fun _ => replicate 2500 x2a) 700).
  assert (Hd1 : drain 1024 5 p1 [] [] 0
                = Some ([replicate 1024 x2a; replicate 1024 x2a; replicate 452 x2a],
                        None, [], 1))
    by (vm_compute; reflexivity).
  assert (Hd2 : drain 1024 9 p2 [] [] 0
                = Some ([replicate 700 x2a; replicate 700 x2a; replicate 700 x2a;
                         replicate 400 x2a], None, [], 4))
    by (vm_compute; reflexivity).
  pose proof (recv_array_connected (numpy := fragment_only) 5 0
                (connected_to p1) p1 [] [] 0 eq_refl) as Hrun1.
  pose proof (recv_array_connected (numpy := fragment_only) 9 0
                (connected_to p2) p2 [] [] 0 eq_refl) as Hrun2.
  rewrite Hd1 in Hrun1. rewrite Hd2 in Hrun2.
  do 4 eexists. split; [exact Hrun1|]. split; [exact Hrun2|].
  split; [|split].
  - rewrite (since_app _ _ _ (upd_trace _ _ _ _)).
    rewrite <- (map_app (EvRecv 0 1024) _ [[]]), received_recv. reflexivity.
  - rewrite (since_app _ _ _ (upd_trace _ _ _ _)).
    rewrite <- (map_app (EvRecv 0 1024) _ [[]]), received_recv. reflexivity.
  - eapply (recv_array_chunking_irrelevant Empty_set fragment_only TestPy.recv_array);
      [left; reflexivity | exact Hrun1 | exact Hrun2 | | | ];
      rewrite !(since_app _ _ _ (upd_trace _ _ _ _)).
    + apply in_app_iff. right. left. reflexivity.
    + apply in_app_iff. right. left. reflexivity.
    + rewrite <- !(map_app (EvRecv 0 1024) _ [[]]), !received_recv.
      vm_compute. reflexivity.
Defined.

(* ===================================================================== *)
(** * Further properties of the scripts *)
(* ===================================================================== *)

(** ** [send_array] *)

Section SendFacts.
Context {Obj : Type} {numpy : Rest Obj}.

Lemma send_array_effect s (A : pyval Obj) w r w' :
  TestPy.send_array s A w = Some (r, w') ->
  (forall k sk',
      w_socks w' !! k = Some sk' ->
      exists sk, w_socks w !! k = Some sk
                 /\ sk_peer sk' = sk_peer sk
                 /\ sk_pending sk' = sk_pending sk
                 /\ sk_arrived sk' = sk_arrived sk)
  /\ (forall k, w_socks w' !! k = None -> w_socks w !! k = None)
  /\ ((since w w' = [] /\ exists e, r = Raise e)
      \/ (exists f, save BytesIO_new A = Ret f
                    /\ since w w' = [EvSendall s (bio_buf f)])).
Proof.
  rewrite send_array_run. intros H.
  assert (Hsame : forall e, r = Raise e -> w' = w ->
    (forall k sk',
        w_socks w' !! k = Some sk' ->
        exists sk, w_socks w !! k = Some sk
                   /\ sk_peer sk' = sk_peer sk
                   /\ sk_pending sk' = sk_pending sk
                   /\ sk_arrived sk' = sk_arrived sk)
    /\ (forall k, w_socks w' !! k = None -> w_socks w !! k = None)
    /\ ((since w w' = [] /\ exists e, r = Raise e)
        \/ (exists f, save BytesIO_new A = Ret f
                      /\ since w w' = [EvSendall s (bio_buf f)]))).
  { intros e -> ->. split; [eauto 6|]. split; [auto|].
    left. split; [apply drop_all | eauto]. }
  destruct (save BytesIO_new A) as [f|e] eqn:Hsave.
  2:{ injection H as <- <-. eapply Hsame; reflexivity. }
  destruct (w_socks w !! s) as [[[p|] sent pend k0]|] eqn:Hs.
  - rewrite (sendall_connected _ _ _ _ _ _ _ Hs) in H.
    assert (Hupd : forall sent', w' = upd w s (mkSock (Some p) sent' pend k0)
                                         [EvSendall s (bio_buf f)] ->
      (forall k sk',
          w_socks w' !! k = Some sk' ->
          exists sk, w_socks w !! k = Some sk
                     /\ sk_peer sk' = sk_peer sk
                     /\ sk_pending sk' = sk_pending sk
                     /\ sk_arrived sk' = sk_arrived sk)
      /\ (forall k, w_socks w' !! k = None -> w_socks w !! k = None)
      /\ ((since w w' = [] /\ exists e, r = Raise e)
          \/ (exists f0, Ret f = Ret f0
                         /\ since w w' = [EvSendall s (bio_buf f0)]))).
    { intros sent' ->. unfold upd; cbn [w_socks]. split; [|split].
      - intros k sk' Hk. destruct (decide (s = k)) as [<-|Hne].
        + rewrite lookup_insert_eq in Hk. injection Hk as <-.
          exists (mkSock (Some p) sent pend k0). auto.
        + rewrite lookup_insert_ne in Hk by exact Hne. eauto.
      - intros k Hk. destruct (decide (s = k)) as [<-|Hne].
        + rewrite lookup_insert_eq in Hk. discriminate.
        + by rewrite lookup_insert_ne in Hk.
      - right. exists f. split; [reflexivity|]. by apply since_app. }
    destruct (peer_sendall p (bio_buf f)); [| |discriminate];
      injection H as <- <-; eapply Hupd; reflexivity.
  - unfold sendall in H. rewrite Hs in H. cbn [sk_peer] in H.
    injection H as <- <-. eapply Hsame; reflexivity.
  - unfold sendall in H. rewrite Hs in H.
    injection H as <- <-. eapply Hsame; reflexivity.
Qed.

(** What [send_array] does, by the state of the array and of the
    socket. *)
Lemma send_array_outcome s (A : pyval Obj) w :
  (forall e, save BytesIO_new A = Raise e ->
             TestPy.send_array s A w = Some (Raise e, w))
  /\ (forall f,
         save BytesIO_new A = Ret f ->
         (w_socks w !! s = None ->
          TestPy.send_array s A w = Some (Raise (OSError EBADF), w))
         /\ (forall sent pend k,
                w_socks w !! s = Some (mkSock None sent pend k) ->
                TestPy.send_array s A w = Some (Raise (OSError EPIPE), w))
         /\ (forall p sent pend k,
                w_socks w !! s = Some (mkSock (Some p) sent pend k) ->
                TestPy.send_array s A w
                = match peer_sendall p (bio_buf f) with
                  | Delivered =>
                      Some (Ret tt,
                            upd w s (mkSock (Some p) (sent ++ bio_buf f) pend k)
                                [EvSendall s (bio_buf f)])
                  | Failed e =>
                      Some (Raise e,
                            upd w s (mkSock (Some p) sent pend k)
                                [EvSendall s (bio_buf f)])
                  | Stalled => None
                  end)).
Proof.
  rewrite send_array_run. split.
  - intros e ->. reflexivity.
  - intros f ->. split; [|split].
    + intros Hs. unfold sendall. rewrite Hs. reflexivity.
    + intros sent pend k Hs. unfold sendall. rewrite Hs. reflexivity.
    + intros p sent pend k Hs. rewrite (sendall_connected _ _ _ _ _ _ _ Hs).
      destruct (peer_sendall p (bio_buf f)); reflexivity.
Qed.

End SendFacts.

(** X1.  [send_array] encodes [A] and hands the whole encoding to the
    socket in a single [sendall].  An array that cannot be encoded makes
    it raise the exception of [np.save], and a socket [s] that is closed
    or not connected the [OSError] of [sendall], in both cases with
    nothing sent and nothing changed.  On a connected socket the outcome
    is that of the one [sendall]: delivered, and [send_array] returns
    with the encoding added to what the peer has been sent; failed, and
    it raises that failure; stalled, and it never returns.  Whenever it
    comes back it has opened and closed no socket and has left alone
    what every socket has received. *)
Theorem send_array_single_sendall :
  forall (Obj : Type) (numpy : Rest Obj) (send_array : nat -> pyval Obj -> M unit),
    send_array = TestPy.send_array \/ send_array = ClientPy.send_array ->
    forall s A w,
      (forall e, save BytesIO_new A = Raise e ->
                 send_array s A w = Some (Raise e, w))
      /\ (forall f,
             save BytesIO_new A = Ret f ->
             (w_socks w !! s = None ->
              send_array s A w = Some (Raise (OSError EBADF), w))
             /\ (forall sent pend k,
                    w_socks w !! s = Some (mkSock None sent pend k) ->
                    send_array s A w = Some (Raise (OSError EPIPE), w))
             /\ (forall p sent pend k,
                    w_socks w !! s = Some (mkSock (Some p) sent pend k) ->
                    send_array s A w
                    = match peer_sendall p (bio_buf f) with
                      | Delivered =>
                          Some (Ret tt,
                                upd w s (mkSock (Some p) (sent ++ bio_buf f) pend k)
                                    [EvSendall s (bio_buf f)])
                      | Failed e =>
                          Some (Raise e,
                                upd w s (mkSock (Some p) sent pend k)
                                    [EvSendall s (bio_buf f)])
                      | Stalled => None
                      end))
      /\ (forall r w',
             send_array s A w = Some (r, w') ->
             (forall k sk',
                 w_socks w' !! k = Some sk' ->
                 exists sk, w_socks w !! k = Some sk
                            /\ sk_peer sk' = sk_peer sk
                            /\ sk_pending sk' = sk_pending sk
                            /\ sk_arrived sk' = sk_arrived sk)
             /\ (forall k, w_socks w' !! k = None -> w_socks w !! k = None)
             /\ ((since w w' = [] /\ exists e, r = Raise e)
                 \/ (exists f, save BytesIO_new A = Ret f
                               /\ since w w' = [EvSendall s (bio_buf f)]))).
Proof.
  intros Obj numpy send_array Hfun s A w.
  assert (send_array = TestPy.send_array) as ->.
  { destruct Hfun as [-> | ->]; reflexivity. }
  destruct (send_array_outcome s A w) as [Hraise Hsent].
  split; [exact Hraise|]. split; [exact Hsent|].
  intros r w'. apply send_array_effect.
Qed.

(** The identity matrix on a connected socket: one [sendall] of its 160
    bytes, after which the peer has been sent exactly these. *)
Lemma send_array_single_sendall_witness :
  exists w',
    TestPy.send_array (numpy := fragment_only) 0 (PyArr (eye 2)) (connected_to echo)
    = Some (Ret tt, w')
    /\ since (connected_to echo) w' = [EvSendall 0 (encoding (eye 2))]
    /\ w_socks w' !! 0 = Some (mkSock (Some echo) (encoding (eye 2)) [] 0).
Proof.
  destruct (send_array_single_sendall Empty_set fragment_only TestPy.send_array
              (or_introl eq_refl) 0 (PyArr (eye 2)) (connected_to echo))
    as (_ & Hsent & _).
  destruct (Hsent _ save_eye2) as (_ & _ & Hconn).
  pose proof (Hconn echo [] [] 0 eq_refl) as Hrun.
  eexists. split; [exact Hrun|]. split.
  - apply since_app, upd_trace.
  - apply upd_lookup.
Defined.

(** ** [recv_array] *)

Lemma drain_chunks_bounded bufsize p sent fuel pend k chunks oe pend' k' :
  drain bufsize fuel p sent pend k = Some (chunks, oe, pend', k') ->
  Forall (fun z => length z <= bufsize) chunks.
Proof.
  revert pend k chunks. induction fuel as [|fuel IH]; intros pend k chunks H;
    [discriminate|].
  cbn [drain] in H.
  assert (Hmore : forall avail k0,
    match drain bufsize fuel p sent (drop bufsize avail) k0 with
    | Some (chunks0, e, pend0, k1) => Some (take bufsize avail :: chunks0, e, pend0, k1)
    | None => None
    end = Some (chunks, oe, pend', k') ->
    Forall (fun z => length z <= bufsize) chunks).
  { intros avail k0 Hm.
    destruct (drain bufsize fuel p sent (drop bufsize avail) k0)
      as [[[[cs e0] pd] k1]|] eqn:E; [|discriminate].
    injection Hm as <- -> -> ->. constructor.
    - rewrite length_take. lia.
    - eapply IH, E. }
  destruct pend as [|b pend]; [|eapply Hmore, H].
  destruct (peer_arrival p sent k) as [b bs| |e|].
  - eapply Hmore, H.
  - injection H as <- _ _ _. constructor.
  - injection H as <- _ _ _. constructor.
  - discriminate.
Qed.

Section RecvFacts.
Context {Obj : Type} {numpy : Rest Obj}.

Lemma recv_array_reads fuel s w r w' :
  TestPy.recv_array fuel s w = Some (r, w') ->
  Forall (fun z => length z <= 1024) (received s (since w w'))
  /\ (In (EvRecv s 1024 []) (since w w') ->
      exists sk, w_socks w' !! s = Some sk /\ sk_pending sk = []).
Proof.
  intros H.
  destruct (w_socks w !! s) as [[[p|] sent pend k]|] eqn:Hs.
  - rewrite (recv_array_connected _ _ _ _ _ _ _ Hs) in H.
    destruct (drain 1024 fuel p sent pend k) as [[[[cs oe] pd] k1]|] eqn:Hd;
      [|discriminate].
    injection H as <- <-.
    destruct (drain_stream 1024 p sent ltac:(lia) _ _ _ _ _ _ _ Hd)
      as (n & -> & -> & _ & _ & _).
    rewrite (since_app _ _ _ (upd_trace _ _ _ _)). split.
    + pose proof (drain_chunks_bounded _ _ _ _ _ _ _ _ _ _ Hd) as Hb.
      destruct oe as [e|].
      * by rewrite app_nil_r, received_recv.
      * change [EvRecv s 1024 []] with (map (EvRecv s 1024) [[]]).
        rewrite <- map_app, received_recv.
        apply Forall_app. split; [exact Hb|].
        constructor; [cbn; lia | constructor].
    + intros _. eexists. split; [apply upd_lookup | reflexivity].
  - destruct fuel as [|fuel]; [discriminate|].
    unfold TestPy.recv_array in H. unfold Net.bind at 1 in H.
    rewrite recv_loop_S in H. unfold Net.bind at 1, recv in H.
    rewrite Hs in H. cbn [sk_peer] in H. injection H as <- <-.
    unfold since. rewrite drop_all. split; [constructor | intros []].
  - destruct fuel as [|fuel]; [discriminate|].
    unfold TestPy.recv_array in H. unfold Net.bind at 1 in H.
    rewrite recv_loop_S in H. unfold Net.bind at 1, recv in H.
    rewrite Hs in H. injection H as <- <-.
    unfold since. rewrite drop_all. split; [constructor | intros []].
Qed.

End RecvFacts.

Lemma recv_2500_connected :
  TestPy.recv_array (numpy := fragment_only) 5 0
    (connected_to (server (fun _ => replicate 2500 x2a) 4000))
  = Some (load (mkBytesIO
                  (concat [replicate 1024 x2a; replicate 1024 x2a;
                           replicate 452 x2a]) 0),
          upd (connected_to (server (fun _ => replicate 2500 x2a) 4000)) 0
              (mkSock (Some (server (fun _ => replicate 2500 x2a) 4000)) [] [] 1)
              (map (EvRecv 0 1024)
                   [replicate 1024 x2a; replicate 1024 x2a; replicate 452 x2a]
                 ++ [EvRecv 0 1024 []])).
Proof.
  set (p := server (fun _ => replicate 2500 x2a) 4000).
  assert (Hd : drain 1024 5 p [] [] 0
               = Some ([replicate 1024 x2a; replicate 1024 x2a; replicate 452 x2a],
                       None, [], 1))
    by (vm_compute; reflexivity).
  rewrite (recv_array_connected (numpy := fragment_only) 5 0 (connected_to p)
             p [] [] 0 eq_refl).
  rewrite Hd. reflexivity.
Qed.

(** X2.  [recv_array] never takes more than 1024 bytes in one [recv],
    and when it has seen the end of the stream nothing that arrived is
    left unread in the socket. *)
Theorem recv_array_reads_all_in_small_chunks :
  forall (Obj : Type) (numpy : Rest Obj) (recv_array : nat -> nat -> M (pyval Obj)),
    recv_array = TestPy.recv_array \/ recv_array = ClientPy.recv_array ->
    forall fuel s w r w',
      recv_array fuel s w = Some (r, w') ->
      Forall (fun z => length z <= 1024) (received s (since w w'))
      /\ (In (EvRecv s 1024 []) (since w w') ->
          exists sk, w_socks w' !! s = Some sk /\ sk_pending sk = []).
Proof.
  intros Obj numpy recv_array Hfun fuel s w r w' H.
  apply (recv_array_reads fuel s w r w').
  destruct Hfun as [-> | ->]; exact H.
Qed.

(** A segment of 2500 bytes is read in chunks of 1024, 1024 and 452. *)
Lemma recv_array_reads_all_in_small_chunks_witness :
  exists r w',
    TestPy.recv_array (numpy := fragment_only) 5 0
      (connected_to (server (fun _ => replicate 2500 x2a) 4000)) = Some (r, w')
    /\ map length
         (received 0 (since (connected_to (server (fun _ => replicate 2500 x2a) 4000)) w'))
       = [1024; 1024; 452; 0]
    /\ Forall (fun z => length z <= 1024)
         (received 0 (since (connected_to (server (fun _ => replicate 2500 x2a) 4000)) w')).
Proof.
  do 2 eexists. split; [exact recv_2500_connected|]. split.
  - rewrite (since_app _ _ _ (upd_trace _ _ _ _)).
    rewrite <- (map_app (EvRecv 0 1024) _ [[]]), received_recv.
    vm_compute. reflexivity.
  - apply (recv_array_reads_all_in_small_chunks Empty_set fragment_only
             TestPy.recv_array (or_introl eq_refl) _ _ _ _ _ recv_2500_connected).
Defined.

(** ** Replies that end early, fail or carry too much *)

Section ReplyFacts.
Context {Obj : Type} {numpy : Rest Obj}.

Lemma exchange_empty_reply fuel addr (A : pyval Obj) w f :
  env_socket w (w_next w) = None ->
  peer_connect (env_peer w (w_next w) addr) = None ->
  save BytesIO_new A = Ret f ->
  peer_sendall (env_peer w (w_next w) addr) (bio_buf f) = Delivered ->
  peer_arrival (env_peer w (w_next w) addr) (bio_buf f) 0 = Eof ->
  TestPy.exchange (S fuel) addr A w
  = Some (Raise EOFError,
          finish w [EvConnect (w_next w) addr; EvSendall (w_next w) (bio_buf f);
                    EvRecv (w_next w) 1024 []]).
Proof.
  intros Hsock Hconn Hsave Hsend Heof.
  rewrite exchange_run. cbv zeta. rewrite Hsock, Hconn, Hsave, Hsend.
  cbn [drain]. rewrite Heof. reflexivity.
Qed.

(** Decoding stops after the elements the header announces, and fails
    when fewer bytes follow it. *)
Lemma load_written_more (room : N -> bool) (A : ndarray) (h extra : bytes) :
  wf_array A = true ->
  array_header (arr_dtype A) (arr_fortran A) (arr_shape A) = Ret h ->
  load_written room (h ++ arr_data A ++ extra) = Some (Ret A).
Proof.
  destruct A as [d fo shape data]. cbn [arr_dtype arr_fortran arr_shape arr_data].
  unfold wf_array. cbn [arr_dtype arr_fortran arr_shape arr_data].
  rewrite andb_true_iff, N.eqb_eq. intros [Hvalid Hdata] Hh.
  assert (Halloc : allocatable d shape = true).
  { unfold valid_header in Hvalid. apply andb_true_iff in Hvalid. tauto. }
  destruct (array_header_valid d fo shape Halloc) as (len & tail & Hlen & Hh').
  assert (Eh : h = magic x01 x00 ++ len ++ header_dict d fo shape ++ tail)
    by congruence.
  unfold load_written.
  rewrite Eh at 1. rewrite <- !app_assoc, read_entries_header by exact Hlen.
  cbn [mbind option_bind]. rewrite Hvalid, Hh.
  rewrite startswith_app, drop_app_length.
  destruct (N.ltb_spec (N.of_nat (length (data ++ extra))) (itemsize d * count shape))
    as [Hlt|_]; [rewrite length_app in Hlt; lia|].
  rewrite <- Hdata, Nat2N.id, take_app_length. reflexivity.
Qed.

Lemma load_written_short (room : N -> bool) (A : ndarray) (h body : bytes) :
  wf_array A = true ->
  array_header (arr_dtype A) (arr_fortran A) (arr_shape A) = Ret h ->
  length body < length (arr_data A) ->
  load_written room (h ++ body)
  = Some (Raise (if room (N.of_nat (length (arr_data A)))
                 then ValueError else MemoryError)).
Proof.
  destruct A as [d fo shape data]. cbn [arr_dtype arr_fortran arr_shape arr_data].
  unfold wf_array. cbn [arr_dtype arr_fortran arr_shape arr_data].
  rewrite andb_true_iff, N.eqb_eq. intros [Hvalid Hdata] Hh Hshort.
  assert (Halloc : allocatable d shape = true).
  { unfold valid_header in Hvalid. apply andb_true_iff in Hvalid. tauto. }
  destruct (array_header_valid d fo shape Halloc) as (len & tail & Hlen & Hh').
  assert (Eh : h = magic x01 x00 ++ len ++ header_dict d fo shape ++ tail)
    by congruence.
  unfold load_written.
  rewrite Eh at 1. rewrite <- !app_assoc, read_entries_header by exact Hlen.
  cbn [mbind option_bind]. rewrite Hvalid, Hh.
  rewrite startswith_app, drop_app_length.
  destruct (N.ltb_spec (N.of_nat (length body)) (itemsize d * count shape))
    as [_|Hge]; [rewrite Hdata; reflexivity | lia].
Qed.

Lemma load_of_written (z : bytes) (r : res ndarray) :
  load_written allocates z = Some r ->
  load (mkBytesIO z 0) = res_bind r (fun a => Ret (PyArr a)).
Proof.
  intros H. unfold load. cbn [bio_pos bio_buf]. rewrite drop_0.
  destruct z as [|b z]; [discriminate H|]. rewrite H. reflexivity.
Qed.

End ReplyFacts.

(** X3.  When the server accepts the request and closes the connection
    without sending a byte, [exchange] raises [EOFError], the failure of
    [np.load] on an empty buffer, after one [recv] and after closing the
    socket. *)
Theorem exchange_empty_reply_raises :
  forall (Obj : Type) (numpy : Rest Obj)
         (exchange : nat -> address -> pyval Obj -> M (pyval Obj)),
    exchange = TestPy.exchange \/ exchange = ClientPy.exchange ->
    forall fuel addr A w f,
      env_socket w (w_next w) = None ->
      peer_connect (env_peer w (w_next w) addr) = None ->
      save BytesIO_new A = Ret f ->
      peer_sendall (env_peer w (w_next w) addr) (bio_buf f) = Delivered ->
      peer_arrival (env_peer w (w_next w) addr) (bio_buf f) 0 = Eof ->
      exchange (S fuel) addr A w
      = Some (Raise EOFError,
              finish w [EvConnect (w_next w) addr;
                        EvSendall (w_next w) (bio_buf f);
                        EvRecv (w_next w) 1024 []]).
Proof.
  intros Obj numpy exchange Hfun fuel addr A w f.
  assert (exchange = TestPy.exchange) as ->.
  { destruct Hfun as [-> | ->]; reflexivity. }
  apply exchange_empty_reply.
Qed.

(** The identity matrix sent to a server that answers nothing. *)
Lemma exchange_empty_reply_raises_witness :
  TestPy.exchange (numpy := fragment_only) 1 loopback (PyArr (eye 2))
    (world_of (server (fun _ => []) 16))
  = Some (Raise EOFError,
          finish (world_of (server (fun _ => []) 16))
            [EvConnect 0 loopback; EvSendall 0 (encoding (eye 2));
             EvRecv 0 1024 []]).
Proof.
  apply (exchange_empty_reply_raises Empty_set fragment_only TestPy.exchange
           (or_introl eq_refl) 0 loopback (PyArr (eye 2))
           (world_of (server (fun _ => []) 16))
           (mkBytesIO (encoding (eye 2)) 160));
    first [exact save_eye2 | reflexivity].
Defined.

(** X4.  On a connected socket the loop of [recv_array] is abandoned with
    an exception [e] exactly when, after finitely many segments and
    before the end of the stream, the connection fails with [e]. *)
Theorem recv_loop_abandoned_iff_reset :
  forall (recv_loop : nat -> nat -> BytesIO -> M BytesIO),
    recv_loop = TestPy.recv_loop \/ recv_loop = ClientPy.recv_loop ->
    forall s w p sent pend k f e,
      w_socks w !! s = Some (mkSock (Some p) sent pend k) ->
      (exists fuel w', recv_loop fuel s f w = Some (Raise e, w'))
      <-> (exists n,
              (forall i, i < n -> is_data (peer_arrival p sent (k + i)) = true)
              /\ peer_arrival p sent (k + n) = Reset e).
Proof.
  intros recv_loop Hfun s w p sent pend k f e Hs.
  assert (recv_loop = TestPy.recv_loop) as ->.
  { destruct Hfun as [-> | ->]; reflexivity. }
  eapply recv_loop_raises_iff, Hs.
Qed.

(** A connection that is reset after its first segment. *)
Lemma recv_loop_abandoned_iff_reset_witness :
  exists fuel w',
    TestPy.recv_loop fuel 0 BytesIO_new (connected_to (resetting [x2a]))
    = Some (Raise (OSError 104), w').
Proof.
  apply (recv_loop_abandoned_iff_reset TestPy.recv_loop (or_introl eq_refl)
           0 (connected_to (resetting [x2a])) (resetting [x2a]) [] [] 0
           BytesIO_new (OSError 104) eq_refl).
  exists 1. split.
  - intros i Hi. assert (i = 0) as -> by lia. reflexivity.
  - reflexivity.
Defined.

Lemma echo_echoes : echoes echo.
Proof.
  split; [reflexivity|]. intros sent. split; [reflexivity|].
  destruct sent as [|b bs].
  - exists 0. repeat split. intros i Hi. lia.
  - exists 1. repeat split.
    + intros i Hi. assert (i = 0) as -> by lia. reflexivity.
    + cbn. by rewrite app_nil_r.
Qed.

(** X5.  Against a peer that sends back what it receives, [exchange]
    returns the very array it was given: encoding, sending, receiving in
    chunks and decoding compose to the identity. *)
Theorem exchange_echo_identity :
  forall (Obj : Type) (numpy : Rest Obj)
         (exchange : nat -> address -> pyval Obj -> M (pyval Obj)),
    exchange = TestPy.exchange \/ exchange = ClientPy.exchange ->
    forall addr (A : ndarray) w,
      wf_array A = true ->
      env_socket w (w_next w) = None ->
      echoes (env_peer w (w_next w) addr) ->
      exists fuel w',
        forall fuel', fuel <= fuel' ->
          exchange fuel' addr (PyArr A) w = Some (Ret (PyArr A), w').
Proof.
  intros Obj numpy exchange Hfun addr A w.
  assert (exchange = TestPy.exchange) as ->.
  { destruct Hfun as [-> | ->]; reflexivity. }
  apply exchange_echo.
Qed.

(** The identity matrix against the echo server. *)
Lemma exchange_echo_identity_witness :
  exists fuel w',
    forall fuel', fuel <= fuel' ->
      ClientPy.exchange (numpy := fragment_only) fuel' loopback (PyArr (eye 2))
        (world_of echo)
      = Some (Ret (PyArr (eye 2)), w').
Proof.
  apply (exchange_echo_identity Empty_set fragment_only ClientPy.exchange
           (or_intror eq_refl) loopback (eye 2) (world_of echo)).
  - vm_compute. reflexivity.
  - reflexivity.
  - exact echo_echoes.
Defined.

(** ** What a run of [main] leaves behind *)

Lemma sessions_app n m t u :
  sessions n t -> sessions m u -> sessions (n + m) (t ++ u).
Proof.
  induction 1 as [|s evs n t Hevs Ht IH]; intros Hu; [exact Hu|].
  cbn [Nat.add app]. rewrite <- app_assoc. cbn [app].
  constructor; auto.
Qed.

Lemma after_sessions_trans n d m e w w1 w2 :
  after_sessions n d w w1 -> after_sessions m e w1 w2 ->
  after_sessions (n + m) (d + e) w w2.
Proof.
  intros ((t & Ht & Hs) & Hsub & Hd) ((u & Hu & Hs') & Hsub' & Hd').
  split; [|split].
  - exists (t ++ u). rewrite Hu, Ht, app_assoc. auto using sessions_app.
  - auto.
  - lia.
Qed.

Lemma after_sessions_since n d w w' :
  after_sessions n d w w' ->
  sessions n (since w w')
  /\ (forall s sk, w_socks w' !! s = Some sk -> w_socks w !! s = Some sk)
  /\ w_drawn w' = w_drawn w + d.
Proof.
  intros ((t & Ht & Hs) & Hsub & Hd). rewrite (since_app _ _ _ Ht). auto.
Qed.

Lemma after_draw_sessions shape w :
  after_sessions 0 (N.to_nat (count shape)) w (after_draw shape w).
Proof.
  split; [|split; [auto | reflexivity]].
  exists []. cbn [after_draw w_trace]. rewrite app_nil_r. split; [reflexivity|constructor].
Qed.

Lemma refused_sessions w : after_sessions 0 0 w (refused w).
Proof.
  split; [|split; [auto | cbn; lia]].
  exists []. cbn [refused w_trace]. rewrite app_nil_r. split; [reflexivity|constructor].
Qed.

Lemma finish_sessions w evs :
  Forall (fun ev => uses (w_next w) ev = true) evs ->
  after_sessions 1 0 w (finish w evs).
Proof.
  intros Huses. split; [|split; [apply finish_released | cbn; lia]].
  exists (EvSocket (w_next w) :: evs ++ [EvClose (w_next w)]).
  split; [reflexivity|]. constructor; [exact Huses | constructor].
Qed.

Section MainFacts.
Context {Obj : Type} {numpy : Rest Obj}.

(** A call of [exchange] makes one connection, or none when the socket
    cannot be created, and then it raises. *)
Lemma exchange_sessions fuel addr (A : pyval Obj) w r w' :
  TestPy.exchange fuel addr A w = Some (r, w') ->
  exists n, after_sessions n 0 w w' /\ n <= 1 /\ (forall y, r = Ret y -> n = 1).
Proof.
  intros H. rewrite exchange_run in H. cbv zeta in H.
  assert (Hconn : uses (w_next w) (EvConnect (w_next w) addr) = true)
    by apply Nat.eqb_refl.
  assert (Hsend : forall z, uses (w_next w) (EvSendall (w_next w) z) = true)
    by (intros z; apply Nat.eqb_refl).
  assert (Hfin : forall evs,
    Forall (fun ev => uses (w_next w) ev = true) evs -> w' = finish w evs ->
    exists n, after_sessions n 0 w w' /\ n <= 1 /\ (forall y, r = Ret y -> n = 1)).
  { intros evs Huses ->. exists 1. auto using finish_sessions. }
  destruct (env_socket w (w_next w)) as [e|].
  { injection H as <- <-. exists 0. split; [apply refused_sessions|].
    split; [lia | discriminate]. }
  destruct (peer_connect (env_peer w (w_next w) addr)).
  { injection H as <- <-. eapply Hfin; [|reflexivity]. auto. }
  destruct (save BytesIO_new A) as [f|].
  2:{ injection H as <- <-. eapply Hfin; [|reflexivity]. auto. }
  destruct (peer_sendall (env_peer w (w_next w) addr) (bio_buf f)).
  - destruct (drain 1024 fuel (env_peer w (w_next w) addr) (bio_buf f) [] 0)
      as [[[[chunks [e|]] pd] k1]|]; [| |discriminate].
    + injection H as <- <-. eapply Hfin; [|reflexivity].
      repeat constructor; auto using uses_recv.
    + injection H as <- <-. eapply Hfin; [|reflexivity].
      repeat constructor; auto using uses_recv.
  - injection H as <- <-. eapply Hfin; [|reflexivity]. auto.
  - discriminate.
Qed.

Lemma test_round_sessions fuel (z : pyval Obj) w r w' :
  test_round fuel z w = Some (r, w') ->
  exists n, after_sessions n 0 w w' /\ n <= 1 /\ (r = Ret tt -> n = 1).
Proof.
  unfold test_round. intros H.
  destruct (TestPy.exchange fuel loopback z w) as [[[y|e] w1]|] eqn:E;
    [| |discriminate]; injection H as <- <-;
    destruct (exchange_sessions _ _ _ _ _ _ E) as (n & Ha & Hle & Hret);
    exists n; split; [exact Ha| |exact Ha|].
  - split; [exact Hle|]. intros _. eapply Hret. reflexivity.
  - split; [exact Hle|]. discriminate.
Qed.

End MainFacts.

(** X6.  A run of [main] of [src/test.py] makes at most three
    connections, one after the other: each socket is closed before the
    next one is created, and none is open at the end that was not open
    before.  It draws its four random deviates only after two rounds
    have passed, and a run that succeeds has made exactly three
    connections and drawn exactly four deviates. *)
Theorem test_main_sessions :
  forall (Obj : Type) (numpy : Rest Obj) fuel w r w',
    TestPy.main fuel w = Some (r, w') ->
    exists n d,
      sessions n (since w w')
      /\ (forall s sk, w_socks w' !! s = Some sk -> w_socks w !! s = Some sk)
      /\ w_drawn w' = w_drawn w + d
      /\ n <= 3
      /\ (d = 0 \/ (d = 4 /\ 2 <= n))
      /\ (r = Ret tt -> n = 3 /\ d = 4).
Proof.
  intros Obj numpy fuel w r w' H. rewrite test_main_rounds in H.
  destruct (test_round fuel (PyArr (eye 2)) w) as [[r1 w1]|] eqn:E1;
    [|discriminate].
  destruct (test_round_sessions _ _ _ _ _ E1) as (n1 & Ha1 & Hle1 & Hret1).
  destruct r1 as [[]|e1].
  2:{ injection H as <- <-.
      destruct (after_sessions_since _ _ _ _ Ha1) as (Hs & Hsub & Hd).
      exists n1, 0. repeat split; auto; (lia || discriminate). }
  specialize (Hret1 eq_refl). subst n1.
  destruct (test_round fuel (PyArr coeye2) w1) as [[r2 w2]|] eqn:E2;
    [|discriminate].
  destruct (test_round_sessions _ _ _ _ _ E2) as (n2 & Ha2 & Hle2 & Hret2).
  pose proof (after_sessions_trans _ _ _ _ _ _ _ Ha1 Ha2) as Ha12.
  destruct r2 as [[]|e2].
  2:{ injection H as <- <-.
      destruct (after_sessions_since _ _ _ _ Ha12) as (Hs & Hsub & Hd).
      exists (1 + n2), (0 + 0). repeat split; auto; (lia || discriminate). }
  specialize (Hret2 eq_refl). subst n2.
  destruct (test_round_sessions _ _ _ _ _ H) as (n3 & Ha3 & Hle3 & Hret3).
  pose proof (after_sessions_trans _ _ _ _ _ _ _ Ha12
                (after_sessions_trans _ _ _ _ _ _ _
                   (after_draw_sessions [2; 2]%N w2) Ha3)) as Hall.
  destruct (after_sessions_since _ _ _ _ Hall) as (Hs & Hsub & Hd).
  exists (1 + 1 + (0 + n3)), (0 + 0 + (N.to_nat (count [2; 2]%N) + 0)).
  split; [exact Hs|]. split; [exact Hsub|]. split; [exact Hd|].
  split; [lia|]. split.
  - right. split; [reflexivity | lia].
  - intros Hr. rewrite (Hret3 Hr). split; reflexivity.
Qed.

(** Against the server that adds one, [main] of [src/test.py] succeeds
    after three connections and four deviates. *)
Lemma test_main_sessions_witness :
  exists w' n d,
    TestPy.main (numpy := fragment_only) 3 (world_of (server plus_one 4096))
    = Some (Ret tt, w')
    /\ sessions n (since (world_of (server plus_one 4096)) w')
    /\ w_socks w' = ∅
    /\ n = 3 /\ d = 4 /\ w_drawn w' = d.
Proof.
  destruct test_main_examples as [Hrun _].
  destruct (TestPy.main (numpy := fragment_only) 3
              (world_of (server plus_one 4096))) as [[r w']|] eqn:E;
    [|discriminate Hrun].
  injection Hrun as ->.
  destruct (test_main_sessions Empty_set fragment_only 3
              (world_of (server plus_one 4096)) (Ret tt) w' E)
    as (n & d & Hs & Hsub & Hd & _ & _ & Hok).
  destruct (Hok eq_refl) as [-> ->].
  exists w', 3, 4. repeat split; auto.
  apply map_empty. intros s. destruct (w_socks w' !! s) as [sk|] eqn:Es; [|reflexivity].
  apply Hsub in Es. discriminate Es.
Defined.

(** X7.  A run of [main] of [src/examples/client.py] draws its 32
    random deviates before anything else, also when no socket can be
    created afterwards; it makes at most one connection, closes its
    socket, and a run that succeeds has made exactly one connection. *)
Theorem client_main_sessions :
  forall (Obj : Type) (numpy : Rest Obj) fuel w r w',
    ClientPy.main fuel w = Some (r, w') ->
    exists n,
      sessions n (since w w')
      /\ (forall s sk, w_socks w' !! s = Some sk -> w_socks w !! s = Some sk)
      /\ w_drawn w' = w_drawn w + 32
      /\ n <= 1
      /\ (r = Ret tt -> n = 1).
Proof.
  intros Obj numpy fuel w r w' H. rewrite client_main_run in H.
  change (ClientPy.exchange fuel loopback (PyArr (drawn [1; 32]%N w))
            (after_draw [1; 32]%N w))
    with (TestPy.exchange fuel loopback (PyArr (Obj := Obj) (drawn [1; 32]%N w))
            (after_draw [1; 32]%N w)) in H.
  destruct (TestPy.exchange fuel loopback (PyArr (drawn [1; 32]%N w))
              (after_draw [1; 32]%N w)) as [[ry w1]|] eqn:E; [|discriminate].
  destruct (exchange_sessions _ _ _ _ _ _ E) as (n & Ha & Hle & Hret).
  pose proof (after_sessions_trans _ _ _ _ _ _ _
                (after_draw_sessions [1; 32]%N w) Ha) as Hall.
  assert (w1 = w') as ->.
  { destruct ry; injection H as _ <-; reflexivity. }
  destruct (after_sessions_since _ _ _ _ Hall) as (Hs & Hsub & Hd).
  exists n. repeat split; auto.
  intros ->. destruct ry as [y|e]; [eapply Hret; reflexivity | discriminate H].
Qed.

(** Where no socket can be created, [main] of [src/examples/client.py]
    raises the error of [socket.socket], with 32 deviates drawn. *)
Lemma client_main_sessions_witness :
  exists r w',
    ClientPy.main (numpy := fragment_only) 0 world_without_sockets = Some (r, w')
    /\ since world_without_sockets w' = []
    /\ w_drawn w' = 32.
Proof.
  assert (Hrun : ClientPy.main (numpy := fragment_only) 0 world_without_sockets
                 = Some (Raise (OSError 24),
                         refused (after_draw [1; 32]%N world_without_sockets))).
  { rewrite client_main_run.
    change (ClientPy.exchange 0 loopback
              (PyArr (drawn [1; 32]%N world_without_sockets))
              (after_draw [1; 32]%N world_without_sockets))
      with (TestPy.exchange (numpy := fragment_only) 0 loopback
              (PyArr (drawn [1; 32]%N world_without_sockets))
              (after_draw [1; 32]%N world_without_sockets)).
    rewrite exchange_run. reflexivity. }
  destruct (client_main_sessions Empty_set fragment_only 0 world_without_sockets
              _ _ Hrun) as (n & Hs & _ & Hd & _ & _).
  exists (Raise (OSError 24)),
         (refused (after_draw [1; 32]%N world_without_sockets)).
  split; [exact Hrun|]. split; [reflexivity | exact Hd].
Defined.

(** ** Replies longer or shorter than the array they announce *)

Lemma header_eye2 :
  array_header (arr_dtype (eye 2)) (arr_fortran (eye 2)) (arr_shape (eye 2))
  = Ret (take 128 (encoding (eye 2))).
Proof. vm_compute. reflexivity. Qed.

Lemma recv_one_segment {Obj : Type} {numpy : Rest Obj} (reply : bytes) :
  drain 1024 2 (server (fun _ => reply) 4096) [] [] 0 = Some ([reply], None, [], 1) ->
  TestPy.recv_array (numpy := numpy) 2 0
    (connected_to (server (fun _ => reply) 4096))
  = Some (load (mkBytesIO (concat [reply]) 0),
          upd (connected_to (server (fun _ => reply) 4096)) 0
              (mkSock (Some (server (fun _ => reply) 4096)) [] [] 1)
              (map (EvRecv 0 1024) [reply] ++ [EvRecv 0 1024 []])).
Proof.
  intros Hd.
  rewrite (recv_array_connected (numpy := numpy) 2 0
             (connected_to (server (fun _ => reply) 4096))
             (server (fun _ => reply) 4096) [] [] 0 eq_refl).
  rewrite Hd. reflexivity.
Qed.

Lemma one_segment_received (reply : bytes) w s sk :
  In (EvRecv 0 1024 [])
     (since w (upd w s sk (map (EvRecv 0 1024) [reply] ++ [EvRecv 0 1024 []])))
  /\ concat (received 0
               (since w (upd w s sk
                           (map (EvRecv 0 1024) [reply] ++ [EvRecv 0 1024 []]))))
     = reply.
Proof.
  rewrite (since_app _ _ _ (upd_trace _ _ _ _)). split.
  - apply in_app_iff. right. left. reflexivity.
  - change [EvRecv 0 1024 []] with (map (EvRecv 0 1024) [[]]).
    rewrite <- map_app, received_recv. cbn [app concat]. by rewrite !app_nil_r.
Qed.

(** X8.  [recv_array] does not check that the reply ends where the array
    ends: when the bytes received up to the end of the stream are the
    encoding of [A] followed by anything else, it returns [A]. *)
Theorem recv_array_ignores_trailing_bytes :
  forall (Obj : Type) (numpy : Rest Obj) (recv_array : nat -> nat -> M (pyval Obj)),
    recv_array = TestPy.recv_array \/ recv_array = ClientPy.recv_array ->
    forall (A : ndarray) (h extra : bytes) fuel s w r w',
      wf_array A = true ->
      array_header (arr_dtype A) (arr_fortran A) (arr_shape A) = Ret h ->
      recv_array fuel s w = Some (r, w') ->
      In (EvRecv s 1024 []) (since w w') ->
      concat (received s (since w w')) = h ++ arr_data A ++ extra ->
      r = Ret (PyArr A).
Proof.
  intros Obj numpy recv_array Hfun A h extra fuel s w r w' Hwf Hh H Heof Hc.
  assert (H' : TestPy.recv_array fuel s w = Some (r, w')).
  { destruct Hfun as [-> | ->]; exact H. }
  rewrite (recv_array_decodes _ _ _ _ _ H' Heof), Hc.
  rewrite (load_of_written _ _ (load_written_more allocates A h extra Hwf Hh)).
  reflexivity.
Qed.

(** The identity matrix followed by two more bytes. *)
Lemma recv_array_ignores_trailing_bytes_witness :
  exists w',
    TestPy.recv_array (numpy := fragment_only) 2 0
      (connected_to (server (fun _ => encoding (eye 2) ++ [x2a; x2a]) 4096))
    = Some (Ret (PyArr (eye 2)), w').
Proof.
  assert (Hd : drain 1024 2 (server (fun _ => encoding (eye 2) ++ [x2a; x2a]) 4096)
                 [] [] 0
               = Some ([encoding (eye 2) ++ [x2a; x2a]], None, [], 1))
    by (vm_compute; reflexivity).
  pose proof (recv_one_segment (numpy := fragment_only) _ Hd) as Hrun.
  destruct (one_segment_received (encoding (eye 2) ++ [x2a; x2a])
              (connected_to (server (fun _ => encoding (eye 2) ++ [x2a; x2a]) 4096))
              0 (mkSock (Some (server (fun _ => encoding (eye 2) ++ [x2a; x2a]) 4096))
                        [] [] 1)) as [Heof Hc].
  assert (Hsplit : encoding (eye 2) ++ [x2a; x2a]
                   = take 128 (encoding (eye 2)) ++ arr_data (eye 2) ++ [x2a; x2a])
    by (vm_compute; reflexivity).
  rewrite Hsplit in Hc at 2.
  pose proof (recv_array_ignores_trailing_bytes Empty_set fragment_only
                TestPy.recv_array (or_introl eq_refl) (eye 2) _ [x2a; x2a] 2 0 _ _ _
                eq_refl header_eye2 Hrun Heof Hc) as Hr.
  eexists. rewrite Hrun, Hr. reflexivity.
Defined.

(** X9.  A reply that carries the header of [A] and then fewer bytes
    than the elements of [A] take makes [recv_array] raise: a stream cut
    short in the element data is detected by the decoder, not by the
    loop.  The decoder allocates the announced array before it reads, so
    the exception is [ValueError], that of the short read, where the
    machine has room for the array, and [MemoryError] where it has
    not. *)
Theorem recv_array_truncated_reply_raises :
  forall (Obj : Type) (numpy : Rest Obj) (recv_array : nat -> nat -> M (pyval Obj)),
    recv_array = TestPy.recv_array \/ recv_array = ClientPy.recv_array ->
    forall (A : ndarray) (h body : bytes) fuel s w r w',
      wf_array A = true ->
      array_header (arr_dtype A) (arr_fortran A) (arr_shape A) = Ret h ->
      length body < length (arr_data A) ->
      recv_array fuel s w = Some (r, w') ->
      In (EvRecv s 1024 []) (since w w') ->
      concat (received s (since w w')) = h ++ body ->
      r = Raise (if allocates (N.of_nat (length (arr_data A)))
                 then ValueError else MemoryError).
Proof.
  intros Obj numpy recv_array Hfun A h body fuel s w r w' Hwf Hh Hshort H Heof Hc.
  assert (H' : TestPy.recv_array fuel s w = Some (r, w')).
  { destruct Hfun as [-> | ->]; exact H. }
  rewrite (recv_array_decodes _ _ _ _ _ H' Heof), Hc.
  rewrite (load_of_written _ _ (load_written_short allocates A h body Hwf Hh Hshort)).
  reflexivity.
Qed.

(** The identity matrix with its last ten bytes missing, on a machine
    with room for it and on one without. *)
Lemma recv_array_truncated_reply_raises_witness :
  (exists w',
      TestPy.recv_array (numpy := fragment_only) 2 0
        (connected_to (server (fun _ => take 150 (encoding (eye 2))) 4096))
      = Some (Raise ValueError, w'))
  /\ (exists w',
         TestPy.recv_array (numpy := cramped) 2 0
           (connected_to (server (fun _ => take 150 (encoding (eye 2))) 4096))
         = Some (Raise MemoryError, w')).
Proof.
  assert (Hd : drain 1024 2 (server (fun _ => take 150 (encoding (eye 2))) 4096)
                 [] [] 0
               = Some ([take 150 (encoding (eye 2))], None, [], 1))
    by (vm_compute; reflexivity).
  destruct (one_segment_received (take 150 (encoding (eye 2)))
              (connected_to (server (fun _ => take 150 (encoding (eye 2))) 4096))
              0 (mkSock (Some (server (fun _ => take 150 (encoding (eye 2))) 4096))
                        [] [] 1)) as [Heof Hc].
  assert (Hsplit : take 150 (encoding (eye 2))
                   = take 128 (encoding (eye 2)) ++ take 22 (arr_data (eye 2)))
    by (vm_compute; reflexivity).
  rewrite Hsplit in Hc at 2.
  assert (Hshort : length (take 22 (arr_data (eye 2))) < length (arr_data (eye 2)))
    by (vm_compute; lia).
  split.
  - pose proof (recv_one_segment (numpy := fragment_only) _ Hd) as Hrun.
    pose proof (recv_array_truncated_reply_raises Empty_set fragment_only
                  TestPy.recv_array (or_introl eq_refl) (eye 2) _ _ 2 0 _ _ _
                  eq_refl header_eye2 Hshort Hrun Heof Hc) as Hr.
    eexists. rewrite Hrun, Hr. reflexivity.
  - pose proof (recv_one_segment (numpy := cramped) _ Hd) as Hrun.
    pose proof (recv_array_truncated_reply_raises Empty_set cramped
                  TestPy.recv_array (or_introl eq_refl) (eye 2) _ _ 2 0 _ _ _
                  eq_refl header_eye2 Hshort Hrun Heof Hc) as Hr.
    eexists. rewrite Hrun, Hr. reflexivity.
Defined.

(** ** When [exchange] returns *)

Section ReturnFacts.
Context {Obj : Type} {numpy : Rest Obj}.

Lemma exchange_returns addr (A : pyval Obj) w :
  (exists fuel r w', TestPy.exchange fuel addr A w = Some (r, w'))
  <-> (env_socket w (w_next w) = None ->
       peer_connect (env_peer w (w_next w) addr) = None ->
       forall f,
         save BytesIO_new A = Ret f ->
         peer_sendall (env_peer w (w_next w) addr) (bio_buf f) <> Stalled
         /\ (peer_sendall (env_peer w (w_next w) addr) (bio_buf f) = Delivered ->
             stream_ends (peer_arrival (env_peer w (w_next w) addr) (bio_buf f)))).
Proof.
  split.
  - intros (fuel & r & w' & H) Hsock Hconn f Hsave.
    rewrite exchange_run in H. cbv zeta in H.
    rewrite Hsock, Hconn, Hsave in H.
    destruct (peer_sendall (env_peer w (w_next w) addr) (bio_buf f));
      [|split; discriminate|discriminate].
    split; [discriminate|]. intros _.
    destruct (drain 1024 fuel (env_peer w (w_next w) addr) (bio_buf f) [] 0)
      as [[[[chunks oe] pd] k1]|] eqn:Hd; [|discriminate].
    destruct (drain_stream 1024 _ _ ltac:(lia) _ _ _ _ _ _ _ Hd)
      as (n & -> & _ & _ & Hdata & Hend).
    exists n. split; [exact Hdata|].
    destruct oe as [e|]; [right; exists e|left]; exact Hend.
  - intros Hall.
    destruct (env_socket w (w_next w)) as [e|] eqn:Hsock.
    { exists 0. do 2 eexists. rewrite exchange_run. cbv zeta.
      rewrite Hsock. reflexivity. }
    destruct (peer_connect (env_peer w (w_next w) addr)) as [e|] eqn:Hconn.
    { exists 0. do 2 eexists. rewrite exchange_run. cbv zeta.
      rewrite Hsock, Hconn. reflexivity. }
    destruct (save BytesIO_new A) as [f|e] eqn:Hsave.
    2:{ exists 0. do 2 eexists. rewrite exchange_run. cbv zeta.
        rewrite Hsock, Hconn, Hsave. reflexivity. }
    destruct (Hall eq_refl eq_refl f eq_refl) as [Hstall Hends].
    destruct (peer_sendall (env_peer w (w_next w) addr) (bio_buf f))
      as [|e|] eqn:Hsend.
    + destruct (Hends eq_refl) as (n & Hdata & Hend).
      assert (exists oe, peer_arrival (env_peer w (w_next w) addr) (bio_buf f) (0 + n)
                         = match oe with None => Eof | Some e => Reset e end)
        as [oe Hoe].
      { destruct Hend as [Hend | [e Hend]]; [exists None | exists (Some e)];
          exact Hend. }
      destruct (drain_terminates 1024 _ _ ltac:(lia) n [] 0 oe Hdata Hoe)
        as (fuel & chunks & Hd).
      exists fuel. rewrite exchange_run. cbv zeta.
      rewrite Hsock, Hconn, Hsave, Hsend, Hd.
      destruct oe; do 2 eexists; reflexivity.
    + exists 0. do 2 eexists. rewrite exchange_run. cbv zeta.
      rewrite Hsock, Hconn, Hsave, Hsend. reflexivity.
    + destruct (Hstall eq_refl).
Qed.

End ReturnFacts.

(** X10.  [exchange] comes back, with a value or an exception, exactly
    when no step of it blocks for ever: once the socket is connected and
    the array encoded, [sendall] must not stall, and after a delivered
    request the reply stream must come to an end, closed by the server
    or failed.  A server that keeps the connection open after its reply
    keeps [exchange] waiting for ever. *)
Theorem exchange_returns_iff :
  forall (Obj : Type) (numpy : Rest Obj)
         (exchange : nat -> address -> pyval Obj -> M (pyval Obj)),
    exchange = TestPy.exchange \/ exchange = ClientPy.exchange ->
    forall addr A w,
      (exists fuel r w', exchange fuel addr A w = Some (r, w'))
      <-> (env_socket w (w_next w) = None ->
           peer_connect (env_peer w (w_next w) addr) = None ->
           forall f,
             save BytesIO_new A = Ret f ->
             peer_sendall (env_peer w (w_next w) addr) (bio_buf f) <> Stalled
             /\ (peer_sendall (env_peer w (w_next w) addr) (bio_buf f) = Delivered ->
                 stream_ends
                   (peer_arrival (env_peer w (w_next w) addr) (bio_buf f)))).
Proof.
  intros Obj numpy exchange Hfun addr A w.
  assert (exchange = TestPy.exchange) as ->.
  { destruct Hfun as [-> | ->]; reflexivity. }
  apply exchange_returns.
Qed.

(** Against a server that accepts and then never sends nor closes,
    [exchange] does not come back, whatever the bound. *)
Lemma exchange_returns_iff_witness :
  ~ exists fuel r w',
      TestPy.exchange (numpy := fragment_only) fuel loopback (PyArr (eye 2))
        (world_of silent) = Some (r, w').
Proof.
  intros Hret.
  destruct (proj1 (exchange_returns_iff Empty_set fragment_only TestPy.exchange
                     (or_introl eq_refl) loopback (PyArr (eye 2))
                     (world_of silent))
                  Hret eq_refl eq_refl _ save_eye2) as [_ Hends].
  destruct (Hends eq_refl) as (n & _ & [Hend | [e Hend]]); discriminate Hend.
Defined.
